(** * 3rd Eye SDK: scanner, schema generator, registrar and watcher

    A shallow embedding of the SDK pipeline (scanner.ts, schema.ts,
    registrar.ts, watcher.ts) together with the properties its specification
    states about it.

    Conventions of the embedding.
    - An optional field [f?: T] is an [option T]; [a || d] on strings is
      [a |? d] (falls through on undefined and on the empty string) and
      the nullish [a ?? d] keeps its spelling (falls through on undefined
      only).
    - Strings are the UTF-8 bytes of the JavaScript strings.  [trim] removes
      the white space of ECMAScript and [toLowerCase] has the case pairs
      that reach ASCII, so that both are exact on what the code reads off
      them; HTML's own comparisons fold A-Z alone.
    - Code that may throw returns a [completion]; [try_catch] is the
      try/catch statement.  Effects are threaded through an explicit state.
    - A page is its tree together with what the tree does not decide: the
      controls that a form or the document exposes under the name of a
      property, and the outcome of a query whose selector text the
      embedding does not parse.
    - [Map<string, string>] and [localStorage] are [gmap string _].
    - The scanner is the one with the declarative data-tool attributes and
      the three passes (forms, buttons, annotated elements).
    - Console logging has no effect that the properties observe and is
      left out. *)

From stdpp Require Import gmap strings list fin_maps pretty.
From Stdlib Require Import Ascii ZArith Lia.

Open Scope string_scope.

(** ** JavaScript string and option helpers *)

Module Js.

Definition is_empty (s : string) : bool :=
  match s with EmptyString => true | String _ _ => false end.

(** Truthiness of an optional string: undefined and the empty string are
    falsy. *)
Definition truthy (o : option string) : bool :=
  match o with
  | Some s => negb (is_empty s)
  | None => false
  end.

(** [a || d] with a string default. *)
Definition or_else (o : option string) (d : string) : string :=
  match o with
  | Some s => if is_empty s then d else s
  | None => d
  end.

(** [a || b] where both sides are optional. *)
Definition or_opt (o1 o2 : option string) : option string :=
  if truthy o1 then o1 else o2.

(** [a ?? d]. *)
Definition nullish {A : Type} (o : option A) (d : A) : A :=
  match o with
  | Some a => a
  | None => d
  end.

(** [s || undefined]. *)
Definition non_empty (s : string) : option string :=
  if is_empty s then None else Some s.

Definition nat_of_char (c : ascii) : nat := Ascii.nat_of_ascii c.

Definition in_range (lo hi : nat) (c : ascii) : bool :=
  (lo <=? nat_of_char c)%nat && (nat_of_char c <=? hi)%nat.

Definition is_upper (c : ascii) : bool := in_range 65 90 c.
Definition is_lower (c : ascii) : bool := in_range 97 122 c.
Definition is_digit (c : ascii) : bool := in_range 48 57 c.

Definition lower_char (c : ascii) : ascii :=
  if is_upper c then Ascii.ascii_of_nat (nat_of_char c + 32) else c.

Definition upper_char (c : ascii) : ascii :=
  if is_lower c then Ascii.ascii_of_nat (nat_of_char c - 32) else c.

Fixpoint map_chars (f : ascii -> ascii) (s : string) : string :=
  match s with
  | EmptyString => EmptyString
  | String c s' => String (f c) (map_chars f s')
  end.

(** Lower-casing of A-Z alone: the ASCII case-insensitive comparison of
    HTML (the [type] attribute in a selector, enumerated attributes). *)
Definition ascii_lower : string -> string := map_chars lower_char.

Definition byte_is (c : ascii) (n : nat) : bool := (nat_of_char c =? n)%nat.

(** [s.toLowerCase()] on the UTF-8 bytes of [s].  Besides A-Z, two
    characters outside ASCII have a lower-case form with an ASCII letter
    in it: U+0130 (bytes C4 B0) becomes i followed by U+0307 (CC 87), and
    the Kelvin sign U+212A (E2 84 AA) becomes k.  The other case pairs stay
    outside ASCII, where the code tells no byte from another, and are left
    as they are. *)
Fixpoint toLowerCase (s : string) : string :=
  match s with
  | EmptyString => EmptyString
  | String c s1 =>
      match s1 with
      | EmptyString => String (lower_char c) EmptyString
      | String c1 s2 =>
          if byte_is c 196 && byte_is c1 176
          then String "i" (String (Ascii.ascii_of_nat 204)
                 (String (Ascii.ascii_of_nat 135) (toLowerCase s2)))
          else
            match s2 with
            | EmptyString => String (lower_char c) (toLowerCase s1)
            | String c2 s3 =>
                if byte_is c 226 && byte_is c1 132 && byte_is c2 170
                then String "k" (toLowerCase s3)
                else String (lower_char c) (toLowerCase s1)
            end
      end
  end.

(** [s.toUpperCase()] for a-z.  The code only compares the result with GET
    and DELETE or applies it to the ASCII value of [form.method]; no
    character outside a-z has an upper-case form made of letters of these
    two words. *)
Definition toUpperCase : string -> string := map_chars upper_char.

(** [text.includes(w)]. *)
Fixpoint includes (text w : string) : bool :=
  String.prefix w text ||
  match text with
  | EmptyString => false
  | String _ rest => includes rest w
  end.

(** White space removed by [trim].  In ASCII: tab, line feed, vertical
    tab, form feed, carriage return and space. *)
Definition is_space (c : ascii) : bool :=
  in_range 9 13 c || (nat_of_char c =? 32)%nat.

(** Outside ASCII, by UTF-8 bytes: U+00A0 (C2 A0); U+1680 (E1 9A 80);
    U+2000 to U+200A, U+2028, U+2029 and U+202F (E2 80 80..8A, A8, A9, AF);
    U+205F (E2 81 9F); U+3000 (E3 80 80); U+FEFF (EF BB BF). *)
Definition is_space2 (c c1 : ascii) : bool :=
  byte_is c 194 && byte_is c1 160.

Definition is_space3 (c c1 c2 : ascii) : bool :=
  (byte_is c 225 && byte_is c1 154 && byte_is c2 128)
  || (byte_is c 226 && byte_is c1 128
      && (in_range 128 138 c2 || byte_is c2 168 || byte_is c2 169
          || byte_is c2 175))
  || (byte_is c 226 && byte_is c1 129 && byte_is c2 159)
  || (byte_is c 227 && byte_is c1 128 && byte_is c2 128)
  || (byte_is c 239 && byte_is c1 187 && byte_is c2 191).

(** Removes the white space at the head of [s]; with [backwards] the bytes
    of each character are met last byte first, as they are at the head of
    a reversed string. *)
Fixpoint strip (backwards : bool) (s : string) : string :=
  match s with
  | EmptyString => EmptyString
  | String c s1 =>
      if is_space c then strip backwards s1 else
      match s1 with
      | EmptyString => s
      | String c1 s2 =>
          if (if backwards then is_space2 c1 c else is_space2 c c1)
          then strip backwards s2 else
          match s2 with
          | EmptyString => s
          | String c2 s3 =>
              if (if backwards then is_space3 c2 c1 c else is_space3 c c1 c2)
              then strip backwards s3 else s
          end
      end
  end.

Fixpoint rev_append (s acc : string) : string :=
  match s with
  | EmptyString => acc
  | String c s' => rev_append s' (String c acc)
  end.

Definition reverse (s : string) : string := rev_append s EmptyString.

Definition trim_start (s : string) : string := strip false s.
Definition trim_end (s : string) : string := reverse (strip true (reverse s)).

Definition trim (s : string) : string := trim_end (trim_start s).

(** The double quote character, used inside generated descriptions. *)
Definition dq : string := String (Ascii.ascii_of_nat 34) EmptyString.

End Js.

Infix "|?" := Js.or_else (at level 45, left associativity).
Infix "??" := Js.nullish (at level 45, left associativity).

(** ** types.ts *)

Inductive ScannedElementType := form | button.

#[global] Instance ScannedElementType_eq_dec : EqDecision ScannedElementType.
Proof. solve_decision. Defined.

(** [ScannedInput] *)
Record ScannedInput := {
  in_name : string;
  in_inputType : string;
  in_required : bool;
  in_placeholder : option string;
  in_label : option string;
  in_overrideParamDescription : option string
}.

(** [ToolAnnotations]: four optional and independent flags. *)
Record ToolAnnotations := {
  readOnlyHint : option bool;
  destructiveHint : option bool;
  idempotentHint : option bool;
  openWorldHint : option bool
}.

(** The object literal [{}]. *)
Definition no_annotations : ToolAnnotations :=
  {| readOnlyHint := None; destructiveHint := None;
     idempotentHint := None; openWorldHint := None |}.

(** [ScannedElement] *)
Record ScannedElement := {
  el_type : ScannedElementType;
  el_id : option string;
  el_selector : string;
  el_action : option string;
  el_method : option string;
  el_inputs : option (list ScannedInput);
  el_ariaLabel : option string;
  el_textContent : option string;
  el_overrideName : option string;
  el_overrideDescription : option string;
  el_overrideAnnotations : option ToolAnnotations
}.

(** A value found where the types say string.  The scanner reads [id] and
    [action] off the form object, whose named properties come before its
    own: a control named id or action makes [form.id] or [form.action]
    that control.  [shown] is the conversion of the object to a string (as
    in a template literal); [serialisable] tells whether JSON.stringify
    accepts it. *)
Record DomObject := {
  shown : string;
  serialisable : bool
}.

(** A record as the scanner pushed it: the fields of a [ScannedElement],
    and the object found in the place of the id or of the action when there
    is one; the field of [record] is then [None]. *)
Record Emitted := {
  record : ScannedElement;
  idObject : option DomObject;
  actionObject : option DomObject
}.

Definition typed (e : ScannedElement) : Emitted :=
  {| record := e; idObject := None; actionObject := None |}.

Definition isTyped (m : Emitted) : bool :=
  match idObject m, actionObject m with
  | None, None => true
  | _, _ => false
  end.

(** [SchemaProperty] *)
Record SchemaProperty := {
  sp_type : string;
  sp_description : string
}.

(** [ToolInputSchema]; its [type] field is the constant object. *)
Record ToolInputSchema := {
  properties : gmap string SchemaProperty;
  required : list string
}.

(** [ToolSchema] *)
Record ToolSchema := {
  ts_name : string;
  ts_description : string;
  ts_parameters : ToolInputSchema;
  ts_selector : string;
  ts_elementType : ScannedElementType;
  ts_annotations : option ToolAnnotations
}.

(** ** Completions: values and thrown exceptions *)

Inductive Exn :=
  | Error (message : string)        (* new Error(message) *)
  | AbortError                      (* DOMException named AbortError *)
  | TypeError (message : string)    (* failed fetch, missing method *)
  | SyntaxError (message : string)  (* JSON.parse, response.json() *)
  | Thrown (value : string).        (* a thrown value that is not an Error *)

Inductive completion (A : Type) :=
  | Normal (a : A)
  | Throw (e : Exn).

Arguments Normal {A} a.
Arguments Throw {A} e.

(** Sequencing of code that has no effect but may throw. *)
Definition andThen {A B} (c : completion A) (k : A -> completion B)
  : completion B :=
  match c with
  | Normal a => k a
  | Throw e => Throw e
  end.

(** [f is not a function] *)
Definition notAFunction (f : string) : Exn :=
  TypeError (f +:+ " is not a function").

(** State and exception monad: a computation over a world [S]. *)
Definition M (S A : Type) : Type := S -> completion A * S.

Definition ret {S A} (a : A) : M S A := fun s => (Normal a, s).
Definition throw {S A} (e : Exn) : M S A := fun s => (Throw e, s).

Definition bind {S A B} (m : M S A) (k : A -> M S B) : M S B :=
  fun s =>
    match m s with
    | (Normal a, s') => k a s'
    | (Throw e, s') => (Throw e, s')
    end.

(** [try { body } catch (err) { handler }]: the state changes made by the
    body before it threw are kept. *)
Definition try_catch {S A} (body : M S A) (handler : Exn -> M S A) : M S A :=
  fun s =>
    match body s with
    | (Normal a, s') => (Normal a, s')
    | (Throw e, s') => handler e s'
    end.

Definition get {S} : M S S := fun s => (Normal s, s).
Definition modify {S} (f : S -> S) : M S unit := fun s => (Normal tt, f s).

Notation "x <- m ;; k" := (bind m (fun x => k))
  (at level 100, m at next level, right associativity).
Notation "m ;;; k" := (bind m (fun _ => k))
  (at level 100, right associativity).

(** ** schema.ts: local generation *)

Module Schema.

(** A character kept by [/[^a-z0-9]+/]. *)
Definition is_token_char (c : ascii) : bool := Js.is_lower c || Js.is_digit c.

(** [.replace(/[^a-z0-9]+/g, "_")]: every maximal run of other characters
    becomes one underscore.  [in_run] tells that the previous character
    already belonged to the current run. *)
Fixpoint collapse_runs (in_run : bool) (s : string) : string :=
  match s with
  | EmptyString => EmptyString
  | String c s' =>
      if is_token_char c then String c (collapse_runs false s')
      else if in_run then collapse_runs true s'
      else String "_"%char (collapse_runs true s')
  end.

Definition strip_leading_underscore (s : string) : string :=
  match s with
  | String "_"%char s' => s'
  | _ => s
  end.

Fixpoint strip_trailing_underscore (s : string) : string :=
  match s with
  | EmptyString => EmptyString
  | String c EmptyString => if Ascii.eqb c "_"%char then EmptyString else s
  | String c s' => String c (strip_trailing_underscore s')
  end.

(** [toToolName]: lower case, runs collapsed, [/^_|_$/g] removed. *)
Definition toToolName (raw : string) : string :=
  strip_trailing_underscore
    (strip_leading_underscore (collapse_runs false (Js.toLowerCase raw))).

(** The description of one property in [inputsToSchema]. *)
Definition paramDescription (input : ScannedInput) : string :=
  Js.or_opt (in_overrideParamDescription input)
    (Js.or_opt (in_label input) (in_placeholder input))
  |? ("The " +:+ in_name input +:+ " field (" +:+ in_inputType input +:+ ")").

Definition paramProperty (input : ScannedInput) : SchemaProperty :=
  {| sp_type := if String.eqb (in_inputType input) "number"
                then "number" else "string";
     sp_description := paramDescription input |}.

(** [properties[name] = value] on the object literal [{}].  [properties]
    holds the own properties of the object, which are what serialisation
    reads.  The key __proto__ is the accessor inherited from
    Object.prototype: assigning an object to it replaces the prototype and
    adds no own property. *)
Definition assign (name : string) (value : SchemaProperty)
    (props : gmap string SchemaProperty) : gmap string SchemaProperty :=
  if String.eqb name "__proto__" then props else <[name := value]> props.

(** One iteration of the loop of [inputsToSchema]. *)
Definition addInput (acc : ToolInputSchema) (input : ScannedInput)
  : ToolInputSchema :=
  {| properties := assign (in_name input) (paramProperty input)
                     (properties acc);
     required := if in_required input
                 then required acc ++ [in_name input]
                 else required acc |}.

Definition emptySchema : ToolInputSchema :=
  {| properties := ∅; required := [] |}.

Definition inputsToSchema (element : ScannedElement) : ToolInputSchema :=
  match el_inputs element with
  | Some inputs => fold_left addInput inputs emptySchema
  | None => emptySchema
  end.

(** [inferFormAnnotations]: GET is read-only, DELETE destructive, every
    other verb open-world. *)
Definition inferFormAnnotations (method : option string) : ToolAnnotations :=
  let m := Js.toUpperCase (method ?? "GET") in
  if String.eqb m "GET" then
    {| readOnlyHint := Some true; destructiveHint := Some false;
       idempotentHint := None; openWorldHint := None |}
  else if String.eqb m "DELETE" then
    {| readOnlyHint := Some false; destructiveHint := Some true;
       idempotentHint := None; openWorldHint := None |}
  else
    {| readOnlyHint := Some false; destructiveHint := None;
       idempotentHint := None; openWorldHint := Some true |}.

Definition formName (element : ScannedElement) : string :=
  toToolName (el_id element |? "unknown_form").

Definition formDescription (element : ScannedElement) : string :=
  let inputCount := length (el_inputs element ?? []) in
  "Submit the " +:+ Js.dq +:+ (el_id element |? "unknown") +:+ Js.dq
    +:+ " form (" +:+ (el_method element ?? "GET") +:+ ", "
    +:+ pretty inputCount +:+ " field"
    +:+ (if Nat.eqb inputCount 1 then EmptyString else "s") +:+ ")".

Definition schemaFromForm (element : ScannedElement) : ToolSchema :=
  {| ts_name := el_overrideName element ?? formName element;
     ts_description := el_overrideDescription element ?? formDescription element;
     ts_parameters := inputsToSchema element;
     ts_selector := el_selector element;
     ts_elementType := form;
     ts_annotations :=
       Some (el_overrideAnnotations element
             ?? inferFormAnnotations (el_method element)) |}.

Definition destructiveWords : list string :=
  ["delete"; "remove"; "cancel"; "destroy"; "unsubscribe"].

Definition readOnlyWords : list string :=
  ["search"; "view"; "show"; "filter"; "browse"; "find"].

(** The text inspected by [inferButtonAnnotations]:
    [(ariaLabel || textContent || "").toLowerCase()]. *)
Definition buttonText (element : ScannedElement) : string :=
  Js.toLowerCase
    (Js.or_opt (el_ariaLabel element) (el_textContent element) |? EmptyString).

Definition inferButtonAnnotations (element : ScannedElement) : ToolAnnotations :=
  let text := buttonText element in
  if existsb (Js.includes text) destructiveWords then
    {| readOnlyHint := Some false; destructiveHint := Some true;
       idempotentHint := None; openWorldHint := None |}
  else if existsb (Js.includes text) readOnlyWords then
    {| readOnlyHint := Some true; destructiveHint := Some false;
       idempotentHint := None; openWorldHint := None |}
  else
    {| readOnlyHint := None; destructiveHint := None;
       idempotentHint := Some true; openWorldHint := None |}.

(** [ariaLabel || textContent || id || "unknown_button"]. *)
Definition buttonLabel (element : ScannedElement) : string :=
  Js.or_opt (el_ariaLabel element)
    (Js.or_opt (el_textContent element) (el_id element))
  |? "unknown_button".

Definition buttonDescription (element : ScannedElement) : string :=
  "Click the " +:+ Js.dq +:+ buttonLabel element +:+ Js.dq +:+ " button".

Definition schemaFromButton (element : ScannedElement) : ToolSchema :=
  {| ts_name := el_overrideName element ?? toToolName (buttonLabel element);
     ts_description :=
       el_overrideDescription element ?? buttonDescription element;
     ts_parameters := emptySchema;
     ts_selector := el_selector element;
     ts_elementType := button;
     ts_annotations :=
       Some (el_overrideAnnotations element
             ?? inferButtonAnnotations element) |}.

(** The body of the loop of [generateLocalSchemas]. *)
Definition localSchema (element : ScannedElement) : ToolSchema :=
  match el_type element with
  | form => schemaFromForm element
  | button => schemaFromButton element
  end.

Definition generateLocalSchemas (elements : list ScannedElement)
  : list ToolSchema :=
  fold_left (fun schemas element => (schemas ++ [localSchema element])%list)
    elements [].

(** *** Cache and remote service *)

(** What [localStorage] holds under one key. *)
Inductive StoredItem :=
  | Blank                       (* the empty text *)
  | Unparsable                  (* text from which no entry can be read *)
  | Entry (schemas : list ToolSchema) (timestamp : Z).

Inductive Storage :=
  | Undefined                   (* typeof localStorage === undefined *)
  | Blocked                     (* every access throws *)
  | Available (items : gmap string StoredItem).

(** The body of a response, as [response.json()] reads it. *)
Inductive ResponseBody :=
  | BadJson
  | Json (schemas : option (list ToolSchema)) (source : option string).

Record Response := {
  status : nat;
  body : ResponseBody
}.

(** [response.ok] *)
Definition ok (r : Response) : bool :=
  (200 <=? status r)%nat && (status r <=? 299)%nat.

Inductive RemoteResult :=
  | Unreachable                 (* fetch rejects *)
  | Responds (r : Response).

(** How the remote service answers one request: after [latency]
    milliseconds, with [result]. *)
Record Remote := {
  latency : Z;
  result : RemoteResult
}.

(** The part of the browser that the synthesizer reads and writes. *)
Record Browser := {
  localStorage : Storage;
  quota_exceeded : bool;        (* setItem throws *)
  pathname : string;            (* window.location.pathname *)
  now : Z;                      (* Date.now() *)
  requests : nat                (* requests sent to the remote service *)
}.

Definition CACHE_KEY_PREFIX : string := "__3rdeye_schemas_".
Definition CACHE_TTL_MS : Z := 5 * 60 * 1000.
Definition API_TIMEOUT_MS : Z := 15000.

Definition set_storage (st : Storage) (b : Browser) : Browser :=
  {| localStorage := st; quota_exceeded := quota_exceeded b;
     pathname := pathname b; now := now b; requests := requests b |}.

Definition advance (ms : Z) (b : Browser) : Browser :=
  {| localStorage := localStorage b; quota_exceeded := quota_exceeded b;
     pathname := pathname b; now := (now b + ms)%Z; requests := requests b |}.

Definition count_request (b : Browser) : Browser :=
  {| localStorage := localStorage b; quota_exceeded := quota_exceeded b;
     pathname := pathname b; now := now b; requests := S (requests b) |}.

Definition cacheKey : M Browser string :=
  b <- get ;; ret (CACHE_KEY_PREFIX +:+ pathname b).

(** [localStorage.getItem(key)] *)
Definition getItem (key : string) : M Browser (option StoredItem) :=
  b <- get ;;
  match localStorage b with
  | Available items => ret (items !! key)
  | _ => throw (Error "localStorage is not accessible")
  end.

(** [localStorage.removeItem(key)] *)
Definition removeItem (key : string) : M Browser unit :=
  b <- get ;;
  match localStorage b with
  | Available items => modify (set_storage (Available (delete key items)))
  | _ => throw (Error "localStorage is not accessible")
  end.

(** [localStorage.setItem(key, JSON.stringify(...))] *)
Definition setItem (key : string) (item : StoredItem) : M Browser unit :=
  b <- get ;;
  match localStorage b with
  | Available items =>
      if quota_exceeded b then throw (Error "QuotaExceededError")
      else modify (set_storage (Available (<[key := item]> items)))
  | _ => throw (Error "localStorage is not accessible")
  end.

Definition storage_defined (b : Browser) : bool :=
  match localStorage b with
  | Undefined => false
  | _ => true
  end.

(** [getCachedSchemas] *)
Definition getCachedSchemas : M Browser (option (list ToolSchema)) :=
  try_catch
    (b <- get ;;
     if negb (storage_defined b) then ret None else
     key <- cacheKey ;;
     raw <- getItem key ;;
     match raw with
     | None | Some Blank => ret None
     | Some Unparsable => throw (SyntaxError "JSON.parse")
     | Some (Entry schemas timestamp) =>
         b <- get ;;
         if (CACHE_TTL_MS <? now b - timestamp)%Z
         then removeItem key ;;; ret None
         else ret (Some schemas)
     end)
    (fun _ => ret None).

(** [cacheSchemas] *)
Definition cacheSchemas (schemas : list ToolSchema) : M Browser unit :=
  try_catch
    (b <- get ;;
     if negb (storage_defined b) then ret tt else
     key <- cacheKey ;;
     b <- get ;;
     setItem key (Entry schemas (now b)))
    (fun _ => ret tt).

(** [await fetch(...)] under the abort timer of 15 seconds: the request is
    counted, then either the timer fires first and [fetch] rejects with an
    AbortError, or the remote answers after its latency. *)
Definition fetch (remote : Remote) : M Browser Response :=
  modify count_request ;;;
  if (API_TIMEOUT_MS <=? latency remote)%Z then
    modify (advance API_TIMEOUT_MS) ;;; throw AbortError
  else
    modify (advance (latency remote)) ;;;
    match result remote with
    | Unreachable => throw (TypeError "Failed to fetch")
    | Responds r => ret r
    end.

(** [await response.json()] *)
Definition json (r : Response)
  : M Browser (option (list ToolSchema) * option string) :=
  match body r with
  | BadJson => throw (SyntaxError "response.json")
  | Json schemas source => ret (schemas, source)
  end.

(** [elements.every((e) => e.overrideName && e.overrideDescription)] *)
Definition allOverridden (elements : list ScannedElement) : bool :=
  forallb (fun e => Js.truthy (el_overrideName e)
                    && Js.truthy (el_overrideDescription e)) elements.

(** Step 3 of [fetchSchemas]: [Some schemas] when the function returns
    from inside the try block, [None] when control reaches step 4. *)
Definition tryApi (endpoint : option string) (remote : Remote)
  : M Browser (option (list ToolSchema)) :=
  if Js.truthy endpoint then
    try_catch
      (response <- fetch remote ;;
       if ok response then
         data <- json response ;;
         let schemas := fst data ?? [] in
         if (0 <? length schemas)%nat then
           cacheSchemas schemas ;;; ret (Some schemas)
         else ret None
       else ret None)
      (fun _ => ret None)
  else ret None.

(** [fetchSchemas(elements, endpoint, skipCache)]; [remote] is how the
    remote service would answer a request made by this call. *)
Definition fetchSchemas (elements : list ScannedElement)
    (endpoint : option string) (skipCache : bool) (remote : Remote)
  : M Browser (list ToolSchema) :=
  cached <- (if skipCache then ret None else getCachedSchemas) ;;
  match cached with
  | Some schemas => ret schemas
  | None =>
      if allOverridden elements then ret (generateLocalSchemas elements)
      else
        fromApi <- tryApi endpoint remote ;;
        match fromApi with
        | Some schemas => ret schemas
        | None => ret (generateLocalSchemas elements)
        end
  end.

End Schema.

(** ** telemetry.ts and registrar.ts *)

Module Registrar.

(** The telemetry events the registrar emits, with their data. *)
Inductive Event :=
  | TOOL_ATTEMPT (toolName : string) (args : list (string * string))
  | USER_CONFIRMATION (toolName : string) (allowed : bool)
  | TOOL_SUCCESS (toolName : string) (duration : Z)
  | TOOL_ERROR (toolName : string) (error : string) (duration : Z)
  | TOOL_REGISTERED (toolName : string).

(** What the document does to an element found by [querySelector] when
    the handler fills and submits it, or clicks it. *)
Record LiveElement := {
  interaction_throws : option Exn
}.

(** [navigator.modelContext]: the host decides, from the tools it holds,
    whether [registerTool] accepts a definition or throws. *)
Record Host := {
  accepts : list ToolSchema -> ToolSchema -> bool;
  tools : list ToolSchema
}.

(** The client handed to an execute callback. *)
Inductive Client :=
  | NoInteraction     (* no client, or no requestUserInteraction *)
  | Answers (result : bool) (elapsed : Z)
                      (* resolves; [result] tells whether it is [true] *)
  | Rejects (e : Exn) (elapsed : Z).

Record Page := {
  clock : Z;                               (* Date.now() *)
  dom_ms : Z;                              (* time taken by phase C *)
  document : string -> completion (option LiveElement);
                                           (* document.querySelector *)
  modelContext : option Host;
  registeredTools : gmap string string;
  telemetry : list Event                   (* events passed to trackEvent *)
}.

Definition set_clock (t : Z) (p : Page) : Page :=
  {| clock := t; dom_ms := dom_ms p; document := document p;
     modelContext := modelContext p; registeredTools := registeredTools p;
     telemetry := telemetry p |}.

Definition set_modelContext (h : option Host) (p : Page) : Page :=
  {| clock := clock p; dom_ms := dom_ms p; document := document p;
     modelContext := h; registeredTools := registeredTools p;
     telemetry := telemetry p |}.

Definition set_registeredTools (m : gmap string string) (p : Page) : Page :=
  {| clock := clock p; dom_ms := dom_ms p; document := document p;
     modelContext := modelContext p; registeredTools := m;
     telemetry := telemetry p |}.

Definition set_telemetry (l : list Event) (p : Page) : Page :=
  {| clock := clock p; dom_ms := dom_ms p; document := document p;
     modelContext := modelContext p; registeredTools := registeredTools p;
     telemetry := l |}.

(** [trackEvent]: never throws. *)
Definition trackEvent (e : Event) : M Page unit :=
  modify (fun p => set_telemetry (telemetry p ++ [e])%list p).

Definition Date_now : M Page Z := p <- get ;; ret (clock p).

Definition elapse (ms : Z) : M Page unit :=
  modify (fun p => set_clock (clock p + ms)%Z p).

(** [!schema.annotations?.destructiveHint] is false. *)
Definition isDestructive (schema : ToolSchema) : bool :=
  match ts_annotations schema with
  | Some a => match destructiveHint a with Some true => true | _ => false end
  | None => false
  end.

(** [await client.requestUserInteraction(...)], and whether the result
    is [true]. *)
Definition requestUserInteraction (client : Client) : M Page bool :=
  match client with
  | NoInteraction => throw (TypeError "requestUserInteraction")
  | Answers result elapsed => elapse elapsed ;;; ret result
  | Rejects e elapsed => elapse elapsed ;;; throw e
  end.

(** [maybeConfirmDestructive] *)
Definition maybeConfirmDestructive (schema : ToolSchema) (client : Client)
  : M Page bool :=
  if negb (isDestructive schema) then ret true else
  match client with
  | NoInteraction => ret true
  | _ =>
      try_catch
        (allowed <- requestUserInteraction client ;;
         trackEvent (USER_CONFIRMATION (ts_name schema) allowed) ;;;
         ret allowed)
        (fun _ => ret true)
  end.

(** The value an execute callback resolves with. *)
Inductive ExecResult :=
  | Declined (toolName : string) (reason : string)   (* success: false *)
  | Succeeded (toolName : string) (duration : Z).    (* success: true *)

(** [executeForm] or [executeButton] on the element found. *)
Definition interact (el : LiveElement) : M Page unit :=
  match interaction_throws el with
  | Some e => throw e
  | None => ret tt
  end.

(** [err instanceof Error ? err.message : "Unknown error"] *)
Definition errorMessage (err : Exn) : string :=
  match err with
  | Error message | TypeError message | SyntaxError message => message
  | AbortError => "The operation was aborted."
  | Thrown _ => "Unknown error"
  end.

Definition notFound (selector : string) : Exn :=
  Error ("Element not found for selector: " +:+ selector).

(** [document.querySelector(selector)]; phase C takes [dom_ms]. *)
Definition querySelector (selector : string)
  : M Page (option LiveElement) :=
  p <- get ;;
  elapse (dom_ms p) ;;;
  match document p selector with
  | Normal el => ret el
  | Throw e => throw e
  end.

(** The wrapped execute callback that [registerTools] attaches to
    [schema]. *)
Definition execute (schema : ToolSchema) (args : list (string * string))
    (client : Client) : M Page ExecResult :=
  startTime <- Date_now ;;
  trackEvent (TOOL_ATTEMPT (ts_name schema) args) ;;;
  try_catch
    (allowed <- maybeConfirmDestructive schema client ;;
     if negb allowed then
       ret (Declined (ts_name schema) "User denied destructive action.")
     else
       el <- querySelector (ts_selector schema) ;;
       match el with
       | None => throw (notFound (ts_selector schema))
       | Some el =>
           interact el ;;;
           t <- Date_now ;;
           let duration := (t - startTime)%Z in
           trackEvent (TOOL_SUCCESS (ts_name schema) duration) ;;;
           ret (Succeeded (ts_name schema) duration)
       end)
    (fun err =>
       t <- Date_now ;;
       let duration := (t - startTime)%Z in
       trackEvent (TOOL_ERROR (ts_name schema) (errorMessage err) duration) ;;;
       throw err).

(** [navigator.modelContext.registerTool(...)]: throws when there is no
    host or when the host refuses the definition. *)
Definition registerTool (schema : ToolSchema) : M Page unit :=
  p <- get ;;
  match modelContext p with
  | None => throw (TypeError "navigator.modelContext is undefined")
  | Some h =>
      if accepts h (tools h) schema then
        modify (set_modelContext
                  (Some {| accepts := accepts h;
                           tools := (tools h ++ [schema])%list |}))
      else throw (Error "registerTool")
  end.

(** [registeredTools.has(name)] *)
Definition has (name : string) (p : Page) : bool :=
  bool_decide (is_Some (registeredTools p !! name)).

(** The body of the loop of [registerTools]. *)
Definition registerOne (schema : ToolSchema) : M Page unit :=
  p <- get ;;
  if has (ts_name schema) p then ret tt else
  try_catch
    (registerTool schema ;;;
     modify (fun p => set_registeredTools
               (<[ts_name schema := ts_selector schema]> (registeredTools p)) p) ;;;
     trackEvent (TOOL_REGISTERED (ts_name schema)))
    (fun _ => ret tt).

Fixpoint for_each {S A} (body : A -> M S unit) (l : list A) : M S unit :=
  match l with
  | [] => ret tt
  | a :: l' => body a ;;; for_each body l'
  end.

(** [registerTools] *)
Definition registerTools (schemas : list ToolSchema) : M Page unit :=
  p <- get ;;
  match modelContext p with
  | None => ret tt
  | Some _ => for_each registerOne schemas
  end.

End Registrar.

(** ** scanner.ts *)

Module Scanner.

(** *** The document

    A node is a text node or an element with its tag (the lower-case
    local name, in ASCII), its attributes and its children. *)
#[local] Set Warnings "-register-all".

Inductive Node :=
  | Text (data : string)
  | Element (tag : string) (attrs : list (string * string))
            (children : list Node).

(** An element of the document together with the way up to the root:
    each step gives the parent and the position of the child in it. *)
Record Located := {
  node : Node;
  chain : list (Node * nat)
}.

(** Besides the tree, a document gives what the tree does not decide.
    - [resolveUrl]: [form.action] for the action attribute.
    - [named f name]: the value of [f[name]] when the form [f] exposes a
      control under [name] (a control of the form with that name or id, or
      one the form was asked for under that name earlier); such a value
      comes before the property of the same name that every element has.
    - [clobbered name]: [document[name]] is an element of the page (an
      embed, form, iframe, img or object element of that name) instead of
      the method of the document.
    - [querySelector text]: the outcome of [document.querySelector(text)]
      for a selector text made from an id that is not plain (see
      [plainId]): the text may be no selector at all, or another selector
      than the one meant.
    - [shadowedSelector f]: the outcome of [buildSelector(f)] for a form
      [f] when some form exposes a control under tagName, parentElement or
      children, the properties that [buildSelector] walks the tree with;
      the walk then leaves the tree and is not followed here. *)
Record Document := {
  root : Node;
  resolveUrl : option string -> string;
  named : Located -> string -> option DomObject;
  clobbered : string -> bool;
  querySelector : string -> completion (option Located);
  shadowedSelector : Located -> completion string
}.

(** A document in which no form control and no named element hides a
    property, and in which a selector text that cannot be read is a syntax
    error. *)
Definition plainDocument (root : Node) (resolveUrl : option string -> string)
  : Document :=
  {| root := root;
     resolveUrl := resolveUrl;
     named := fun _ _ => None;
     clobbered := fun _ => false;
     querySelector := fun text =>
       Throw (SyntaxError (text +:+ " is not a valid selector"));
     shadowedSelector := fun _ => Normal EmptyString |}.

Definition tagName (n : Node) : string :=
  match n with
  | Text _ => EmptyString
  | Element tag _ _ => tag
  end.

Definition attributes (n : Node) : list (string * string) :=
  match n with
  | Text _ => []
  | Element _ attrs _ => attrs
  end.

Definition childNodes (n : Node) : list Node :=
  match n with
  | Text _ => []
  | Element _ _ children => children
  end.

Definition isElement (n : Node) : bool :=
  match n with
  | Text _ => false
  | Element _ _ _ => true
  end.

Fixpoint assoc (name : string) (attrs : list (string * string))
  : option string :=
  match attrs with
  | [] => None
  | (k, v) :: rest => if String.eqb k name then Some v else assoc name rest
  end.

(** [el.getAttribute(name) ?? undefined] *)
Definition getAttribute (name : string) (n : Node) : option string :=
  assoc name (attributes n).

Definition hasAttribute (name : string) (n : Node) : bool :=
  match getAttribute name n with
  | Some _ => true
  | None => false
  end.

(** A reflected string property such as [el.id]: the attribute, or the
    empty string. *)
Definition reflected (name : string) (n : Node) : string :=
  getAttribute name n ?? EmptyString.

Definition id (n : Node) : string := reflected "id" n.

(** [node.textContent] *)
Fixpoint textContent (n : Node) : string :=
  match n with
  | Text data => data
  | Element _ _ children =>
      fold_right (fun c acc => textContent c +:+ acc) EmptyString children
  end.

(** The element and its descendant elements in document order. *)
Fixpoint elementsFrom (up : list (Node * nat)) (n : Node) : list Located :=
  match n with
  | Text _ => []
  | Element _ _ children =>
      {| node := n; chain := up |} ::
      (fix walk (i : nat) (l : list Node) : list Located :=
         match l with
         | [] => []
         | c :: l' => (elementsFrom ((n, i) :: up) c ++ walk (S i) l')%list
         end) 0%nat children
  end.

(** [document.querySelectorAll(sel)], for a selector given as a test. *)
Definition querySelectorAll (doc : Document) (sel : Located -> bool)
  : list Located :=
  filter (fun el => sel el = true) (elementsFrom [] (root doc)).

(** [el.querySelectorAll(sel)]: proper descendants only. *)
Definition descendants (el : Located) (sel : Located -> bool)
  : list Located :=
  filter (fun d => sel d = true) (tail (elementsFrom (chain el) (node el))).

(** [el.closest(sel)]: the element itself or its nearest ancestor. *)
Fixpoint closestUp (sel : Node -> bool) (up : list (Node * nat))
  : option Node :=
  match up with
  | [] => None
  | (parent, _) :: up' => if sel parent then Some parent else closestUp sel up'
  end.

Definition closest (sel : Node -> bool) (el : Located) : option Node :=
  if sel (node el) then Some (node el) else closestUp sel (chain el).

Definition hasTag (tag : string) (n : Node) : bool :=
  String.eqb (tagName n) tag.

(** [[type=v]]: the type attribute is compared without regard to case. *)
Definition typeAttrIs (v : string) (n : Node) : bool :=
  match getAttribute "type" n with
  | Some t => String.eqb (Js.ascii_lower t) v
  | None => false
  end.

(** *** Helpers of the scanner *)

(** The number of children before position [pos] that are elements with
    the given tag. *)
Definition sameTagBefore (tag : string) (pos : nat) (parent : Node) : nat :=
  length (filter (fun s => hasTag tag s = true)
            (filter (fun s => isElement s = true)
               (take pos (childNodes parent)))).

Definition sameTagCount (tag : string) (parent : Node) : nat :=
  length (filter (fun s => hasTag tag s = true)
            (filter (fun s => isElement s = true) (childNodes parent))).

(** [buildSelector] *)
Fixpoint buildSelector (n : Node) (up : list (Node * nat)) : string :=
  if negb (Js.is_empty (id n)) then "#" +:+ id n else
  let tag := tagName n in
  match up with
  | [] => tag
  | (parent, pos) :: up' =>
      if Nat.eqb (sameTagCount tag parent) 1 then
        buildSelector parent up' +:+ " > " +:+ tag
      else
        let idx := S (sameTagBefore tag pos parent) in
        buildSelector parent up' +:+ " > " +:+ tag
          +:+ ":nth-of-type(" +:+ pretty idx +:+ ")"
  end.

(** [f[name]] when it is not the property of the element itself: only a
    form has named properties. *)
Definition property (doc : Document) (el : Located) (name : string)
  : option DomObject :=
  if hasTag "form" (node el) then named doc el name else None.

Definition exposes (doc : Document) (el : Located) (name : string) : bool :=
  match property doc el name with
  | Some _ => true
  | None => false
  end.

(** [buildSelector] on a form: [el.id] is the control that the form, or a
    form around it, exposes under id when there is one. *)
Fixpoint selectorOf (doc : Document) (n : Node) (up : list (Node * nat))
  : string :=
  match property doc {| node := n; chain := up |} "id" with
  | Some control => "#" +:+ shown control
  | None =>
      if negb (Js.is_empty (id n)) then "#" +:+ id n else
      let tag := tagName n in
      match up with
      | [] => tag
      | (parent, pos) :: up' =>
          if Nat.eqb (sameTagCount tag parent) 1 then
            selectorOf doc parent up' +:+ " > " +:+ tag
          else
            let idx := S (sameTagBefore tag pos parent) in
            selectorOf doc parent up' +:+ " > " +:+ tag
              +:+ ":nth-of-type(" +:+ pretty idx +:+ ")"
      end
  end.

(** A byte that does not stand for itself between the double quotes of a
    selector: NUL, line feed, form feed, carriage return, the double quote
    and the backslash. *)
Definition breaksQuotes (c : ascii) : bool :=
  bool_decide (Js.nat_of_char c ∈ [0; 10; 12; 13; 34; 92]%nat).

Fixpoint plainId (s : string) : bool :=
  match s with
  | EmptyString => true
  | String c s' => negb (breaksQuotes c) && plainId s'
  end.

(** [document.querySelector(`label[for="${id}"]`)]: for a plain id, the
    first label whose for attribute is the id. *)
Definition labelFor (doc : Document) (i : string)
  : completion (option Located) :=
  if clobbered doc "querySelector"
  then Throw (notAFunction "document.querySelector") else
  if plainId i then
    Normal (head (querySelectorAll doc (fun l =>
      hasTag "label" (node l) &&
      bool_decide (getAttribute "for" (node l) = Some i))))
  else querySelector doc ("label[for=" +:+ Js.dq +:+ i +:+ Js.dq +:+ "]").

(** [findLabelText]: a label that names the input, else a label around
    it. *)
Definition findLabelText (doc : Document) (input : Located)
  : completion (option string) :=
  andThen
    (if Js.is_empty (id (node input)) then Normal None
     else labelFor doc (id (node input)))
    (fun byFor =>
       match byFor with
       | Some label =>
           if exposes doc label "textContent"
           then Throw (notAFunction "label.textContent.trim")
           else Normal (Some (Js.trim (textContent (node label))))
       | None =>
           match closest (hasTag "label") input with
           | Some parent => Normal (Some (Js.trim (textContent parent)))
           | None => Normal None
           end
       end).

(** [STANDARD_SELECTORS] without the form: what [scanButtons] asks for. *)
Definition isButtonLike (el : Located) : bool :=
  let n := node el in
  hasTag "button" n
  || bool_decide (getAttribute "role" n = Some "button")
  || (hasTag "input" n && (typeAttrIs "button" n || typeAttrIs "submit" n)).

Definition matchesStandard (el : Located) : bool :=
  hasTag "form" (node el) || isButtonLike el.

(** [isIgnored] *)
Definition isIgnored (el : Located) : bool :=
  hasAttribute "data-tool-ignore" (node el).

Record Overrides := {
  overrideName : option string;
  overrideDescription : option string;
  overrideAnnotations : option ToolAnnotations
}.

Definition flag (present : bool) : option bool :=
  if present then Some true else None.

(** [readToolAttributes] *)
Definition readToolAttributes (el : Located) : Overrides :=
  let n := node el in
  let hasReadOnly := hasAttribute "data-tool-readonly" n in
  let hasDestructive := hasAttribute "data-tool-destructive" n in
  let hasIdempotent := hasAttribute "data-tool-idempotent" n in
  let hasOpenWorld := hasAttribute "data-tool-open-world" n in
  {| overrideName := getAttribute "data-tool-name" n;
     overrideDescription := getAttribute "data-tool-description" n;
     overrideAnnotations :=
       if hasReadOnly || hasDestructive || hasIdempotent || hasOpenWorld
       then Some {| readOnlyHint := flag hasReadOnly;
                    destructiveHint := flag hasDestructive;
                    idempotentHint := flag hasIdempotent;
                    openWorldHint := flag hasOpenWorld |}
       else None |}.

(** *** The three passes *)

Definition inputTypes : list string :=
  ["hidden"; "text"; "search"; "tel"; "url"; "email"; "password"; "date";
   "month"; "week"; "time"; "datetime-local"; "number"; "range"; "color";
   "checkbox"; "radio"; "file"; "submit"; "image"; "reset"; "button"].

(** [input.type] of an input element: a known type in lower case, else
    text. *)
Definition inputTypeOf (n : Node) : string :=
  match getAttribute "type" n with
  | Some t =>
      if bool_decide (Js.ascii_lower t ∈ inputTypes)
      then Js.ascii_lower t else "text"
  | None => "text"
  end.

Definition skippedTypes : list string :=
  ["hidden"; "submit"; "button"; "reset"; "image"].

(** [list.forEach(callback)] with a callback that pushes at most one
    result and may throw: the results in order, or the first exception. *)
Fixpoint forEach {A B : Type} (callback : A -> completion (option B))
    (l : list A) : completion (list B) :=
  match l with
  | [] => Normal []
  | a :: rest =>
      match callback a with
      | Throw e => Throw e
      | Normal pushed =>
          match forEach callback rest with
          | Throw e => Throw e
          | Normal results => Normal (option_list pushed ++ results)%list
          end
      end
  end.

(** The callback of [inputEls.forEach]: [None] when it returns early. *)
Definition scanInput (doc : Document) (input : Located)
  : completion (option ScannedInput) :=
  let n := node input in
  let isInput := hasTag "input" n in
  if isInput && bool_decide (inputTypeOf n ∈ skippedTypes)
  then Normal None else
  let name := Js.or_opt (Some (reflected "name" n)) (Some (id n))
              |? EmptyString in
  if Js.is_empty name then Normal None else
  andThen (findLabelText doc input) (fun label =>
    Normal (Some
      {| in_name := name;
         in_inputType := if isInput then inputTypeOf n else tagName n;
         in_required := hasAttribute "required" n;
         in_placeholder :=
           if isInput then Js.non_empty (reflected "placeholder" n)
           else None;
         in_label := label;
         in_overrideParamDescription := getAttribute "data-tool-param" n |})).

Definition isField (el : Located) : bool :=
  hasTag "input" (node el) || hasTag "select" (node el)
  || hasTag "textarea" (node el).

(** [form.method]: get, post or dialog, get by default. *)
Definition formMethod (n : Node) : string :=
  match getAttribute "method" n with
  | Some m =>
      if bool_decide (Js.ascii_lower m ∈ ["get"; "post"; "dialog"])
      then Js.ascii_lower m else "get"
  | None => "get"
  end.

Definition formCandidates (doc : Document) : list Located :=
  querySelectorAll doc (fun el => hasTag "form" (node el)).

Definition buttonCandidates (doc : Document) : list Located :=
  querySelectorAll doc isButtonLike.

Definition annotatedCandidates (doc : Document) : list Located :=
  querySelectorAll doc (fun el => hasAttribute "data-tool-name" (node el)).

(** Some form exposes a control under a property that [buildSelector]
    walks the tree with. *)
Definition selectorShadowed (doc : Document) : bool :=
  existsb (fun f => exposes doc f "tagName" || exposes doc f "parentElement"
                    || exposes doc f "children")
    (formCandidates doc).

(** [buildSelector(form)] *)
Definition formSelector (doc : Document) (el : Located) : completion string :=
  if selectorShadowed doc then shadowedSelector doc el
  else Normal (selectorOf doc (node el) (chain el)).

(** The callback of [forms.forEach] in [scanForms].  A control named
    hasAttribute, getAttribute, querySelectorAll or method stands where
    the code calls a method; controls named id and action are what the
    record gets as its id and action. *)
Definition scanForm (doc : Document) (el : Located)
  : completion (option Emitted) :=
  if exposes doc el "hasAttribute"
  then Throw (notAFunction "el.hasAttribute") else
  if isIgnored el then Normal None else
  if exposes doc el "getAttribute"
  then Throw (notAFunction "el.getAttribute") else
  let overrides := readToolAttributes el in
  if exposes doc el "querySelectorAll"
  then Throw (notAFunction "form.querySelectorAll") else
  andThen (forEach (scanInput doc) (descendants el isField)) (fun inputs =>
    let idObject := property doc el "id" in
    andThen (formSelector doc el) (fun selector =>
    let actionObject := property doc el "action" in
    if exposes doc el "method"
    then Throw (notAFunction "(form.method || GET).toUpperCase") else
    Normal (Some
      {| record :=
           {| el_type := form;
              el_id := match idObject with
                       | Some _ => None
                       | None => Js.non_empty (id (node el))
                       end;
              el_selector := selector;
              el_action :=
                match actionObject with
                | Some _ => None
                | None =>
                    Js.non_empty
                      (resolveUrl doc (getAttribute "action" (node el)))
                end;
              el_method :=
                Some (Js.toUpperCase (Some (formMethod (node el)) |? "GET"));
              el_inputs := Some inputs;
              el_ariaLabel := None;
              el_textContent := None;
              el_overrideName := overrideName overrides;
              el_overrideDescription := overrideDescription overrides;
              el_overrideAnnotations := overrideAnnotations overrides |};
         idObject := idObject;
         actionObject := actionObject |}))).

(** The record pushed by [scanButtons] and [scanAnnotated].  The element
    is outside every form, so that [buildSelector] meets no form on its way
    up. *)
Definition buttonRecord (el : Located) (overrides : Overrides)
  : ScannedElement :=
  {| el_type := button;
     el_id := Js.non_empty (id (node el));
     el_selector := buildSelector (node el) (chain el);
     el_action := None;
     el_method := None;
     el_inputs := None;
     el_ariaLabel := getAttribute "aria-label" (node el);
     el_textContent := Js.non_empty (Js.trim (textContent (node el)));
     el_overrideName := overrideName overrides;
     el_overrideDescription := overrideDescription overrides;
     el_overrideAnnotations := overrideAnnotations overrides |}.

(** [el.closest("form")] is not null. *)
Definition insideForm (el : Located) : bool :=
  match closest (hasTag "form") el with
  | Some _ => true
  | None => false
  end.

(** The callback of [candidates.forEach] in [scanButtons].  A candidate
    may be a form (with the button role); the controls it exposes then
    stand where the code reads its properties. *)
Definition scanButton (doc : Document) (el : Located)
  : completion (option ScannedElement) :=
  if exposes doc el "hasAttribute"
  then Throw (notAFunction "el.hasAttribute") else
  if isIgnored el then Normal None else
  if exposes doc el "getAttribute"
  then Throw (notAFunction "el.getAttribute") else
  let overrides := readToolAttributes el in
  let ariaLabel := getAttribute "aria-label" (node el) in
  if exposes doc el "textContent"
  then Throw (notAFunction "el.textContent.trim") else
  let textContent := Js.non_empty (Js.trim (textContent (node el))) in
  let hasId := exposes doc el "id" || Js.truthy (Js.non_empty (id (node el))) in
  if negb (Js.truthy (overrideName overrides)) && negb (Js.truthy ariaLabel)
     && negb hasId && negb (Js.truthy textContent)
  then Normal None else
  if exposes doc el "closest"
  then Throw (notAFunction "el.closest") else
  if insideForm el then Normal None else
  Normal (Some (buttonRecord el overrides)).

(** The callback of [candidates.forEach] in [scanAnnotated]. *)
Definition scanAnnotatedElement (doc : Document) (el : Located)
  : completion (option ScannedElement) :=
  if exposes doc el "hasAttribute"
  then Throw (notAFunction "el.hasAttribute") else
  if isIgnored el then Normal None else
  if exposes doc el "matches"
  then Throw (notAFunction "el.matches") else
  if matchesStandard el || insideForm el then Normal None else
  Normal (Some (buttonRecord el (readToolAttributes el))).

(** A pass begins with [document.querySelectorAll(...)]. *)
Definition pass {A B : Type} (doc : Document)
    (callback : A -> completion (option B)) (candidates : list A)
  : completion (list B) :=
  if clobbered doc "querySelectorAll"
  then Throw (notAFunction "document.querySelectorAll")
  else forEach callback candidates.

Definition scanForms (doc : Document) : completion (list Emitted) :=
  pass doc (scanForm doc) (formCandidates doc).

Definition scanButtons (doc : Document) : completion (list ScannedElement) :=
  pass doc (scanButton doc) (buttonCandidates doc).

Definition scanAnnotated (doc : Document)
  : completion (list ScannedElement) :=
  pass doc (scanAnnotatedElement doc) (annotatedCandidates doc).

(** [scanDOM] *)
Definition scanDOM (doc : Document) : completion (list Emitted) :=
  andThen (scanForms doc) (fun forms =>
  andThen (scanButtons doc) (fun buttons =>
  andThen (scanAnnotated doc) (fun annotated =>
  Normal (forms ++ map typed buttons ++ map typed annotated)%list))).

(** *** Records with their origin

    [traced] runs a pass keeping, with each record, the element it comes
    from.  A pass that throws returns nothing. *)
Definition tracing {A B : Type} (callback : A -> completion (option B))
    (a : A) : completion (option (A * B)) :=
  andThen (callback a) (fun pushed => Normal (pair a <$> pushed)).

Definition completed {A : Type} (c : completion (list A)) : list A :=
  match c with
  | Normal l => l
  | Throw _ => []
  end.

Definition traced {B : Type} (doc : Document)
    (callback : Located -> completion (option B))
    (candidates : list Located) : list (Located * B) :=
  completed (pass doc (tracing callback) candidates).

Definition tracedForms (doc : Document) : list (Located * ScannedElement) :=
  map (fun p => (p.1, record p.2))
    (traced doc (scanForm doc) (formCandidates doc)).

Definition tracedButtons (doc : Document) : list (Located * ScannedElement) :=
  traced doc (scanButton doc) (buttonCandidates doc).

Definition tracedAnnotated (doc : Document)
  : list (Located * ScannedElement) :=
  traced doc (scanAnnotatedElement doc) (annotatedCandidates doc).

(** The records of a [scanDOM] that returns, with the elements they come
    from. *)
Definition tracedDOM (doc : Document) : list (Located * ScannedElement) :=
  match scanDOM doc with
  | Normal _ =>
      (tracedForms doc ++ tracedButtons doc ++ tracedAnnotated doc)%list
  | Throw _ => []
  end.

End Scanner.

(** ** watcher.ts: the debounced trigger *)

Module Watcher.

Inductive Reason := mutation | navigation.

(** A pending [setTimeout(() => handleDOMChange(reason), ...)]. *)
Record Timer := {
  timer_id : positive;
  due : Z;
  reason : Reason
}.

(** A [MutationRecord], by the lengths of its two node lists. *)
Record MutationRecord := {
  addedNodes : nat;
  removedNodes : nat
}.

(** What reaches the watcher from the page. *)
Inductive Signal :=
  | Mutations (records : list MutationRecord)  (* the observer callback *)
  | Navigation (href : string).   (* popstate or hashchange at this URL *)

(** The window's timers and clock, and the module state of watcher.ts.
    [reconciliations] records every run of [handleDOMChange] past its
    guard, with the time it started. *)
Record Window := {
  time : Z;
  timers : list Timer;
  next_id : positive;
  observer : bool;                      (* observer !== null *)
  debounceTimer : option positive;
  currentUrl : string;
  config : bool;                        (* config !== null *)
  reconciliations : list (Reason * Z)
}.

Definition DEBOUNCE_MS : Z := 300.

Definition set_timers (ts : list Timer) (w : Window) : Window :=
  {| time := time w; timers := ts; next_id := next_id w;
     observer := observer w; debounceTimer := debounceTimer w;
     currentUrl := currentUrl w; config := config w;
     reconciliations := reconciliations w |}.

(** [clearTimeout(id)] *)
Definition clearTimeout (id : positive) (w : Window) : Window :=
  set_timers (filter (fun t => timer_id t ≠ id) (timers w)) w.

(** [setTimeout(() => handleDOMChange(reason), ms)]: the new timer and
    its id. *)
Definition setTimeout (r : Reason) (ms : Z) (w : Window)
  : positive * Window :=
  (next_id w,
   {| time := time w;
      timers := (timers w ++ [{| timer_id := next_id w;
                                 due := (time w + ms)%Z;
                                 reason := r |}])%list;
      next_id := Pos.succ (next_id w);
      observer := observer w; debounceTimer := debounceTimer w;
      currentUrl := currentUrl w; config := config w;
      reconciliations := reconciliations w |}).

Definition set_debounceTimer (d : option positive) (w : Window) : Window :=
  {| time := time w; timers := timers w; next_id := next_id w;
     observer := observer w; debounceTimer := d;
     currentUrl := currentUrl w; config := config w;
     reconciliations := reconciliations w |}.

Definition set_currentUrl (u : string) (w : Window) : Window :=
  {| time := time w; timers := timers w; next_id := next_id w;
     observer := observer w; debounceTimer := debounceTimer w;
     currentUrl := u; config := config w;
     reconciliations := reconciliations w |}.

(** [handleDOMChange(reason)]: nothing without a config; otherwise one
    reconciliation starts. *)
Definition handleDOMChange (r : Reason) (w : Window) : Window :=
  if negb (config w) then w else
  {| time := time w; timers := timers w; next_id := next_id w;
     observer := observer w; debounceTimer := debounceTimer w;
     currentUrl := currentUrl w; config := config w;
     reconciliations := (reconciliations w ++ [(r, time w)])%list |}.

(** [debouncedRescan] *)
Definition debouncedRescan (r : Reason) (w : Window) : Window :=
  let w1 := match debounceTimer w with
            | Some id => clearTimeout id w
            | None => w
            end in
  let (id, w2) := setTimeout r DEBOUNCE_MS w1 in
  set_debounceTimer (Some id) w2.

(** [handleNavigation], with [window.location.href] at the event. *)
Definition handleNavigation (href : string) (w : Window) : Window :=
  if String.eqb href (currentUrl w) then w
  else debouncedRescan navigation (set_currentUrl href w).

(** The callback given to [MutationObserver]. *)
Definition observerCallback (mutations : list MutationRecord) (w : Window)
  : Window :=
  let hasRelevantChange :=
    existsb (fun m => (0 <? addedNodes m)%nat || (0 <? removedNodes m)%nat)
      mutations in
  if hasRelevantChange then debouncedRescan mutation w else w.

(** [startWatching], with [window.location.href] at the call. *)
Definition startWatching (href : string) (w : Window) : Window :=
  if observer w then w else
  {| time := time w; timers := timers w; next_id := next_id w;
     observer := true; debounceTimer := debounceTimer w;
     currentUrl := href; config := true;
     reconciliations := reconciliations w |}.

(** [stopWatching] *)
Definition stopWatching (w : Window) : Window :=
  let w1 := match debounceTimer w with
            | Some id => set_debounceTimer None (clearTimeout id w)
            | None => w
            end in
  {| time := time w1; timers := timers w1; next_id := next_id w1;
     observer := false; debounceTimer := debounceTimer w1;
     currentUrl := currentUrl w1; config := false;
     reconciliations := reconciliations w1 |}.

(** *** The event loop *)

(** A signal reaches the watcher only while its observer and listeners
    are installed. *)
Definition deliver (s : Signal) (w : Window) : Window :=
  if negb (observer w) then w else
  match s with
  | Mutations records => observerCallback records w
  | Navigation href => handleNavigation href w
  end.

Definition set_time (t : Z) (w : Window) : Window :=
  {| time := t; timers := timers w; next_id := next_id w;
     observer := observer w; debounceTimer := debounceTimer w;
     currentUrl := currentUrl w; config := config w;
     reconciliations := reconciliations w |}.

(** Run the callbacks of the given timers, each at its due time. *)
Fixpoint fire (ts : list Timer) (w : Window) : Window :=
  match ts with
  | [] => w
  | t :: ts' =>
      fire ts' (handleDOMChange (reason t) (set_time (Z.max (time w) (due t)) w))
  end.

(** Let the clock reach [t]: every pending timer due by then fires, in
    the order in which the timers were set. *)
Definition advanceTo (t : Z) (w : Window) : Window :=
  let ready := filter (fun x => (due x <= t)%Z) (timers w) in
  let waiting := filter (fun x => ¬ (due x <= t)%Z) (timers w) in
  set_time (Z.max (time w) t) (fire ready (set_timers waiting w)).

(** Signals arrive at given times. *)
Fixpoint run (signals : list (Z * Signal)) (w : Window) : Window :=
  match signals with
  | [] => w
  | (t, s) :: rest => run rest (deliver s (advanceTo t w))
  end.

(** Whether delivering [s] calls [debouncedRescan]. *)
Definition triggers (s : Signal) (w : Window) : bool :=
  observer w &&
  match s with
  | Mutations records =>
      existsb (fun m => (0 <? addedNodes m)%nat || (0 <? removedNodes m)%nat)
        records
  | Navigation href => negb (String.eqb href (currentUrl w))
  end.

(** Whether some signal of the run calls [debouncedRescan]. *)
Fixpoint anyTrigger (signals : list (Z * Signal)) (w : Window) : bool :=
  match signals with
  | [] => false
  | (t, s) :: rest =>
      triggers s (advanceTo t w)
      || anyTrigger rest (deliver s (advanceTo t w))
  end.

(** Whether every signal of the run calls [debouncedRescan]. *)
Fixpoint allTrigger (signals : list (Z * Signal)) (w : Window) : bool :=
  match signals with
  | [] => true
  | (t, s) :: rest =>
      triggers s (advanceTo t w)
      && allTrigger rest (deliver s (advanceTo t w))
  end.

End Watcher.

(** * Properties *)

(** ** Local generation *)

Section LocalGeneration.

Import Schema.

Lemma generateLocalSchemas_map (elements : list ScannedElement) :
  generateLocalSchemas elements = map localSchema elements.
Proof.
  unfold generateLocalSchemas.
  cut (forall acc : list ToolSchema,
          fold_left (fun schemas element =>
                       (schemas ++ [localSchema element])%list) elements acc
          = (acc ++ map localSchema elements)%list).
  { intros H. apply (H []). }
  induction elements as [|e l IH]; intros acc; simpl.
  - by rewrite app_nil_r.
  - rewrite IH, <- app_assoc. reflexivity.
Qed.


(** The four hints, to speak of one flag at a time. *)
Inductive Hint := ReadOnly | Destructive | Idempotent | OpenWorld.

Definition hint (h : Hint) (a : ToolAnnotations) : option bool :=
  match h with
  | ReadOnly => readOnlyHint a
  | Destructive => destructiveHint a
  | Idempotent => idempotentHint a
  | OpenWorld => openWorldHint a
  end.

(** The value of one flag on a descriptor. *)
Definition flagOf (h : Hint) (s : ToolSchema) : option bool :=
  ts_annotations s ≫= hint h.





Definition blankElement (t : ScannedElementType) (selector : string)
  : ScannedElement :=
  {| el_type := t; el_id := None; el_selector := selector;
     el_action := None; el_method := None; el_inputs := None;
     el_ariaLabel := None; el_textContent := None;
     el_overrideName := None; el_overrideDescription := None;
     el_overrideAnnotations := None |}.



(** A form whose only field is named __proto__ and carries a
    data-tool-param description. *)
Definition protoField : ScannedInput :=
  {| in_name := "__proto__"; in_inputType := "text"; in_required := true;
     in_placeholder := None; in_label := None;
     in_overrideParamDescription := Some "The prototype" |}.

Definition protoForm : ScannedElement :=
  {| el_type := form; el_id := Some "proto"; el_selector := "#proto";
     el_action := None; el_method := Some "GET";
     el_inputs := Some [protoField];
     el_ariaLabel := None; el_textContent := None;
     el_overrideName := None; el_overrideDescription := None;
     el_overrideAnnotations := None |}.


Lemma assign_lookup_ne (name n : string) (value : SchemaProperty)
    (props : gmap string SchemaProperty) :
  name <> n -> assign name value props !! n = props !! n.
Proof.
  intros Hne. unfold assign. destruct (String.eqb name "__proto__");
    [reflexivity|]. by apply lookup_insert_ne.
Qed.

Lemma assign_lookup_eq (name : string) (value : SchemaProperty)
    (props : gmap string SchemaProperty) :
  name <> "__proto__" -> assign name value props !! name = Some value.
Proof.
  intros Hne. unfold assign. apply String.eqb_neq in Hne. rewrite Hne.
  apply lookup_insert_eq.
Qed.

Lemma assign_lookup_proto (value : SchemaProperty)
    (props : gmap string SchemaProperty) :
  assign "__proto__" value props = props.
Proof. reflexivity. Qed.




(** A feedback form as in the README: name, description and one flag
    overridden, one field with a parameter description. *)
Definition feedbackForm : ScannedElement :=
  {| el_type := form; el_id := Some "feedback-form";
     el_selector := "#feedback-form";
     el_action := Some "/api/feedback"; el_method := Some "POST";
     el_inputs :=
       Some [ {| in_name := "message"; in_inputType := "text";
                 in_required := true; in_placeholder := None;
                 in_label := Some "Message";
                 in_overrideParamDescription :=
                   Some "The feedback message content" |} ];
     el_ariaLabel := None; el_textContent := None;
     el_overrideName := Some "submit_feedback";
     el_overrideDescription := Some "Submit user feedback about the product";
     el_overrideAnnotations :=
       Some {| readOnlyHint := None; destructiveHint := None;
               idempotentHint := None; openWorldHint := Some true |} |}.


(** C8: a DELETE form with a name override and a description override
    but no annotation override gets the overrides as name and
    description and annotations inferred from the method, hence the
    destructive hint. *)
Theorem delete_form_overrides_keep_inference (e : ScannedElement)
    (n d : string) :
  el_type e = form ->
  el_method e = Some "DELETE" ->
  el_overrideName e = Some n ->
  el_overrideDescription e = Some d ->
  el_overrideAnnotations e = None ->
  exists s, generateLocalSchemas [e] = [s]
            /\ ts_name s = n
            /\ ts_description s = d
            /\ ts_annotations s = Some (inferFormAnnotations (el_method e))
            /\ flagOf Destructive s = Some true
            /\ flagOf ReadOnly s = Some false.
Proof.
  intros Hform Hmethod Hn Hd Ha.
  exists (schemaFromForm e).
  rewrite generateLocalSchemas_map. unfold flagOf, localSchema. simpl.
  rewrite Hform. unfold schemaFromForm. simpl.
  rewrite Hn, Hd, Ha, Hmethod. simpl. repeat split; reflexivity.
Qed.

Definition deleteAccountForm : ScannedElement :=
  {| el_type := form; el_id := Some "account"; el_selector := "#account";
     el_action := Some "/api/account"; el_method := Some "DELETE";
     el_inputs := Some [];
     el_ariaLabel := None; el_textContent := None;
     el_overrideName := Some "close_account";
     el_overrideDescription := Some "Close the account of the user";
     el_overrideAnnotations := None |}.

Lemma delete_form_overrides_keep_inference_witness :
  exists s, generateLocalSchemas [deleteAccountForm] = [s]
            /\ ts_name s = "close_account"
            /\ ts_description s = "Close the account of the user"
            /\ ts_annotations s
               = Some (inferFormAnnotations (el_method deleteAccountForm))
            /\ flagOf Destructive s = Some true
            /\ flagOf ReadOnly s = Some false.
Proof.
  exact (delete_form_overrides_keep_inference deleteAccountForm _ _
           eq_refl eq_refl eq_refl eq_refl eq_refl).
Defined.

(** The method is compared in upper case, so the spelling of the verb
    does not matter. *)
Lemma inferForm_delete_any_case (m : string) :
  Js.toUpperCase m = "DELETE" ->
  destructiveHint (inferFormAnnotations (Some m)) = Some true.
Proof. intros H. unfold inferFormAnnotations. simpl. by rewrite H. Qed.







End LocalGeneration.

(** ** Synthesis: cache, remote service, fallback *)

Section Synthesize.

Import Schema.

(** The remote service answered in time with a non-empty schema array. *)
Inductive RemoteSuccess (remote : Remote) (schemas : list ToolSchema) : Prop :=
  | remote_success (r : Response) (source : option string) :
      (latency remote < API_TIMEOUT_MS)%Z ->
      result remote = Responds r ->
      ok r = true ->
      body r = Json (Some schemas) source ->
      schemas <> [] ->
      RemoteSuccess remote schemas.

(** The ways a request fails. *)
Inductive RemoteFailure (remote : Remote) : Prop :=
  | timed_out : (API_TIMEOUT_MS <= latency remote)%Z -> RemoteFailure remote
  | network_error : result remote = Unreachable -> RemoteFailure remote
  | bad_status (r : Response) :
      result remote = Responds r -> ok r = false -> RemoteFailure remote
  | bad_body (r : Response) :
      result remote = Responds r -> body r = BadJson -> RemoteFailure remote
  | no_schemas (r : Response) (source : option string) :
      result remote = Responds r -> body r = Json None source ->
      RemoteFailure remote
  | empty_schemas (r : Response) (source : option string) :
      result remote = Responds r -> body r = Json (Some []) source ->
      RemoteFailure remote.

Lemma success_or_failure (remote : Remote) :
  (exists schemas, RemoteSuccess remote schemas) \/ RemoteFailure remote.
Proof.
  destruct (Z.ltb_spec (latency remote) API_TIMEOUT_MS) as [Hlt|Hge];
    [|right; by apply timed_out].
  destruct (result remote) as [|r] eqn:Hres; [right; by apply network_error|].
  destruct (ok r) eqn:Hok; [|right; by eapply bad_status].
  destruct (body r) as [|[[|s l]|] source] eqn:Hbody.
  - right. by eapply bad_body.
  - right. by eapply empty_schemas.
  - left. exists (s :: l). by eapply remote_success.
  - right. by eapply no_schemas.
Qed.


(** The key under which the current path is cached. *)
Definition keyOf (b : Browser) : string := CACHE_KEY_PREFIX +:+ pathname b.

(** Two browser states that differ at most in what is stored. *)
Definition sameBut_storage (b b' : Browser) : Prop :=
  quota_exceeded b' = quota_exceeded b /\ pathname b' = pathname b
  /\ now b' = now b /\ requests b' = requests b.

(** What a cache operation may do to the store: nothing, or change the
    entry of the current path only. *)
Definition storageStep (b b' : Browser) : Prop :=
  match localStorage b with
  | Available items =>
      exists items', localStorage b' = Available items'
                     /\ forall k, k <> keyOf b -> items' !! k = items !! k
  | st => localStorage b' = st
  end.

Lemma storageStep_refl (b : Browser) : storageStep b b.
Proof. unfold storageStep. destruct (localStorage b); eauto. Qed.

(** Unfold the monadic plumbing of the cache operations, then compute
    with the facts at hand. *)
Ltac run_cache :=
  cbv beta iota zeta delta
    [getCachedSchemas cacheSchemas try_catch bind get ret throw cacheKey
     getItem removeItem setItem modify storage_defined negb keyOf] in *;
  repeat (match goal with H : _ = _ |- _ => rewrite H end;
          cbv beta iota zeta).

(** [getCachedSchemas] never throws and sends nothing. *)
Lemma getCachedSchemas_total (b : Browser) :
  exists o b', getCachedSchemas b = (Normal o, b')
               /\ sameBut_storage b b' /\ storageStep b b'.
Proof.
  assert (Hrefl : forall o, getCachedSchemas b = (Normal o, b) ->
            exists o b', getCachedSchemas b = (Normal o, b')
                         /\ sameBut_storage b b' /\ storageStep b b').
  { intros o H. exists o, b. split; [exact H|].
    split; [by unfold sameBut_storage | apply storageStep_refl]. }
  destruct (localStorage b) as [| |items] eqn:Hst.
  - apply (Hrefl None). by run_cache.
  - apply (Hrefl None). by run_cache.
  - destruct (items !! keyOf b) as [[| |schemas timestamp]|] eqn:Hitem.
    + apply (Hrefl None). by run_cache.
    + apply (Hrefl None). by run_cache.
    + destruct (CACHE_TTL_MS <? now b - timestamp)%Z eqn:Hexp.
      * exists None, (set_storage (Available (delete (keyOf b) items)) b).
        split; [by run_cache|]. split; [by unfold sameBut_storage|].
        unfold storageStep. rewrite Hst. simpl.
        eexists. split; [reflexivity|]. intros k Hk.
        by apply lookup_delete_ne.
      * apply (Hrefl (Some schemas)). by run_cache.
    + apply (Hrefl None). by run_cache.
Qed.

(** A fresh entry is served as it is, and the store is left alone. *)
Lemma getCachedSchemas_fresh (b : Browser) (items : gmap string StoredItem)
    (schemas : list ToolSchema) (timestamp : Z) :
  localStorage b = Available items ->
  items !! keyOf b = Some (Entry schemas timestamp) ->
  (now b - timestamp <= CACHE_TTL_MS)%Z ->
  getCachedSchemas b = (Normal (Some schemas), b).
Proof.
  intros Hst Hitem Hfresh.
  assert (Hexp : (CACHE_TTL_MS <? now b - timestamp)%Z = false)
    by (apply Z.ltb_ge; lia).
  by run_cache.
Qed.

(** [cacheSchemas] never throws and sends nothing. *)
Lemma cacheSchemas_total (schemas : list ToolSchema) (b : Browser) :
  exists b', cacheSchemas schemas b = (Normal tt, b')
             /\ sameBut_storage b b' /\ storageStep b b'.
Proof.
  assert (Hrefl : cacheSchemas schemas b = (Normal tt, b) ->
            exists b', cacheSchemas schemas b = (Normal tt, b')
                       /\ sameBut_storage b b' /\ storageStep b b').
  { intros H. exists b. split; [exact H|].
    split; [by unfold sameBut_storage | apply storageStep_refl]. }
  destruct (localStorage b) as [| |items] eqn:Hst.
  - apply Hrefl. by run_cache.
  - apply Hrefl. by run_cache.
  - destruct (quota_exceeded b) eqn:Hq.
    + apply Hrefl. by run_cache.
    + exists (set_storage
                (Available (<[keyOf b := Entry schemas (now b)]> items)) b).
      split; [by run_cache|]. split; [by unfold sameBut_storage|].
      unfold storageStep. rewrite Hst. simpl.
      eexists. split; [reflexivity|]. intros k Hk.
      by apply lookup_insert_ne.
Qed.

(** On a store that accepts writes the entry is written with the current
    time. *)
Lemma cacheSchemas_writes (schemas : list ToolSchema) (b : Browser)
    (items : gmap string StoredItem) :
  localStorage b = Available items ->
  quota_exceeded b = false ->
  cacheSchemas schemas b
  = (Normal tt,
     set_storage (Available (<[keyOf b := Entry schemas (now b)]> items)) b).
Proof. intros Hst Hq. by run_cache. Qed.

(** Unfold one attempt at the remote service, keeping the cache
    operations folded. *)
Ltac run_api :=
  cbv beta iota zeta delta
    [tryApi fetch json try_catch bind get ret throw modify] in *;
  repeat (match goal with H : _ = _ |- _ => rewrite H end;
          cbv beta iota zeta).

(** The browser once the request has been sent and answered. *)
Definition answered (remote : Remote) (b : Browser) : Browser :=
  advance (latency remote) (count_request b).

Lemma tryApi_no_endpoint (endpoint : option string) (remote : Remote)
    (b : Browser) :
  Js.truthy endpoint = false ->
  tryApi endpoint remote b = (Normal None, b).
Proof. intros H. by run_api. Qed.

(** A failed request leaves the function in its try block or its catch
    block without a result; the store is not written. *)
Lemma tryApi_failure (endpoint : option string) (remote : Remote)
    (b : Browser) :
  Js.truthy endpoint = true ->
  RemoteFailure remote ->
  exists b', tryApi endpoint remote b = (Normal None, b')
             /\ requests b' = S (requests b)
             /\ localStorage b' = localStorage b.
Proof.
  intros Hend Hfail.
  destruct (API_TIMEOUT_MS <=? latency remote)%Z eqn:Htime.
  { eexists. split; [by run_api|]. by split. }
  destruct Hfail as [Hge|Hun|r Hres Hok|r Hres Hb|r src Hres Hb|r src Hres Hb].
  - apply Z.leb_gt in Htime. lia.
  - eexists. split; [by run_api|]. by split.
  - eexists. split; [by run_api|]. by split.
  - destruct (ok r) eqn:Hok; (eexists; split; [by run_api|]; by split).
  - destruct (ok r) eqn:Hok; (eexists; split; [by run_api|]; by split).
  - destruct (ok r) eqn:Hok; (eexists; split; [by run_api|]; by split).
Qed.

(** A successful request returns the remote schemas after handing them
    to [cacheSchemas]. *)
Lemma tryApi_success (endpoint : option string) (remote : Remote)
    (schemas : list ToolSchema) (b : Browser) :
  Js.truthy endpoint = true ->
  RemoteSuccess remote schemas ->
  exists b', cacheSchemas schemas (answered remote b) = (Normal tt, b')
             /\ tryApi endpoint remote b = (Normal (Some schemas), b').
Proof.
  intros Hend [r src Hlt Hres Hok Hbody Hne].
  destruct (cacheSchemas_total schemas (answered remote b))
    as (b' & Hcache & _).
  exists b'. split; [exact Hcache|].
  assert (Htime : (API_TIMEOUT_MS <=? latency remote)%Z = false)
    by (apply Z.leb_gt; lia).
  assert (Hlen : (0 <? length schemas)%nat = true)
    by (destruct schemas; [done | reflexivity]).
  unfold answered in Hcache.
  cbv beta iota zeta delta
    [tryApi fetch json try_catch bind get ret throw modify].
  rewrite Hend, Htime. cbv beta iota zeta.
  rewrite Hres. cbv beta iota zeta.
  rewrite Hok, Hbody. cbv beta iota zeta.
  unfold fst, Js.nullish. rewrite Hlen, Hcache. reflexivity.
Qed.

(** One attempt never throws and sends at most one request. *)
Lemma tryApi_total (endpoint : option string) (remote : Remote)
    (b : Browser) :
  exists o b', tryApi endpoint remote b = (Normal o, b')
               /\ (requests b' = requests b \/ requests b' = S (requests b)).
Proof.
  destruct (Js.truthy endpoint) eqn:Hend.
  - destruct (success_or_failure remote) as [[schemas Hs]|Hf].
    + destruct (tryApi_success endpoint remote schemas b Hend Hs)
        as (b' & Hcache & Hapi).
      exists (Some schemas), b'. split; [exact Hapi|]. right.
      destruct (cacheSchemas_total schemas (answered remote b))
        as (b'' & Hcache' & (_ & _ & _ & Hreq) & _).
      rewrite Hcache in Hcache'. injection Hcache' as <-.
      rewrite Hreq. reflexivity.
    + destruct (tryApi_failure endpoint remote b Hend Hf)
        as (b' & Hapi & Hreq & _).
      exists None, b'. split; [exact Hapi|]. by right.
  - exists None, b. split; [by apply tryApi_no_endpoint|]. by left.
Qed.

(** The cache check that opens [fetchSchemas]. *)
Definition cacheCheck (skipCache : bool)
  : M Browser (option (list ToolSchema)) :=
  if skipCache then ret None else getCachedSchemas.

Lemma cacheCheck_total (skipCache : bool) (b : Browser) :
  exists o b', cacheCheck skipCache b = (Normal o, b')
               /\ sameBut_storage b b' /\ storageStep b b'
               /\ (skipCache = true -> o = None /\ b' = b).
Proof.
  destruct skipCache; simpl.
  - exists None, b. split; [reflexivity|].
    split; [by unfold sameBut_storage|]. split; [apply storageStep_refl|done].
  - destruct (getCachedSchemas_total b) as (o & b' & H & Hsame & Hstep).
    exists o, b'. repeat split; try done; apply Hsame.
Qed.

(** The path taken by [fetchSchemas], stage by stage. *)
Lemma fetchSchemas_stages (elements : list ScannedElement)
    (endpoint : option string) (skipCache : bool) (remote : Remote)
    (b : Browser) (o : option (list ToolSchema)) (b1 : Browser) :
  cacheCheck skipCache b = (Normal o, b1) ->
  match o with
  | Some cached =>
      fetchSchemas elements endpoint skipCache remote b = (Normal cached, b1)
  | None =>
      if allOverridden elements then
        fetchSchemas elements endpoint skipCache remote b
        = (Normal (generateLocalSchemas elements), b1)
      else
        forall o2 b2, tryApi endpoint remote b1 = (Normal o2, b2) ->
          fetchSchemas elements endpoint skipCache remote b
          = (Normal (o2 ?? generateLocalSchemas elements), b2)
  end.
Proof.
  intros Hcheck. unfold cacheCheck in Hcheck.
  destruct o as [cached|].
  - unfold fetchSchemas, bind. by rewrite Hcheck.
  - destruct (allOverridden elements) eqn:Hall.
    + unfold fetchSchemas, bind. by rewrite Hcheck, Hall.
    + intros o2 b2 Hapi. unfold fetchSchemas, bind.
      rewrite Hcheck, Hall, Hapi. by destruct o2.
Qed.


(** Every call sends at most one request. *)
Lemma fetchSchemas_requests (elements : list ScannedElement)
    (endpoint : option string) (skipCache : bool) (remote : Remote)
    (b : Browser) :
  exists schemas b',
    fetchSchemas elements endpoint skipCache remote b = (Normal schemas, b')
    /\ (requests b' = requests b \/ requests b' = S (requests b)).
Proof.
  destruct (cacheCheck_total skipCache b)
    as (o & b1 & Hcheck & (_ & _ & _ & Hreq1) & _ & _).
  pose proof (fetchSchemas_stages elements endpoint skipCache remote b o b1
                Hcheck) as Hstage.
  destruct o as [cached|].
  - exists cached, b1. split; [exact Hstage|]. by left.
  - destruct (allOverridden elements).
    + eexists _, b1. split; [exact Hstage|]. by left.
    + destruct (tryApi_total endpoint remote b1) as (o2 & b2 & Hapi & Hreq).
      eexists _, b2. split; [exact (Hstage _ _ Hapi)|].
      rewrite Hreq1 in Hreq. exact Hreq.
Qed.

(** *** Two calls in a row *)

Definition shopBrowser : Browser :=
  {| localStorage := Available ∅; quota_exceeded := false;
     pathname := "/products"; now := 1000; requests := 0 |}.

Definition buyButton : ScannedElement :=
  {| el_type := button; el_id := Some "buy"; el_selector := "#buy";
     el_action := None; el_method := None; el_inputs := None;
     el_ariaLabel := None; el_textContent := Some "Buy now";
     el_overrideName := None; el_overrideDescription := None;
     el_overrideAnnotations := None |}.

Definition apiEndpoint : option string := Some "http://localhost:3002".

(** The service answers 503 after 40 ms. *)
Definition unavailable : Remote :=
  {| latency := 40;
     result := Responds {| status := 503; body := BadJson |} |}.

(** The service does not answer within 15 seconds. *)
Definition tooSlow : Remote :=
  {| latency := 20000; result := Unreachable |}.



(** Scenario B on a concrete page: the request times out and the call
    returns the one local descriptor, fifteen seconds later. *)
Example timeout_falls_back_to_local :
  exists b',
    fetchSchemas [buyButton] apiEndpoint false tooSlow shopBrowser
    = (Normal [schemaFromButton buyButton], b')
    /\ now b' = 16000%Z /\ requests b' = 1%nat.
Proof. eexists. split; [vm_compute; reflexivity|]. by split. Qed.


(** The service answers 200 with one descriptor after 120 ms. *)
Definition remoteBuy : ToolSchema :=
  {| ts_name := "buy_product"; ts_description := "Buy the product shown";
     ts_parameters := emptySchema; ts_selector := "#buy";
     ts_elementType := button; ts_annotations := None |}.

Definition healthy : Remote :=
  {| latency := 120;
     result := Responds {| status := 200;
                           body := Json (Some [remoteBuy]) (Some "ai") |} |}.

Lemma healthy_succeeds : RemoteSuccess healthy [remoteBuy].
Proof.
  eapply remote_success; try reflexivity. discriminate.
Defined.


End Synthesize.

(** ** The wrapped execute callback *)

Section Execute.

Import Registrar.

Ltac run_execute :=
  cbv beta iota zeta delta
    [execute maybeConfirmDestructive requestUserInteraction querySelector
     interact trackEvent Date_now elapse try_catch bind get ret throw
     modify negb] in *;
  repeat (match goal with H : _ = _ |- _ => rewrite H end;
          cbv beta iota zeta).

(** The user is asked and does not answer [true]. *)
Definition declines (schema : ToolSchema) (client : Client) : bool :=
  isDestructive schema &&
  match client with
  | Answers false _ => true
  | _ => false
  end.

(** The time the confirmation phase takes. *)
Definition confirmation_ms (schema : ToolSchema) (client : Client) : Z :=
  if isDestructive schema then
    match client with
    | NoInteraction => 0
    | Answers _ elapsed | Rejects _ elapsed => elapsed
    end
  else 0.

(** The events of the confirmation phase. *)
Definition confirmationEvents (schema : ToolSchema) (client : Client)
  : list Event :=
  if isDestructive schema then
    match client with
    | Answers allowed _ => [USER_CONFIRMATION (ts_name schema) allowed]
    | _ => []
    end
  else [].

Definition isSuccess (e : Event) : bool :=
  match e with
  | TOOL_SUCCESS _ _ => true
  | _ => false
  end.

Definition isError (e : Event) : bool :=
  match e with
  | TOOL_ERROR _ _ _ => true
  | _ => false
  end.

Lemma confirmationEvents_plain (schema : ToolSchema) (client : Client) :
  forallb (fun e => negb (isSuccess e) && negb (isError e))
    (confirmationEvents schema client) = true.
Proof.
  unfold confirmationEvents.
  destruct (isDestructive schema); [|reflexivity].
  destruct client; reflexivity.
Qed.

(** A page on which nothing is found, with a clock that does not move
    during phase C. *)
Definition emptyPage : Page :=
  {| clock := 5000; dom_ms := 0;
     document := fun _ => Normal None;
     modelContext := None;
     registeredTools := ∅;
     telemetry := [] |}.

Definition searchTool : ToolSchema :=
  {| ts_name := "search_products"; ts_description := "Search the catalogue";
     ts_parameters := Schema.emptySchema; ts_selector := "#search";
     ts_elementType := form;
     ts_annotations :=
       Some {| readOnlyHint := Some true; destructiveHint := Some false;
               idempotentHint := None; openWorldHint := None |} |}.

Definition deleteTool : ToolSchema :=
  {| ts_name := "delete_account"; ts_description := "Delete the account";
     ts_parameters := Schema.emptySchema; ts_selector := "#delete";
     ts_elementType := button;
     ts_annotations :=
       Some {| readOnlyHint := Some false; destructiveHint := Some true;
               idempotentHint := None; openWorldHint := None |} |}.

(** C1, as stated, fails twice over.  The duration is the difference of
    two clock readings and is zero when both fall in the same
    millisecond; and for a destructive tool that the user declines the
    handler returns before it looks for the element, so no TOOL_ERROR is
    emitted and nothing is raised. *)
Lemma not_found_duration_may_be_zero :
  (document emptyPage (ts_selector searchTool) = Normal None
   /\ exists p',
        execute searchTool [] NoInteraction emptyPage
        = (Throw (notFound "#search"), p')
        /\ telemetry p'
           = [TOOL_ATTEMPT "search_products" [];
              TOOL_ERROR "search_products"
                "Element not found for selector: #search" 0])
  /\ (document emptyPage (ts_selector deleteTool) = Normal None
      /\ exists p',
           execute deleteTool [] (Answers false 2500) emptyPage
           = (Normal (Declined "delete_account"
                        "User denied destructive action."), p')
           /\ telemetry p'
              = [TOOL_ATTEMPT "delete_account" [];
                 USER_CONFIRMATION "delete_account" false]).
Proof.
  split; (split; [reflexivity|]); eexists;
    (split; [vm_compute; reflexivity | reflexivity]).
Qed.

(** C1 (amended): when the selector of a tool no longer resolves, then
    unless the tool is destructive and the user declines the confirmation,
    invoking the wrapped handler re-raises the not-found error, and the
    events it emits are the attempt, the events of the confirmation phase
    and one TOOL_ERROR carrying the not-found message and the elapsed
    duration, which is the difference of the two clock readings (the time
    taken by the confirmation and by the lookup, possibly zero); no
    TOOL_SUCCESS is emitted.  When the user declines, the handler returns
    the structured decline result and emits neither TOOL_ERROR nor
    TOOL_SUCCESS. *)
Theorem missing_element_raises_not_found (schema : ToolSchema)
    (args : list (string * string)) (client : Client) (p : Page) :
  document p (ts_selector schema) = Normal None ->
  exists p' events,
    telemetry p' = (telemetry p ++ events)%list
    /\ existsb isSuccess events = false
    /\ (declines schema client = false ->
        execute schema args client p
        = (Throw (notFound (ts_selector schema)), p')
        /\ events
           = (TOOL_ATTEMPT (ts_name schema) args
              :: confirmationEvents schema client
              ++ [TOOL_ERROR (ts_name schema)
                    ("Element not found for selector: " +:+ ts_selector schema)
                    (clock p' - clock p)])%list
        /\ (clock p' - clock p = confirmation_ms schema client + dom_ms p)%Z)
    /\ (declines schema client = true ->
        execute schema args client p
        = (Normal (Declined (ts_name schema)
                     "User denied destructive action."), p')
        /\ existsb isError events = false).
Proof.
  intros Hdoc.
  unfold declines, confirmation_ms, confirmationEvents.
  destruct (isDestructive schema) eqn:Hd;
    [destruct client as [|[|] elapsed|e elapsed]|].
  all: eexists _, _; split;
    [|split; [|split; intros Hdecl; try discriminate Hdecl]].
  all: try (split; [run_execute; simpl; rewrite ?Hdoc; reflexivity|]).
  all: try (split; [simpl; f_equal; f_equal; f_equal; f_equal; lia
                   | simpl; lia]).
  all: try (simpl; rewrite <- ?app_assoc; reflexivity).
  all: try reflexivity.
Qed.

(** A page on which the lookup takes three milliseconds. *)
Definition slowPage : Page :=
  {| clock := 5000; dom_ms := 3;
     document := fun _ => Normal None;
     modelContext := None;
     registeredTools := ∅;
     telemetry := [] |}.

Lemma missing_element_raises_not_found_witness :
  exists p' events,
    telemetry p' = (telemetry slowPage ++ events)%list
    /\ existsb isSuccess events = false
    /\ (declines deleteTool (Answers true 1800) = false ->
        execute deleteTool [("confirm", "yes")] (Answers true 1800) slowPage
        = (Throw (notFound (ts_selector deleteTool)), p')
        /\ events
           = (TOOL_ATTEMPT (ts_name deleteTool) [("confirm", "yes")]
              :: confirmationEvents deleteTool (Answers true 1800)
              ++ [TOOL_ERROR (ts_name deleteTool)
                    ("Element not found for selector: "
                     +:+ ts_selector deleteTool)
                    (clock p' - clock slowPage)])%list
        /\ (clock p' - clock slowPage
            = confirmation_ms deleteTool (Answers true 1800)
              + dom_ms slowPage)%Z)
    /\ (declines deleteTool (Answers true 1800) = true ->
        execute deleteTool [("confirm", "yes")] (Answers true 1800) slowPage
        = (Normal (Declined (ts_name deleteTool)
                     "User denied destructive action."), p')
        /\ existsb isError events = false).
Proof.
  exact (missing_element_raises_not_found deleteTool [("confirm", "yes")]
           (Answers true 1800) slowPage eq_refl).
Defined.

(** On that page the duration reported is 1803 ms. *)
Example not_found_after_confirmation :
  exists p',
    execute deleteTool [] (Answers true 1800) slowPage
    = (Throw (notFound "#delete"), p')
    /\ telemetry p'
       = [TOOL_ATTEMPT "delete_account" [];
          USER_CONFIRMATION "delete_account" true;
          TOOL_ERROR "delete_account"
            "Element not found for selector: #delete" 1803].
Proof. eexists. split; [vm_compute; reflexivity | reflexivity]. Qed.

End Execute.

(** ** The registry *)

Section Registry.

Import Registrar.

Ltac run_register :=
  cbv beta iota zeta delta
    [registerOne registerTool trackEvent try_catch bind get ret throw
     modify] in *;
  repeat (match goal with H : _ = _ |- _ => rewrite H end;
          cbv beta iota zeta).

(** The page after a successful registration of [schema] with host
    [h]. *)
Definition withTool (schema : ToolSchema) (h : Host) (p : Page) : Page :=
  {| clock := clock p; dom_ms := dom_ms p; document := document p;
     modelContext :=
       Some {| accepts := accepts h; tools := (tools h ++ [schema])%list |};
     registeredTools :=
       <[ts_name schema := ts_selector schema]> (registeredTools p);
     telemetry := (telemetry p ++ [TOOL_REGISTERED (ts_name schema)])%list |}.

(** The page after one iteration of the loop. *)
Definition afterOne (schema : ToolSchema) (p : Page) : Page :=
  if has (ts_name schema) p then p else
  match modelContext p with
  | Some h => if accepts h (tools h) schema then withTool schema h p else p
  | None => p
  end.

Lemma registerOne_afterOne (schema : ToolSchema) (p : Page) :
  registerOne schema p = (Normal tt, afterOne schema p).
Proof.
  unfold afterOne.
  destruct (has (ts_name schema) p) eqn:Hhas; [by run_register|].
  destruct (modelContext p) as [h|] eqn:Hctx; [|by run_register].
  destruct (accepts h (tools h) schema) eqn:Hacc; by run_register.
Qed.

(** The page after the whole loop. *)
Definition afterAll (schemas : list ToolSchema) (p : Page) : Page :=
  fold_left (fun q schema => afterOne schema q) schemas p.

Lemma for_each_afterAll (schemas : list ToolSchema) (p : Page) :
  for_each registerOne schemas p = (Normal tt, afterAll schemas p).
Proof.
  revert p. induction schemas as [|s l IH]; intros p; [reflexivity|].
  simpl. unfold bind. rewrite registerOne_afterOne. apply IH.
Qed.


Lemma has_true (name : string) (p : Page) :
  has name p = true <-> is_Some (registeredTools p !! name).
Proof. unfold has. apply bool_decide_eq_true. Qed.





Lemma afterOne_context (schema : ToolSchema) (p : Page) :
  is_Some (modelContext p) <-> is_Some (modelContext (afterOne schema p)).
Proof.
  unfold afterOne.
  destruct (has (ts_name schema) p); [done|].
  destruct (modelContext p) as [h|] eqn:Hctx; [|by rewrite Hctx].
  destruct (accepts h (tools h) schema); [|by rewrite Hctx].
  simpl. split; eauto.
Qed.

(** [registerTools] never throws; without a host it does nothing. *)
Lemma registerTools_afterAll (schemas : list ToolSchema) (p : Page) :
  registerTools schemas p
  = (Normal tt, match modelContext p with
                | Some _ => afterAll schemas p
                | None => p
                end).
Proof.
  unfold registerTools, bind, get.
  destruct (modelContext p); [apply for_each_afterAll | reflexivity].
Qed.

(** The names the host holds. *)
Definition hostNames (p : Page) : list string :=
  match modelContext p with
  | Some h => map ts_name (tools h)
  | None => []
  end.

(** The registry mirrors the host: the host holds no name twice, it holds
    exactly the names of the registry, and both have the same size. *)
Definition consistent (p : Page) : Prop :=
  NoDup (hostNames p)
  /\ (forall name, In name (hostNames p)
                   <-> is_Some (registeredTools p !! name))
  /\ size (registeredTools p) = length (hostNames p).

Lemma afterOne_consistent (schema : ToolSchema) (p : Page) :
  consistent p -> consistent (afterOne schema p).
Proof.
  intros (Hnodup & Hnames & Hsize). unfold afterOne.
  destruct (has (ts_name schema) p) eqn:Hhas; [done|].
  destruct (modelContext p) as [h|] eqn:Hctx; [|done].
  destruct (accepts h (tools h) schema); [|done].
  assert (Hfresh : registeredTools p !! ts_name schema = None).
  { apply eq_None_not_Some. intros H. apply has_true in H. congruence. }
  assert (Hnew : ~ In (ts_name schema) (map ts_name (tools h))).
  { intros Hin. unfold hostNames in Hnames. rewrite Hctx in Hnames.
    apply Hnames in Hin. rewrite Hfresh in Hin. by destruct Hin. }
  unfold consistent, hostNames in *. rewrite Hctx in *. simpl.
  rewrite map_app. simpl. split; [|split].
  - apply NoDup_app. split; [exact Hnodup|]. split.
    + intros x Hx Hx'. apply list_elem_of_In in Hx.
      apply list_elem_of_singleton in Hx'. by subst.
    + apply NoDup_singleton.
  - intros name. rewrite in_app_iff. simpl.
    destruct (decide (ts_name schema = name)) as [->|Hne].
    + rewrite lookup_insert_eq. split; eauto.
    + rewrite lookup_insert_ne by done. rewrite <- Hnames. tauto.
  - rewrite map_size_insert_None by done.
    rewrite length_app. simpl. lia.
Qed.

Lemma afterAll_consistent (schemas : list ToolSchema) (p : Page) :
  consistent p -> consistent (afterAll schemas p).
Proof.
  revert p. induction schemas as [|s l IH]; intros p H; [exact H|].
  simpl. apply IH. by apply afterOne_consistent.
Qed.

(** A host that refuses a definition without description. *)
Definition pickyHost : Host :=
  {| accepts := fun _ schema => negb (Js.is_empty (ts_description schema));
     tools := [] |}.

Definition freshPage : Page :=
  {| clock := 0; dom_ms := 0;
     document := fun _ => Normal None;
     modelContext := Some pickyHost;
     registeredTools := ∅;
     telemetry := [] |}.


Definition searchFinal : ToolSchema :=
  {| ts_name := "search"; ts_description := "Search the catalogue";
     ts_parameters := Schema.emptySchema; ts_selector := "#search-new";
     ts_elementType := form; ts_annotations := None |}.





End Registry.

(** ** The scanner *)

Section Scan.

Import Scanner.

Definition el (tag : string) (attrs : list (string * string))
    (children : list Node) : Node := Element tag attrs children.

(** A page with a search form, a delete button, an ignored admin button,
    an annotated chat widget and a form without any attribute. *)
Definition demoBody : Node :=
  el "body" []
    [ el "form" [("id", "search"); ("method", "get"); ("action", "/search")]
        [ el "label" [("for", "q")] [Text "Query"];
          el "input" [("id", "q"); ("name", "q"); ("type", "text");
                      ("required", EmptyString)] [];
          el "input" [("type", "submit"); ("value", "Go")] [] ];
      el "button" [] [Text " Delete Account "];
      el "button" [("id", "admin-btn"); ("data-tool-ignore", EmptyString)]
        [Text "Admin Panel"];
      el "div" [("id", "chat-widget");
                ("data-tool-name", "open_support_chat");
                ("data-tool-readonly", EmptyString)]
        [Text "Need help?"];
      el "button" [] [];
      el "form" [] [] ].

Definition demoRoot : Node := el "html" [] [el "head" [] []; demoBody].

Definition demoDoc : Document :=
  plainDocument demoRoot (fun a => "https://shop.example" +:+ (a ?? "/")).

(** Find a member of a list given in full. *)
Ltac pick_member := repeat (first [left; reflexivity | right]).

(** *** What a completed pass holds *)

Lemma forEach_elem {A B : Type} (callback : A -> completion (option B))
    (l : list A) :
  forall results,
    forEach callback l = Normal results ->
    forall b, b ∈ results
              <-> exists a, a ∈ l /\ callback a = Normal (Some b).
Proof.
  induction l as [|a l IH]; intros results Hrun b; simpl in Hrun.
  - injection Hrun as <-. split; [by intros H%elem_of_nil|].
    intros (a & Ha & _). by apply elem_of_nil in Ha.
  - destruct (callback a) as [pushed|] eqn:Hcb; [|discriminate].
    destruct (forEach callback l) as [rest|] eqn:Hrest; [|discriminate].
    injection Hrun as <-. rewrite elem_of_app, (IH rest eq_refl b).
    split.
    + intros [Hb|(a' & Ha' & Hcb')].
      * exists a. split; [by left|]. destruct pushed as [b'|]; simpl in Hb.
        -- apply list_elem_of_singleton in Hb. by subst.
        -- by apply elem_of_nil in Hb.
      * exists a'. split; [by right | done].
    + intros (a' & Ha' & Hcb'). apply elem_of_cons in Ha'.
      destruct Ha' as [->|Ha'].
      * left. rewrite Hcb in Hcb'. injection Hcb' as ->. simpl. by left.
      * right. by exists a'.
Qed.

(** Every callback of a completed pass returned. *)
Lemma forEach_returns {A B : Type} (callback : A -> completion (option B))
    (l : list A) (results : list B) (a : A) :
  forEach callback l = Normal results -> a ∈ l ->
  exists pushed, callback a = Normal pushed.
Proof.
  revert results. induction l as [|a' l IH]; intros results Hrun Ha;
    [by apply elem_of_nil in Ha|].
  simpl in Hrun.
  destruct (callback a') as [pushed|] eqn:Hcb; [|discriminate].
  destruct (forEach callback l) as [rest|] eqn:Hrest; [|discriminate].
  apply elem_of_cons in Ha. destruct Ha as [->|Ha]; [by exists pushed|].
  by apply (IH rest).
Qed.

(** Running a pass with origins changes nothing else. *)
Lemma forEach_tracing {A B : Type} (callback : A -> completion (option B))
    (l : list A) :
  match forEach callback l with
  | Normal results =>
      exists pairs, forEach (tracing callback) l = Normal pairs
                    /\ map snd pairs = results
  | Throw e => forEach (tracing callback) l = Throw e
  end.
Proof.
  induction l as [|a l IH]; simpl; [by exists []|].
  unfold tracing at 1. unfold tracing at 2.
  destruct (callback a) as [pushed|e]; simpl; [|reflexivity].
  destruct (forEach callback l) as [rest|e].
  - destruct IH as (pairs & -> & <-).
    eexists. split; [reflexivity|].
    rewrite map_app. by destruct pushed.
  - by rewrite IH.
Qed.

Lemma tracing_pushed {A B : Type} (callback : A -> completion (option B))
    (a a' : A) (b : B) :
  tracing callback a' = Normal (Some (a, b))
  <-> a' = a /\ callback a = Normal (Some b).
Proof.
  unfold tracing. split.
  - destruct (callback a') as [[b'|]|] eqn:Hcb; simpl; try discriminate.
    intros H. injection H as -> ->. by split.
  - intros [-> ->]. reflexivity.
Qed.

Lemma traced_elem {B : Type} (doc : Document)
    (callback : Located -> completion (option B))
    (candidates : list Located) (e : Located) (r : B) :
  (e, r) ∈ traced doc callback candidates ->
  e ∈ candidates /\ callback e = Normal (Some r)
  /\ clobbered doc "querySelectorAll" = false.
Proof.
  unfold traced, pass. destruct (clobbered doc "querySelectorAll");
    [by intros H%elem_of_nil|].
  destruct (forEach (tracing callback) candidates) as [pairs|] eqn:Hrun;
    simpl; [|by intros H%elem_of_nil].
  rewrite (forEach_elem _ _ _ Hrun). intros (a & Ha & Hcb).
  apply tracing_pushed in Hcb. destruct Hcb as [-> Hcb]. by repeat split.
Qed.

(** The records of a pass that returns are those of [traced], in order,
    and every element whose callback pushed is among their origins. *)
Lemma traced_pass {B : Type} (doc : Document)
    (callback : Located -> completion (option B))
    (candidates : list Located) (results : list B) :
  pass doc callback candidates = Normal results ->
  map snd (traced doc callback candidates) = results
  /\ (forall e r, e ∈ candidates -> callback e = Normal (Some r) ->
        (e, r) ∈ traced doc callback candidates)
  /\ (forall e, e ∈ candidates -> exists pushed, callback e = Normal pushed).
Proof.
  unfold traced, pass. destruct (clobbered doc "querySelectorAll");
    [discriminate|]. intros Hrun.
  pose proof (forEach_tracing callback candidates) as Htr.
  rewrite Hrun in Htr. destruct Htr as (pairs & Hpairs & Hsnd).
  rewrite Hpairs. simpl. split; [exact Hsnd|]. split.
  - intros e r He Hcb. rewrite (forEach_elem _ _ _ Hpairs).
    exists e. split; [exact He|]. by apply tracing_pushed.
  - intros e He. by apply (forEach_returns callback candidates results).
Qed.

(** The forms of a [scanForms] that returns, read as records. *)
Lemma tracedForms_records (doc : Document) (forms : list Emitted) :
  scanForms doc = Normal forms ->
  map snd (tracedForms doc) = map record forms.
Proof.
  intros Hrun. unfold tracedForms.
  destruct (traced_pass doc _ _ _ Hrun) as (<- & _).
  rewrite !map_map. reflexivity.
Qed.

Lemma tracedForms_elem (doc : Document) (e : Located) (r : ScannedElement) :
  (e, r) ∈ tracedForms doc ->
  e ∈ formCandidates doc
  /\ exists m, scanForm doc e = Normal (Some m) /\ record m = r.
Proof.
  unfold tracedForms.
  rewrite list_elem_of_fmap. intros ([e' m] & Heq & Hin).
  simpl in Heq. injection Heq as -> ->.
  apply traced_elem in Hin. destruct Hin as (Hcand & Hcb & _).
  split; [exact Hcand|]. by exists m.
Qed.

(** The records of [tracedDOM] are those of [scanDOM], in order. *)
Lemma tracedDOM_records (doc : Document) (all : list Emitted) :
  scanDOM doc = Normal all ->
  map snd (tracedDOM doc) = map record all.
Proof.
  intros Hrun. unfold tracedDOM. rewrite Hrun.
  unfold scanDOM in Hrun.
  destruct (scanForms doc) as [forms|] eqn:Hf; [|discriminate].
  destruct (scanButtons doc) as [buttons|] eqn:Hb; [|discriminate].
  destruct (scanAnnotated doc) as [annotated|] eqn:Ha; [|discriminate].
  simpl in Hrun. injection Hrun as <-.
  rewrite !map_app, (tracedForms_records doc forms Hf).
  destruct (traced_pass doc _ _ _ Hb) as (Hbs & _).
  destruct (traced_pass doc _ _ _ Ha) as (Has & _).
  unfold tracedButtons, tracedAnnotated. rewrite Hbs, Has.
  rewrite !map_map. simpl. by rewrite !map_id.
Qed.

Lemma querySelectorAll_matches (doc : Document) (sel : Located -> bool)
    (e : Located) :
  e ∈ querySelectorAll doc sel -> sel e = true.
Proof. unfold querySelectorAll. rewrite list_elem_of_filter. tauto. Qed.

(** An element comes out of a pass only if its callback pushed it. *)
Lemma tracedDOM_elem (doc : Document) (e : Located) (r : ScannedElement) :
  (e, r) ∈ tracedDOM doc ->
  (e ∈ formCandidates doc
   /\ exists m, scanForm doc e = Normal (Some m) /\ record m = r)
  \/ (e ∈ buttonCandidates doc /\ scanButton doc e = Normal (Some r))
  \/ (e ∈ annotatedCandidates doc
      /\ scanAnnotatedElement doc e = Normal (Some r)).
Proof.
  unfold tracedDOM. destruct (scanDOM doc); [|by intros H%elem_of_nil].
  rewrite !elem_of_app. intros [H|[H|H]].
  - left. by apply tracedForms_elem.
  - right. left. apply traced_elem in H. tauto.
  - right. right. apply traced_elem in H. tauto.
Qed.

(** *** The ignore marker *)

(** A callback that finds the marker pushes nothing. *)
Lemma ignored_not_pushed (doc : Document) (e : Located) :
  isIgnored e = true ->
  (forall m, scanForm doc e <> Normal (Some m))
  /\ (forall r, scanButton doc e <> Normal (Some r))
  /\ (forall r, scanAnnotatedElement doc e <> Normal (Some r)).
Proof.
  intros Hign. unfold scanForm, scanButton, scanAnnotatedElement.
  rewrite Hign. destruct (exposes doc e "hasAttribute"); by repeat split.
Qed.

Lemma scanForm_kept (doc : Document) (e : Located) (m : Emitted) :
  scanForm doc e = Normal (Some m) -> isIgnored e = false.
Proof.
  intros Hscan. destruct (isIgnored e) eqn:Hign; [|reflexivity].
  destruct (ignored_not_pushed doc e Hign) as (Hno & _).
  destruct (Hno m Hscan).
Qed.

(** The marker is read on the elements the three passes visit.  A field
    inside a form is not such an element: the loop over the fields has no
    test for the marker. *)
Definition tokenField : Node :=
  el "input" [("name", "token"); ("data-tool-ignore", EmptyString)] [].

Definition loginForm : Node :=
  el "form" [("id", "login")] [el "input" [("name", "user")] []; tokenField].

Definition loginBody : Node := el "body" [] [loginForm].

Definition loginRoot : Node := el "html" [] [loginBody].

Definition loginDoc : Document :=
  plainDocument loginRoot (fun a => a ?? "/").

Definition tokenLocated : Located :=
  {| node := tokenField;
     chain := [(loginForm, 1%nat); (loginBody, 0%nat); (loginRoot, 0%nat)] |}.

Definition scannedField (name : string) : ScannedInput :=
  {| in_name := name; in_inputType := "text"; in_required := false;
     in_placeholder := None; in_label := None;
     in_overrideParamDescription := None |}.

(** C7, evaluated where it fails: the field named token of the login form
    carries data-tool-ignore and is an element of the document, and the
    scan result lists it among the inputs of the form; local generation
    then declares it as a parameter of the tool. *)
Theorem ignored_field_is_scanned :
  isIgnored tokenLocated = true
  /\ In tokenLocated (elementsFrom [] (root loginDoc))
  /\ scanDOM loginDoc
     = Normal
         [typed {| el_type := form; el_id := Some "login";
                   el_selector := "#login"; el_action := Some "/";
                   el_method := Some "GET";
                   el_inputs := Some [scannedField "user";
                                      scannedField "token"];
                   el_ariaLabel := None; el_textContent := None;
                   el_overrideName := None; el_overrideDescription := None;
                   el_overrideAnnotations := None |}]
  /\ (forall m, scanDOM loginDoc = Normal [m] ->
        is_Some (properties
                   (ts_parameters (Schema.localSchema (record m)))
                 !! "token")).
Proof.
  split; [reflexivity|]. split; [vm_compute; pick_member|].
  split; [reflexivity|].
  intros m Hm. vm_compute in Hm. injection Hm as <-.
  vm_compute. eauto.
Qed.

(** *** Identifying signals *)

(** An id, an accessible label, visible text, or a developer override. *)
Definition hasSignal (e : Located) : bool :=
  let n := node e in
  negb (Js.is_empty (id n))
  || Js.truthy (getAttribute "aria-label" n)
  || negb (Js.is_empty (Js.trim (textContent n)))
  || hasAttribute "data-tool-name" n
  || hasAttribute "data-tool-description" n
  || hasAttribute "data-tool-readonly" n
  || hasAttribute "data-tool-destructive" n
  || hasAttribute "data-tool-idempotent" n
  || hasAttribute "data-tool-open-world" n.

(** The form without attributes of the demo page. *)
Definition bareForm : Located :=
  {| node := el "form" [] [];
     chain := [(demoBody, 5%nat); (demoRoot, 1%nat)] |}.

(** C6, as stated, fails for forms: the form pass has no test for an
    identifying signal.  The bare form of the demo page has no id, no
    label, no text and no override, and it is in the scan result, later
    named unknown_form. *)
Lemma bare_form_is_scanned :
  hasSignal bareForm = false
  /\ exists r, In (bareForm, r) (tracedDOM demoDoc)
               /\ (exists all, scanDOM demoDoc = Normal all
                               /\ In (typed r) all)
               /\ el_type r = form
               /\ ts_name (Schema.localSchema r) = "unknown_form".
Proof.
  split; [reflexivity|]. eexists. split; [|split; [|split]].
  - vm_compute. pick_member.
  - eexists. split; [vm_compute; reflexivity|]. pick_member.
  - reflexivity.
  - reflexivity.
Qed.

Lemma truthy_non_empty (s : string) :
  Js.truthy (Js.non_empty s) = negb (Js.is_empty s).
Proof. by destruct s. Qed.

Lemma truthy_hasAttribute (name : string) (n : Node) :
  Js.truthy (getAttribute name n) = true -> hasAttribute name n = true.
Proof. unfold hasAttribute. by destruct (getAttribute name n). Qed.

Lemma insideForm_self (e : Located) :
  insideForm e = false -> hasTag "form" (node e) = false.
Proof.
  unfold insideForm, closest.
  by destruct (hasTag "form" (node e)).
Qed.

Lemma exposes_form (doc : Document) (e : Located) (name : string) :
  hasTag "form" (node e) = false -> exposes doc e name = false.
Proof. unfold exposes, property. by intros ->. Qed.

(** What [scanButton] requires of an element it pushes: it is outside
    every form, it is not ignored, and it has a name override, an
    accessible label, an id or visible text of its own. *)
Lemma scanButton_pushed (doc : Document) (e : Located) (r : ScannedElement) :
  scanButton doc e = Normal (Some r) ->
  r = buttonRecord e (readToolAttributes e)
  /\ isIgnored e = false /\ insideForm e = false
  /\ (Js.truthy (getAttribute "data-tool-name" (node e)) = true
      \/ Js.truthy (getAttribute "aria-label" (node e)) = true
      \/ Js.is_empty (id (node e)) = false
      \/ Js.is_empty (Js.trim (textContent (node e))) = false).
Proof.
  unfold scanButton.
  destruct (exposes doc e "hasAttribute"); [discriminate|].
  destruct (isIgnored e); [discriminate|].
  destruct (exposes doc e "getAttribute"); [discriminate|].
  destruct (exposes doc e "textContent"); [discriminate|].
  destruct (negb _ && negb _ && negb _ && negb _) eqn:Hnone;
    [discriminate|].
  destruct (exposes doc e "closest"); [discriminate|].
  destruct (insideForm e) eqn:Hout; [discriminate|].
  intros H. injection H as <-. repeat split.
  rewrite (exposes_form doc e "id" (insideForm_self e Hout)) in Hnone.
  rewrite !truthy_non_empty in Hnone. simpl in Hnone.
  destruct (Js.truthy (getAttribute "data-tool-name" (node e)));
    [by left|].
  destruct (Js.truthy (getAttribute "aria-label" (node e)));
    [by right; left|].
  destruct (Js.is_empty (id (node e))); [|by right; right; left].
  destruct (Js.is_empty (Js.trim (textContent (node e))));
    [discriminate | by right; right; right].
Qed.

Lemma scanAnnotated_pushed (doc : Document) (e : Located)
    (r : ScannedElement) :
  scanAnnotatedElement doc e = Normal (Some r) ->
  r = buttonRecord e (readToolAttributes e)
  /\ isIgnored e = false /\ insideForm e = false
  /\ matchesStandard e = false.
Proof.
  unfold scanAnnotatedElement.
  destruct (exposes doc e "hasAttribute"); [discriminate|].
  destruct (isIgnored e); [discriminate|].
  destruct (exposes doc e "matches"); [discriminate|].
  destruct (matchesStandard e) eqn:Hstd; [discriminate|].
  destruct (insideForm e) eqn:Hout; [discriminate|].
  intros H. injection H as <-. by repeat split.
Qed.

(** What [scanForm] pushes when it returns on a form that is not
    ignored. *)
Lemma scanForm_pushed (doc : Document) (e : Located) (pushed : option Emitted) :
  scanForm doc e = Normal pushed -> isIgnored e = false ->
  exists m inputs,
    pushed = Some m
    /\ forEach (scanInput doc) (descendants e isField) = Normal inputs
    /\ el_type (record m) = form
    /\ el_inputs (record m) = Some inputs
    /\ formSelector doc e = Normal (el_selector (record m))
    /\ el_overrideName (record m) = overrideName (readToolAttributes e)
    /\ el_overrideDescription (record m)
       = overrideDescription (readToolAttributes e)
    /\ el_overrideAnnotations (record m)
       = overrideAnnotations (readToolAttributes e)
    /\ idObject m = property doc e "id"
    /\ actionObject m = property doc e "action".
Proof.
  unfold scanForm. intros Hrun Hign. rewrite Hign in Hrun.
  destruct (exposes doc e "hasAttribute"); [discriminate|].
  destruct (exposes doc e "getAttribute"); [discriminate|].
  destruct (exposes doc e "querySelectorAll"); [discriminate|].
  destruct (forEach (scanInput doc) (descendants e isField))
    as [inputs|]; [|discriminate].
  simpl in Hrun.
  destruct (formSelector doc e) as [selector|]; [|discriminate].
  simpl in Hrun. destruct (exposes doc e "method"); [discriminate|].
  injection Hrun as <-. eexists _, inputs. by repeat split.
Qed.

(** C6 (amended): the button pass and the annotated pass emit no element
    without identifying signal (a button-like element needs a name
    override, an accessible label, an id or visible text; an annotated
    element carries the tool-name attribute), and what the passes return is
    what the elements they keep give.  The form pass does not filter on
    signals: whenever it returns, it has emitted every form that is not
    ignored, as a record of type form. *)
Theorem signalless_buttons_excluded (doc : Document) (e : Located) :
  hasSignal e = false ->
  (forall r, (e, r) ∉ tracedButtons doc)
  /\ (forall r, (e, r) ∉ tracedAnnotated doc)
  /\ (forall buttons, scanButtons doc = Normal buttons ->
        buttons = map snd (tracedButtons doc))
  /\ (forall annotated, scanAnnotated doc = Normal annotated ->
        annotated = map snd (tracedAnnotated doc))
  /\ (forall forms,
        scanForms doc = Normal forms ->
        map record forms = map snd (tracedForms doc)
        /\ (e ∈ formCandidates doc -> isIgnored e = false ->
            exists r, (e, r) ∈ tracedForms doc /\ In r (map record forms)
                      /\ el_type r = form)).
Proof.
  intros Hsig. unfold hasSignal in Hsig.
  repeat (apply orb_false_elim in Hsig; destruct Hsig as [Hsig ?]).
  apply negb_false_iff in Hsig.
  split; [|split; [|split; [|split]]].
  - intros r Hin. apply traced_elem in Hin. destruct Hin as (_ & Hscan & _).
    apply scanButton_pushed in Hscan.
    destruct Hscan as (_ & _ & _ & [Hn|[Hl|[Hi|Ht]]]).
    + apply truthy_hasAttribute in Hn. congruence.
    + congruence.
    + congruence.
    + match goal with H : negb _ = false |- _ =>
        apply negb_false_iff in H; congruence end.
  - intros r Hin. apply traced_elem in Hin. destruct Hin as (Hcand & _).
    apply querySelectorAll_matches in Hcand. congruence.
  - intros buttons Hrun. symmetry.
    by destruct (traced_pass doc _ _ _ Hrun) as (Hsnd & _).
  - intros annotated Hrun. symmetry.
    by destruct (traced_pass doc _ _ _ Hrun) as (Hsnd & _).
  - intros forms Hrun.
    pose proof (tracedForms_records doc forms Hrun) as Hrecords.
    split; [by symmetry|].
    intros Hcand Hign.
    destruct (traced_pass doc _ _ _ Hrun) as (_ & Hpushed & Hret).
    destruct (Hret e Hcand) as (pushed & Hcb).
    destruct (scanForm_pushed doc e pushed Hcb Hign)
      as (m & inputs & -> & _ & Htype & _).
    assert (Hin : (e, record m) ∈ tracedForms doc).
    { unfold tracedForms. apply list_elem_of_fmap.
      exists (e, m). split; [reflexivity|]. by apply Hpushed. }
    exists (record m). split; [exact Hin|]. split; [|exact Htype].
    rewrite <- Hrecords. apply list_elem_of_In, list_elem_of_fmap.
    by exists (e, record m).
Qed.

(** The button without content of the demo page. *)
Definition emptyButton : Located :=
  {| node := el "button" [] [];
     chain := [(demoBody, 4%nat); (demoRoot, 1%nat)] |}.

Lemma signalless_buttons_excluded_witness :
  (emptyButton ∈ buttonCandidates demoDoc
   /\ (forall r, (emptyButton, r) ∉ tracedButtons demoDoc)
   /\ (forall r, (emptyButton, r) ∉ tracedAnnotated demoDoc))
  /\ (bareForm ∈ formCandidates demoDoc
      /\ exists forms r,
           scanForms demoDoc = Normal forms
           /\ (bareForm, r) ∈ tracedForms demoDoc
           /\ In r (map record forms) /\ el_type r = form).
Proof.
  split.
  - split; [apply list_elem_of_In; vm_compute; pick_member|].
    destruct (signalless_buttons_excluded demoDoc emptyButton eq_refl)
      as (Hb & Ha & _).
    by split.
  - assert (Hcand : bareForm ∈ formCandidates demoDoc)
      by (apply list_elem_of_In; vm_compute; pick_member).
    split; [exact Hcand|].
    destruct (signalless_buttons_excluded demoDoc bareForm eq_refl)
      as (_ & _ & _ & _ & Hforms).
    destruct (scanForms demoDoc) as [forms|] eqn:Hrun;
      [|vm_compute in Hrun; discriminate].
    destruct (Hforms forms eq_refl) as (_ & Hemit).
    destruct (Hemit Hcand eq_refl) as (r & Hr).
    by exists forms, r.
Defined.

(** A button whose only content is a no-break space has no visible text:
    [trim] leaves nothing of it, and the button pass drops the element. *)
Definition blankButton : Located :=
  {| node := el "button" []
               [Text (String (Ascii.ascii_of_nat 194)
                        (String (Ascii.ascii_of_nat 160) EmptyString))];
     chain := [] |}.

Example blank_button_has_no_signal :
  hasSignal blankButton = false
  /\ scanButton demoDoc blankButton = Normal None.
Proof. split; reflexivity. Qed.

(** *** Scans that do not return *)

(** A field whose id holds a double quote: the selector text made from it
    is no selector, [document.querySelector] throws, and so does the whole
    scan, whatever else the page holds. *)
Definition quoteId : string := "a" +:+ Js.dq +:+ "b".

Definition quoteRoot : Node :=
  el "html" []
    [ el "body" []
        [ el "form" [("id", "f")]
            [ el "input" [("id", quoteId); ("name", "x")] [] ];
          el "button" [("id", "go")] [Text "Go"] ] ].

Definition quoteDoc : Document := plainDocument quoteRoot (fun a => a ?? "/").

Example quote_id_aborts_scan :
  plainId quoteId = false
  /\ scanForms quoteDoc
     = Throw (SyntaxError
                ("label[for=" +:+ Js.dq +:+ quoteId +:+ Js.dq
                 +:+ "] is not a valid selector"))
  /\ (exists e, scanDOM quoteDoc = Throw e)
  /\ tracedDOM quoteDoc = []
  /\ exists buttons, scanButtons quoteDoc = Normal buttons
                     /\ length buttons = 1%nat.
Proof.
  split; [reflexivity|]. split; [reflexivity|].
  split; [eexists; reflexivity|]. split; [reflexivity|].
  eexists. split; reflexivity.
Qed.

(** A form with a hidden field named id: [form.id] is the field, and the
    record holds it where its type says string. *)
Definition hiddenIdObject : DomObject :=
  {| shown := "[object HTMLInputElement]"; serialisable := true |}.

Definition orderRoot : Node :=
  el "html" []
    [ el "body" []
        [ el "form" [("id", "order"); ("method", "post")]
            [ el "input" [("type", "hidden"); ("name", "id")] [];
              el "input" [("name", "quantity"); ("type", "number")] [] ] ] ].

Definition orderDoc : Document :=
  {| root := orderRoot;
     resolveUrl := fun a => a ?? "/";
     named := fun f name =>
       if hasTag "form" (node f) && String.eqb name "id"
       then Some hiddenIdObject else None;
     clobbered := fun _ => false;
     querySelector := fun text =>
       Throw (SyntaxError (text +:+ " is not a valid selector"));
     shadowedSelector := fun _ => Normal EmptyString |}.

Example field_named_id_shadows_form_id :
  exists m, scanDOM orderDoc = Normal [m]
            /\ idObject m = Some hiddenIdObject
            /\ el_id (record m) = None
            /\ el_selector (record m) = "#[object HTMLInputElement]"
            /\ map in_name (el_inputs (record m) ?? []) = ["quantity"]
            /\ isTyped m = false.
Proof. eexists. repeat split. Qed.

End Scan.

(** ** The watcher's debounce *)

Section Debounce.

Import Watcher.

(** During a burst that began at [B - DEBOUNCE_MS] the watcher is in one
    of two states.  [Idle]: no timer is pending.  [Armed]: exactly one
    timer is pending, the one [debounceTimer] names, and it is due after
    the burst.  In both states no reconciliation has run since the state
    with the record [R]. *)
Definition Common (R : list (Reason * Z)) (B : Z) (w : Window) : Prop :=
  observer w = true /\ config w = true /\ reconciliations w = R
  /\ (time w < B)%Z.

Definition Idle (R : list (Reason * Z)) (B : Z) (w : Window) : Prop :=
  Common R B w /\ timers w = [].

Definition Armed (R : list (Reason * Z)) (B : Z) (w : Window) : Prop :=
  Common R B w
  /\ exists x, timers w = [x] /\ debounceTimer w = Some (timer_id x)
               /\ (B <= due x < B + DEBOUNCE_MS)%Z.

Lemma advanceTo_idle (R : list (Reason * Z)) (B t : Z) (w : Window) :
  Idle R B w -> (t < B)%Z ->
  Idle R B (advanceTo t w) /\ (t <= time (advanceTo t w))%Z
  /\ currentUrl (advanceTo t w) = currentUrl w.
Proof.
  intros [(Hobs & Hcfg & Hrec & Htime) Hts] Ht.
  unfold advanceTo. rewrite Hts. simpl.
  repeat split; simpl; try done; lia.
Qed.

Lemma advanceTo_armed (R : list (Reason * Z)) (B t : Z) (w : Window) :
  Armed R B w -> (t < B)%Z ->
  Armed R B (advanceTo t w) /\ (t <= time (advanceTo t w))%Z.
Proof.
  intros [(Hobs & Hcfg & Hrec & Htime) (x & Hts & Hdt & Hdue)] Ht.
  unfold advanceTo. rewrite Hts.
  rewrite (filter_cons_False (fun x => (due x <= t)%Z)) by lia.
  rewrite (filter_cons_True (fun x => ¬ (due x <= t)%Z)) by lia.
  rewrite !filter_nil. simpl.
  split; [|lia]. split; [repeat split; simpl; try done; lia|].
  exists x. split; [reflexivity|]. split; [exact Hdt | exact Hdue].
Qed.

(** [debouncedRescan] leaves exactly one timer, whatever was pending. *)
Lemma debouncedRescan_arms (R : list (Reason * Z)) (B : Z) (r : Reason)
    (w : Window) :
  Idle R B w \/ Armed R B w ->
  (B - DEBOUNCE_MS <= time w)%Z ->
  Armed R B (debouncedRescan r w).
Proof.
  intros Hstate Hlow. unfold debouncedRescan, clearTimeout.
  destruct Hstate as [[(Hobs & Hcfg & Hrec & Htime) Hts]
                     |[(Hobs & Hcfg & Hrec & Htime) (x & Hts & Hdt & Hdue)]].
  - destruct (debounceTimer w); simpl; rewrite ?Hts; simpl.
    all: split; [by repeat split|].
    all: eexists; split; [reflexivity|]; split; [reflexivity|]; simpl; lia.
  - rewrite Hdt. simpl. rewrite Hts.
    rewrite (filter_cons_False (fun t => timer_id t ≠ timer_id x))
      by (intros H; by apply H).
    rewrite filter_nil. simpl.
    split; [by repeat split|].
    eexists; split; [reflexivity|]; split; [reflexivity|]; simpl; lia.
Qed.

Lemma set_currentUrl_state (R : list (Reason * Z)) (B : Z) (u : string)
    (w : Window) :
  Idle R B w \/ Armed R B w ->
  Idle R B (set_currentUrl u w) \/ Armed R B (set_currentUrl u w).
Proof.
  intros [[Hc Hts]|[Hc Hx]]; [left|right]; split; try done.
Qed.

(** A signal in the burst either changes nothing or arms the timer. *)
Lemma deliver_state (R : list (Reason * Z)) (B : Z) (s : Signal)
    (w : Window) :
  Idle R B w \/ Armed R B w ->
  (B - DEBOUNCE_MS <= time w)%Z ->
  if triggers s w then Armed R B (deliver s w) else deliver s w = w.
Proof.
  intros Hstate Hlow.
  assert (Hobs : observer w = true)
    by (destruct Hstate as [[(H & _) _]|[(H & _) _]]; exact H).
  unfold triggers, deliver. rewrite Hobs. simpl.
  destruct s as [records|href]; simpl.
  - unfold observerCallback.
    destruct (existsb _ records); [|reflexivity].
    by apply debouncedRescan_arms.
  - unfold handleNavigation.
    destruct (String.eqb href (currentUrl w)); simpl; [reflexivity|].
    apply debouncedRescan_arms; [|exact Hlow].
    by apply set_currentUrl_state.
Qed.

(** All signals of the burst arrive in the window that ends at [B]. *)
Definition inWindow (B : Z) (signals : list (Z * Signal)) : Prop :=
  Forall (fun ts => (B - DEBOUNCE_MS <= fst ts < B)%Z) signals.

Lemma run_armed (R : list (Reason * Z)) (B : Z)
    (signals : list (Z * Signal)) (w : Window) :
  Armed R B w -> inWindow B signals -> Armed R B (run signals w).
Proof.
  revert w. induction signals as [|[t s] rest IH]; intros w Hw Hin;
    [exact Hw|].
  apply Forall_cons in Hin. destruct Hin as [Ht Hrest]. simpl in Ht.
  simpl. apply IH; [|exact Hrest].
  destruct (advanceTo_armed R B t w Hw) as [Ha Hle]; [lia|].
  pose proof (deliver_state R B s (advanceTo t w) (or_intror Ha)) as Hd.
  destruct (triggers s (advanceTo t w)).
  - apply Hd. lia.
  - rewrite Hd by lia. exact Ha.
Qed.

Lemma run_idle (R : list (Reason * Z)) (B : Z)
    (signals : list (Z * Signal)) (w : Window) :
  Idle R B w -> inWindow B signals ->
  if anyTrigger signals w then Armed R B (run signals w)
  else Idle R B (run signals w).
Proof.
  revert w. induction signals as [|[t s] rest IH]; intros w Hw Hin;
    [exact Hw|].
  apply Forall_cons in Hin. destruct Hin as [Ht Hrest]. simpl in Ht.
  simpl.
  destruct (advanceTo_idle R B t w Hw) as (Ha & Hle & _); [lia|].
  pose proof (deliver_state R B s (advanceTo t w) (or_introl Ha)) as Hd.
  destruct (triggers s (advanceTo t w)); simpl.
  - apply run_armed; [|exact Hrest]. apply Hd. lia.
  - rewrite Hd by lia. by apply IH.
Qed.

(** Once the burst is over, an armed timer fires once and an idle
    watcher stays idle. *)
Lemma settle_armed (R : list (Reason * Z)) (B T : Z) (w : Window) :
  Armed R B w -> (B + DEBOUNCE_MS <= T)%Z ->
  exists r t, reconciliations (advanceTo T w) = (R ++ [(r, t)])%list
              /\ timers (advanceTo T w) = [].
Proof.
  intros [(Hobs & Hcfg & Hrec & Htime) (x & Hts & Hdt & Hdue)] HT.
  unfold advanceTo. rewrite Hts.
  rewrite (filter_cons_True (fun x => (due x <= T)%Z)) by lia.
  rewrite (filter_cons_False (fun x => ¬ (due x <= T)%Z)) by lia.
  rewrite !filter_nil. simpl. unfold handleDOMChange. simpl.
  rewrite Hcfg. simpl. rewrite Hrec. eauto.
Qed.

Lemma settle_idle (R : list (Reason * Z)) (B T : Z) (w : Window) :
  Idle R B w ->
  reconciliations (advanceTo T w) = R /\ timers (advanceTo T w) = [].
Proof.
  intros [(Hobs & Hcfg & Hrec & Htime) Hts].
  unfold advanceTo. rewrite Hts. simpl. by split.
Qed.

(** *** Signals that follow one another closely

    Each signal arrives less than [DEBOUNCE_MS] after the one before. *)
Fixpoint sliding (prev : Z) (signals : list (Z * Signal)) : Prop :=
  match signals with
  | [] => True
  | (t, _) :: rest =>
      (prev <= t < prev + DEBOUNCE_MS)%Z /\ sliding t rest
  end.

(** The time of the last signal, [prev] when there is none. *)
Definition lastTime (prev : Z) (signals : list (Z * Signal)) : Z :=
  List.last (map fst signals) prev.

Lemma lastTime_cons (prev t : Z) (s : Signal) (rest : list (Z * Signal)) :
  lastTime prev ((t, s) :: rest) = lastTime t rest.
Proof.
  unfold lastTime. simpl. destruct rest as [|[t' s'] rest]; [reflexivity|].
  simpl. generalize (map fst rest). intros l. revert t'.
  induction l as [|a l IH]; intros t'; [reflexivity|]. simpl. apply IH.
Qed.

(** At most one timer is pending, and it is the one [debounceTimer]
    names. *)
Definition AtMostOne (R : list (Reason * Z)) (w : Window) : Prop :=
  observer w = true /\ config w = true /\ reconciliations w = R
  /\ (timers w = []
      \/ exists x, timers w = [x] /\ debounceTimer w = Some (timer_id x)).

(** One timer is pending and it was set just now. *)
Definition ArmedNow (R : list (Reason * Z)) (w : Window) : Prop :=
  observer w = true /\ config w = true /\ reconciliations w = R
  /\ exists x, timers w = [x] /\ debounceTimer w = Some (timer_id x)
               /\ due x = (time w + DEBOUNCE_MS)%Z.

Lemma ArmedNow_AtMostOne (R : list (Reason * Z)) (w : Window) :
  ArmedNow R w -> AtMostOne R w.
Proof.
  intros (Hobs & Hcfg & Hrec & x & Hts & Hdt & _).
  repeat split; try done. right. by exists x.
Qed.

Lemma debouncedRescan_now (R : list (Reason * Z)) (r : Reason) (w : Window) :
  AtMostOne R w ->
  ArmedNow R (debouncedRescan r w) /\ time (debouncedRescan r w) = time w.
Proof.
  intros (Hobs & Hcfg & Hrec & Hts). unfold debouncedRescan, clearTimeout.
  destruct Hts as [Hts|(x & Hts & Hdt)].
  - destruct (debounceTimer w); simpl; rewrite ?Hts; simpl.
    all: split; [|reflexivity].
    all: repeat split; try done.
    all: eexists; split; [reflexivity|]; by split.
  - rewrite Hdt. simpl. rewrite Hts.
    rewrite (filter_cons_False (fun t => timer_id t ≠ timer_id x))
      by (intros H; by apply H).
    rewrite filter_nil. simpl. split; [|reflexivity].
    repeat split; try done.
    eexists; split; [reflexivity|]; by split.
Qed.

Lemma deliver_now (R : list (Reason * Z)) (s : Signal) (w : Window) :
  AtMostOne R w -> triggers s w = true ->
  ArmedNow R (deliver s w) /\ time (deliver s w) = time w.
Proof.
  intros Hw Htrig. pose proof Hw as (Hobs & Hcfg & Hrec & Hts).
  unfold triggers in Htrig. unfold deliver. rewrite Hobs in *. simpl in *.
  destruct s as [records|href].
  - unfold observerCallback. rewrite Htrig. by apply debouncedRescan_now.
  - unfold handleNavigation.
    destruct (String.eqb href (currentUrl w)); [discriminate|].
    by apply (debouncedRescan_now R navigation (set_currentUrl href w)).
Qed.

Lemma advanceTo_now (R : list (Reason * Z)) (t : Z) (w : Window) :
  ArmedNow R w -> (time w <= t < time w + DEBOUNCE_MS)%Z ->
  AtMostOne R (advanceTo t w) /\ time (advanceTo t w) = t.
Proof.
  intros (Hobs & Hcfg & Hrec & x & Hts & Hdt & Hdue) Ht.
  unfold advanceTo. rewrite Hts.
  rewrite (filter_cons_False (fun x => (due x <= t)%Z)) by lia.
  rewrite (filter_cons_True (fun x => ¬ (due x <= t)%Z)) by lia.
  rewrite !filter_nil. simpl. split; [|lia].
  repeat split; try done. right. by exists x.
Qed.

Lemma advanceTo_quiet (R : list (Reason * Z)) (t : Z) (w : Window) :
  observer w = true -> config w = true -> reconciliations w = R ->
  timers w = [] -> (time w <= t)%Z ->
  AtMostOne R (advanceTo t w) /\ time (advanceTo t w) = t.
Proof.
  intros Hobs Hcfg Hrec Hts Ht. unfold advanceTo. rewrite Hts. simpl.
  split; [|lia]. repeat split; try done. by left.
Qed.

(** Signals that all reach the debounce and follow one another closely
    keep re-arming the one timer. *)
Lemma run_sliding (R : list (Reason * Z)) (rest : list (Z * Signal)) :
  forall (w : Window),
    ArmedNow R w -> sliding (time w) rest -> allTrigger rest w = true ->
    ArmedNow R (run rest w)
    /\ time (run rest w) = lastTime (time w) rest.
Proof.
  induction rest as [|[t s] rest IH]; intros w Hw Hsl Hall; [by split|].
  simpl in Hsl, Hall. destruct Hsl as [Ht Hsl].
  apply andb_true_iff in Hall. destruct Hall as [Htrig Hall].
  destruct (advanceTo_now R t w Hw Ht) as [Ha Hta].
  destruct (deliver_now R s _ Ha Htrig) as [Hd Htd].
  rewrite Hta in Htd. simpl. rewrite lastTime_cons.
  destruct (IH _ Hd) as [H1 H2]; [by rewrite Htd | exact Hall |].
  split; [exact H1 | by rewrite H2, Htd].
Qed.

Lemma sliding_prefix (pre post : list (Z * Signal)) :
  forall prev, sliding prev (pre ++ post) -> sliding prev pre.
Proof.
  induction pre as [|[t s] pre IH]; intros prev H; [exact I|].
  simpl in *. destruct H as [Ht H]. split; [exact Ht | by apply IH].
Qed.

Lemma allTrigger_prefix (pre post : list (Z * Signal)) :
  forall w, allTrigger (pre ++ post) w = true -> allTrigger pre w = true.
Proof.
  induction pre as [|[t s] pre IH]; intros w H; [reflexivity|].
  simpl in *. apply andb_true_iff in H. destruct H as [Htrig H].
  rewrite Htrig. simpl. by apply IH.
Qed.

Lemma settle_now (R : list (Reason * Z)) (T : Z) (w : Window) :
  ArmedNow R w -> (time w + DEBOUNCE_MS <= T)%Z ->
  exists r, reconciliations (advanceTo T w)
            = (R ++ [(r, (time w + DEBOUNCE_MS)%Z)])%list
            /\ timers (advanceTo T w) = [].
Proof.
  intros (Hobs & Hcfg & Hrec & x & Hts & Hdt & Hdue) HT.
  unfold advanceTo. rewrite Hts.
  rewrite (filter_cons_True (fun x => (due x <= T)%Z)) by lia.
  rewrite (filter_cons_False (fun x => ¬ (due x <= T)%Z)) by lia.
  rewrite !filter_nil. simpl. unfold handleDOMChange. simpl.
  rewrite Hcfg. simpl. rewrite Hrec, Hdue.
  exists (reason x). split; [|reflexivity].
  do 3 f_equal. unfold DEBOUNCE_MS. lia.
Qed.

(** A first signal that reaches the debounce arms the timer. *)
Lemma first_signal_arms (w : Window) (t : Z) (s : Signal) :
  observer w = true -> config w = true -> timers w = [] ->
  (time w <= t)%Z -> triggers s (advanceTo t w) = true ->
  ArmedNow (reconciliations w) (deliver s (advanceTo t w))
  /\ time (deliver s (advanceTo t w)) = t.
Proof.
  intros Hobs Hcfg Hts Ht Htrig.
  destruct (advanceTo_quiet (reconciliations w) t w Hobs Hcfg eq_refl Hts Ht)
    as [Ha Hta].
  destruct (deliver_now _ s _ Ha Htrig) as [Hd Htd].
  split; [exact Hd | by rewrite Htd].
Qed.

(** A mutation batch in which some record adds or removes a node. *)
Definition relevantMutation (s : Signal) : bool :=
  match s with
  | Mutations records =>
      existsb (fun m => (0 <? addedNodes m)%nat || (0 <? removedNodes m)%nat)
        records
  | Navigation _ => false
  end.

Lemma relevantMutation_triggers (s : Signal) (w : Window) :
  observer w = true -> relevantMutation s = true -> triggers s w = true.
Proof.
  intros Hobs Hrel. unfold triggers. rewrite Hobs.
  destruct s; [exact Hrel | discriminate].
Qed.

Lemma anyTrigger_relevant (R : list (Reason * Z)) (B : Z)
    (signals : list (Z * Signal)) (w : Window) :
  Idle R B w \/ Armed R B w ->
  inWindow B signals ->
  Exists (fun ts => relevantMutation (snd ts) = true) signals ->
  anyTrigger signals w = true.
Proof.
  revert w. induction signals as [|[t s] rest IH]; intros w Hw Hin Hex;
    [by apply Exists_nil in Hex|].
  apply Forall_cons in Hin. destruct Hin as [Ht Hrest]. simpl in Ht.
  simpl.
  assert (Hadv : (Idle R B (advanceTo t w) \/ Armed R B (advanceTo t w))
                 /\ (t <= time (advanceTo t w))%Z).
  { destruct Hw as [Hw|Hw].
    - destruct (advanceTo_idle R B t w Hw) as (Ha & Hle & _); [lia|].
      split; [by left | exact Hle].
    - destruct (advanceTo_armed R B t w Hw) as (Ha & Hle); [lia|].
      split; [by right | exact Hle]. }
  destruct Hadv as [Hstate Hle].
  pose proof (deliver_state R B s (advanceTo t w) Hstate) as Hd.
  destruct (triggers s (advanceTo t w)) eqn:Htrig; [reflexivity|].
  simpl. rewrite Hd by lia.
  apply IH; [exact Hstate | exact Hrest |].
  apply Exists_cons in Hex. destruct Hex as [Hrel|Hex]; [|exact Hex].
  simpl in Hrel.
  assert (Hobs : observer (advanceTo t w) = true)
    by (destruct Hstate as [[(H & _) _]|[(H & _) _]]; exact H).
  rewrite (relevantMutation_triggers s _ Hobs Hrel) in Htrig.
  discriminate.
Qed.

(** The module state before [startWatching], at time 0. *)
Definition initialWindow : Window :=
  {| time := 0; timers := []; next_id := 1%positive;
     observer := false; debounceTimer := None;
     currentUrl := EmptyString; config := false;
     reconciliations := [] |}.

Definition watching : Window :=
  startWatching "https://shop.example/" initialWindow.

(** C9, as stated, fails for navigation signals: a popstate or
    hashchange event that finds the location unchanged is dropped before
    the debounce, so a burst made of one such signal, delivered to an
    active watcher, produces no reconciliation at all. *)
Lemma same_location_navigation_is_dropped :
  observer watching = true
  /\ inWindow 400 [(100%Z, Navigation "https://shop.example/")]
  /\ reconciliations
       (advanceTo 1000
          (run [(100%Z, Navigation "https://shop.example/")] watching))
     = []
  /\ timers (run [(100%Z, Navigation "https://shop.example/")] watching)
     = [].
Proof.
  split; [reflexivity|]. split; [|split; reflexivity].
  apply Forall_cons. split; [|apply Forall_nil_2].
  unfold DEBOUNCE_MS. simpl. lia.
Qed.

(** C9 (amended): while the watcher is active and no timer is pending,
    every burst of N >= 1 signals that all reach the debounce (a mutation
    batch with an added or removed node, or a navigation to a location
    other than the last one seen), each arriving less than 300 ms after the
    one before, produces exactly one reconciliation, 300 ms after the last
    signal; during the burst exactly one timer is pending and no
    reconciliation runs, since each such signal cancels the pending timer
    before it sets the new one.  Signals that do not reach the debounce
    neither set nor cancel a timer: a burst of arbitrary signals that all
    arrive within one window of 300 ms produces exactly one reconciliation
    if at least one of them reaches the debounce (in particular if it
    contains a mutation batch with an added or removed node) and none
    otherwise, with at most one timer pending throughout. *)
Theorem burst_yields_one_reconciliation (w : Window) (t1 : Z) (s1 : Signal)
    (rest : list (Z * Signal)) (T : Z) :
  observer w = true -> config w = true -> timers w = [] ->
  (time w <= t1)%Z ->
  (sliding t1 rest ->
   allTrigger ((t1, s1) :: rest) w = true ->
   (lastTime t1 rest + DEBOUNCE_MS <= T)%Z ->
   (exists r, reconciliations (advanceTo T (run ((t1, s1) :: rest) w))
              = (reconciliations w
                 ++ [(r, (lastTime t1 rest + DEBOUNCE_MS)%Z)])%list)
   /\ timers (advanceTo T (run ((t1, s1) :: rest) w)) = []
   /\ (forall pre post, rest = (pre ++ post)%list ->
         length (timers (run ((t1, s1) :: pre) w)) = 1%nat
         /\ reconciliations (run ((t1, s1) :: pre) w) = reconciliations w))
  /\ (inWindow (t1 + DEBOUNCE_MS) ((t1, s1) :: rest) ->
      (t1 + 2 * DEBOUNCE_MS <= T)%Z ->
      length (reconciliations (advanceTo T (run ((t1, s1) :: rest) w)))
      = (length (reconciliations w)
         + (if anyTrigger ((t1, s1) :: rest) w then 1 else 0))%nat
      /\ timers (advanceTo T (run ((t1, s1) :: rest) w)) = []
      /\ (Exists (fun ts => relevantMutation (snd ts) = true)
            ((t1, s1) :: rest) ->
          anyTrigger ((t1, s1) :: rest) w = true)
      /\ (forall pre post, ((t1, s1) :: rest) = (pre ++ post)%list ->
            (length (timers (run pre w)) <= 1)%nat
            /\ reconciliations (run pre w) = reconciliations w)).
Proof.
  intros Hobs Hcfg Hts Htime. split.
  - (* every signal reaches the debounce *)
    intros Hsl Hall HT.
    assert (Hprefix : forall pre post, rest = (pre ++ post)%list ->
               ArmedNow (reconciliations w) (run ((t1, s1) :: pre) w)
               /\ time (run ((t1, s1) :: pre) w) = lastTime t1 pre).
    { intros pre post Hsplit. subst rest.
      simpl in Hall. apply andb_true_iff in Hall.
      destruct Hall as [Htrig Hall].
      destruct (first_signal_arms w t1 s1 Hobs Hcfg Hts Htime Htrig)
        as [Hd Htd].
      simpl.
      destruct (run_sliding (reconciliations w) pre _ Hd) as [H1 H2].
      - rewrite Htd. by apply (sliding_prefix pre post).
      - by apply (allTrigger_prefix pre post).
      - split; [exact H1 | by rewrite H2, Htd]. }
    destruct (Hprefix rest [] (eq_sym (app_nil_r rest))) as [Hrun Hlast].
    destruct (settle_now _ T _ Hrun) as (r & Hrec & Htimers);
      [rewrite Hlast; lia|].
    rewrite Hlast in Hrec.
    split; [by exists r|]. split; [exact Htimers|].
    intros pre post Hsplit.
    destruct (Hprefix pre post Hsplit)
      as [(_ & _ & Hrec' & x & Hx & _) _].
    rewrite Hx. by split.
  - (* arbitrary signals within one window *)
    intros Hin HT.
    set (signals := (t1, s1) :: rest) in *.
    set (B := (t1 + DEBOUNCE_MS)%Z) in *.
    assert (Hidle : Idle (reconciliations w) B w).
    { split; [|exact Hts]. repeat split; try done.
      unfold B, DEBOUNCE_MS. lia. }
    split; [|split; [|split]].
    + pose proof (run_idle _ B signals w Hidle Hin) as Hrun.
      destruct (anyTrigger signals w).
      * destruct (settle_armed _ B T _ Hrun) as (r & t & Hrec & _).
        { unfold B, DEBOUNCE_MS in *. lia. }
        rewrite Hrec, length_app. reflexivity.
      * destruct (settle_idle _ B T _ Hrun) as [Hrec _].
        rewrite Hrec. lia.
    + pose proof (run_idle _ B signals w Hidle Hin) as Hrun.
      destruct (anyTrigger signals w).
      * destruct (settle_armed _ B T _ Hrun) as (r & t & _ & Htimers).
        { unfold B, DEBOUNCE_MS in *. lia. }
        exact Htimers.
      * by destruct (settle_idle _ B T _ Hrun) as [_ Htimers].
    + intros Hex.
      by apply (anyTrigger_relevant _ B signals w (or_introl Hidle)).
    + intros pre post Hsplit. rewrite Hsplit in Hin.
      apply Forall_app in Hin. destruct Hin as [Hpre _].
      pose proof (run_idle _ B pre w Hidle Hpre) as Hrun.
      destruct (anyTrigger pre w).
      * destruct Hrun as [(_ & _ & Hrec & _) (x & Hx & _)].
        rewrite Hx. split; [simpl; lia | exact Hrec].
      * destruct Hrun as [(_ & _ & Hrec & _) Hx].
        rewrite Hx. split; [simpl; lia | exact Hrec].
Qed.

(** Three signals, each less than 300 ms after the one before and all
    within 300 ms: a node added, a navigation to the cart, two nodes
    removed. *)
Definition firstSignal : Signal :=
  Mutations [{| addedNodes := 1; removedNodes := 0 |}].

Definition laterSignals : list (Z * Signal) :=
  [ (180%Z, Navigation "https://shop.example/#cart");
    (390%Z, Mutations [{| addedNodes := 0; removedNodes := 2 |}]) ].

Definition burst : list (Z * Signal) := (100%Z, firstSignal) :: laterSignals.

Lemma burst_inWindow : inWindow (100 + DEBOUNCE_MS) burst.
Proof.
  unfold burst, laterSignals, inWindow, DEBOUNCE_MS.
  repeat (apply Forall_cons; split; [simpl; lia|]). apply Forall_nil_2.
Defined.

Lemma laterSignals_sliding : sliding 100 laterSignals.
Proof. unfold laterSignals. simpl. unfold DEBOUNCE_MS. lia. Defined.

Lemma burst_yields_one_reconciliation_witness :
  ((exists r, reconciliations (advanceTo 700 (run burst watching))
              = (reconciliations watching
                 ++ [(r, (lastTime 100 laterSignals + DEBOUNCE_MS)%Z)])%list)
   /\ timers (advanceTo 700 (run burst watching)) = []
   /\ (forall pre post, laterSignals = (pre ++ post)%list ->
         length (timers (run ((100%Z, firstSignal) :: pre) watching)) = 1%nat
         /\ reconciliations (run ((100%Z, firstSignal) :: pre) watching)
            = reconciliations watching))
  /\ (length (reconciliations (advanceTo 700 (run burst watching)))
      = (length (reconciliations watching)
         + (if anyTrigger burst watching then 1 else 0))%nat
      /\ timers (advanceTo 700 (run burst watching)) = []
      /\ (Exists (fun ts => relevantMutation (snd ts) = true) burst ->
          anyTrigger burst watching = true)
      /\ (forall pre post, burst = (pre ++ post)%list ->
            (length (timers (run pre watching)) <= 1)%nat
            /\ reconciliations (run pre watching) = reconciliations watching)).
Proof.
  assert (Htime : (time watching <= 100)%Z) by (simpl; lia).
  destruct (burst_yields_one_reconciliation watching 100 firstSignal
              laterSignals 700 eq_refl eq_refl eq_refl Htime)
    as [Hclose Hwindow].
  split.
  - apply Hclose; [exact laterSignals_sliding | reflexivity |].
    unfold lastTime, laterSignals, DEBOUNCE_MS. simpl. lia.
  - apply Hwindow; [exact burst_inWindow|]. unfold DEBOUNCE_MS. lia.
Defined.

(** The burst ends in one reconciliation, 300 ms after its last signal,
    for the reason of that signal. *)
Example burst_reconciled_once :
  reconciliations (advanceTo 700 (run burst watching)) = [(mutation, 690%Z)]
  /\ map (fun pre => length (timers (run pre watching)))
       [firstn 1 burst; firstn 2 burst; firstn 3 burst]
     = [1%nat; 1%nat; 1%nat].
Proof. split; reflexivity. Qed.

End Debounce.


(** * Further properties of the pipeline *)

(** ** Tool names *)

Section ToolNames.

Import Schema.

Definition underscore : ascii := "_"%char.

(** A character of a tool name: a lower-case letter, a digit or an
    underscore. *)
Definition is_name_char (c : ascii) : bool :=
  is_token_char c || Ascii.eqb c underscore.

Fixpoint all_chars (P : ascii -> bool) (s : string) : bool :=
  match s with
  | EmptyString => true
  | String c s' => P c && all_chars P s'
  end.

Definition starts_with_underscore (s : string) : bool :=
  match s with
  | String c _ => Ascii.eqb c underscore
  | EmptyString => false
  end.

Fixpoint ends_with_underscore (s : string) : bool :=
  match s with
  | EmptyString => false
  | String c EmptyString => Ascii.eqb c underscore
  | String _ s' => ends_with_underscore s'
  end.

(** No two underscores in a row. *)
Fixpoint single_underscores (s : string) : bool :=
  match s with
  | EmptyString => true
  | String c s' =>
      negb (Ascii.eqb c underscore && starts_with_underscore s')
      && single_underscores s'
  end.

(** A well-formed tool name. *)
Definition is_tool_name (s : string) : bool :=
  all_chars is_name_char s && single_underscores s
  && negb (starts_with_underscore s) && negb (ends_with_underscore s).

Lemma token_not_underscore (c : ascii) :
  is_token_char c = true -> Ascii.eqb c underscore = false.
Proof.
  destruct c as [[] [] [] [] [] [] [] []]; try reflexivity; discriminate.
Qed.

Lemma name_char_lower (c : ascii) :
  is_name_char c = true -> Js.lower_char c = c.
Proof.
  destruct c as [[] [] [] [] [] [] [] []]; try reflexivity; discriminate.
Qed.

Lemma strip_leading_cases (c : ascii) (s : string) :
  strip_leading_underscore (String c s)
  = if Ascii.eqb c underscore then s else String c s.
Proof. destruct c as [[] [] [] [] [] [] [] []]; reflexivity. Qed.

Lemma strip_trailing_cons (c c' : ascii) (s : string) :
  strip_trailing_underscore (String c (String c' s))
  = String c (strip_trailing_underscore (String c' s)).
Proof. reflexivity. Qed.

Lemma collapse_runs_chars (s : string) :
  forall in_run, all_chars is_name_char (collapse_runs in_run s) = true.
Proof.
  induction s as [|c s IH]; intros in_run; [reflexivity|]. simpl.
  destruct (is_token_char c) eqn:Htok.
  - simpl. unfold is_name_char at 1. rewrite Htok. simpl. apply IH.
  - destruct in_run; [apply IH|]. simpl. apply IH.
Qed.

(** Inside a run nothing is emitted until the next kept character, so the
    output never begins with an underscore there; and no output has two
    underscores in a row. *)
Lemma collapse_runs_shape (s : string) :
  forall in_run,
    single_underscores (collapse_runs in_run s) = true
    /\ (in_run = true ->
        starts_with_underscore (collapse_runs in_run s) = false).
Proof.
  induction s as [|c s IH]; intros in_run; [by split|]. simpl.
  destruct (is_token_char c) eqn:Htok.
  - destruct (IH false) as [Hs _]. simpl.
    rewrite (token_not_underscore c Htok). simpl. by split.
  - destruct (IH true) as [Hs Hh]. destruct in_run; [by split|].
    simpl. rewrite (Hh eq_refl). simpl. by split.
Qed.

Lemma strip_leading_shape (s : string) :
  all_chars is_name_char s = true -> single_underscores s = true ->
  all_chars is_name_char (strip_leading_underscore s) = true
  /\ single_underscores (strip_leading_underscore s) = true
  /\ starts_with_underscore (strip_leading_underscore s) = false.
Proof.
  intros Hc Hs. destruct s as [|c s]; [by repeat split|].
  rewrite strip_leading_cases.
  simpl in Hc, Hs. apply andb_true_iff in Hc. destruct Hc as [Hc Hcs].
  apply andb_true_iff in Hs. destruct Hs as [Hd Hs].
  destruct (Ascii.eqb c underscore) eqn:Hu.
  - simpl in Hd. repeat split; try done.
    by destruct (starts_with_underscore s).
  - simpl. rewrite Hc, Hcs, Hs, Hu. by repeat split.
Qed.

Lemma strip_trailing_chars (s : string) :
  all_chars is_name_char s = true ->
  all_chars is_name_char (strip_trailing_underscore s) = true.
Proof.
  induction s as [|c s IH]; intros Hc; [reflexivity|].
  simpl in Hc. apply andb_true_iff in Hc. destruct Hc as [Hc Hcs].
  destruct s as [|c' s'].
  - simpl. destruct (Ascii.eqb c "_"); [reflexivity|]. simpl. by rewrite Hc.
  - rewrite strip_trailing_cons.
    change (is_name_char c
            && all_chars is_name_char
                 (strip_trailing_underscore (String c' s')) = true).
    rewrite Hc. simpl. by apply IH.
Qed.

Lemma strip_trailing_head (s : string) :
  starts_with_underscore s = false ->
  starts_with_underscore (strip_trailing_underscore s) = false.
Proof.
  destruct s as [|c [|c' s']]; intros H; [reflexivity| |exact H].
  simpl in *. unfold underscore in H. by rewrite H.
Qed.

Lemma strip_trailing_single (s : string) :
  single_underscores s = true ->
  single_underscores (strip_trailing_underscore s) = true.
Proof.
  induction s as [|c s IH]; intros Hs; [reflexivity|].
  simpl in Hs. apply andb_true_iff in Hs. destruct Hs as [Hd Hs].
  destruct s as [|c' s'].
  - simpl. destruct (Ascii.eqb c "_") eqn:Hu; [reflexivity|].
    simpl. unfold underscore. by rewrite Hu.
  - rewrite strip_trailing_cons.
    change (negb (Ascii.eqb c underscore
                  && starts_with_underscore
                       (strip_trailing_underscore (String c' s')))
            && single_underscores
                 (strip_trailing_underscore (String c' s')) = true).
    rewrite (IH Hs), andb_true_r.
    destruct (Ascii.eqb c underscore); [|reflexivity]. simpl in Hd.
    apply negb_true_iff in Hd.
    rewrite (strip_trailing_head (String c' s') Hd). reflexivity.
Qed.

Lemma strip_trailing_end (s : string) :
  single_underscores s = true ->
  ends_with_underscore (strip_trailing_underscore s) = false.
Proof.
  induction s as [|c s IH]; intros Hs; [reflexivity|].
  simpl in Hs. apply andb_true_iff in Hs. destruct Hs as [Hd Hs].
  destruct s as [|c' s'].
  - simpl. destruct (Ascii.eqb c "_") eqn:Hu; [reflexivity|].
    simpl. exact Hu.
  - rewrite strip_trailing_cons. specialize (IH Hs).
    destruct (strip_trailing_underscore (String c' s')) as [|d t] eqn:Hst.
    + (* the tail was a lone underscore *)
      destruct s' as [|c'' s'']; [|discriminate Hst].
      simpl in Hst. destruct (Ascii.eqb c' "_") eqn:Hu'; [|discriminate].
      simpl in Hd. unfold underscore in Hd. rewrite Hu' in Hd.
      rewrite andb_true_r in Hd. apply negb_true_iff in Hd. exact Hd.
    + exact IH.
Qed.

Lemma toToolName_shape (raw : string) :
  is_tool_name (toToolName raw) = true.
Proof.
  unfold toToolName, is_tool_name.
  set (s := collapse_runs false (Js.toLowerCase raw)).
  pose proof (collapse_runs_chars (Js.toLowerCase raw) false) as Hc.
  destruct (collapse_runs_shape (Js.toLowerCase raw) false) as [Hs _].
  fold s in Hc, Hs.
  destruct (strip_leading_shape s Hc Hs) as (Hc1 & Hs1 & Hh1).
  rewrite (strip_trailing_chars _ Hc1), (strip_trailing_single _ Hs1),
    (strip_trailing_head _ Hh1), (strip_trailing_end _ Hs1).
  reflexivity.
Qed.

Lemma is_tool_name_parts (s : string) :
  is_tool_name s = true ->
  all_chars is_name_char s = true /\ single_underscores s = true
  /\ starts_with_underscore s = false /\ ends_with_underscore s = false.
Proof.
  unfold is_tool_name. intros H.
  repeat (apply andb_true_iff in H; destruct H as [H ?]).
  repeat match goal with
         | H : negb _ = true |- _ => apply negb_true_iff in H
         end.
  by repeat split.
Qed.

Lemma name_char_ascii (c : ascii) :
  is_name_char c = true ->
  Js.byte_is c 196 = false /\ Js.byte_is c 226 = false.
Proof.
  destruct c as [[] [] [] [] [] [] [] []]; try (split; reflexivity);
    discriminate.
Qed.

Lemma toLowerCase_cons (c : ascii) (s : string) :
  Js.byte_is c 196 = false -> Js.byte_is c 226 = false ->
  Js.toLowerCase (String c s) = String (Js.lower_char c) (Js.toLowerCase s).
Proof.
  intros H1 H2. destruct s as [|c1 [|c2 s]]; cbn [Js.toLowerCase];
    rewrite ?H1, ?H2; reflexivity.
Qed.

Lemma toLowerCase_name (s : string) :
  all_chars is_name_char s = true -> Js.toLowerCase s = s.
Proof.
  induction s as [|c s IH]; intros Hc; [reflexivity|].
  simpl in Hc. apply andb_true_iff in Hc. destruct Hc as [Hc Hcs].
  destruct (name_char_ascii c Hc) as [H1 H2].
  by rewrite (toLowerCase_cons c s H1 H2), (name_char_lower c Hc), (IH Hcs).
Qed.

Lemma name_char_cases (c : ascii) :
  is_name_char c = true -> is_token_char c = false ->
  Ascii.eqb c underscore = true.
Proof. unfold is_name_char. intros H Ht. by rewrite Ht in H. Qed.

(** On a name, nothing is collapsed. *)
Lemma collapse_runs_name (s : string) :
  forall in_run,
    all_chars is_name_char s = true -> single_underscores s = true ->
    (in_run = true -> starts_with_underscore s = false) ->
    collapse_runs in_run s = s.
Proof.
  induction s as [|c s IH]; intros in_run Hc Hs Hh; [reflexivity|].
  simpl in Hc, Hs. apply andb_true_iff in Hc. destruct Hc as [Hc Hcs].
  apply andb_true_iff in Hs. destruct Hs as [Hd Hs].
  simpl. destruct (is_token_char c) eqn:Htok.
  - f_equal. apply IH; try done.
  - pose proof (name_char_cases c Hc Htok) as Hu.
    destruct in_run.
    + specialize (Hh eq_refl). simpl in Hh. congruence.
    + apply Ascii.eqb_eq in Hu as Hu'. subst c. f_equal.
      apply IH; try done. intros _.
      simpl in Hd. by apply negb_true_iff in Hd.
Qed.

Lemma strip_trailing_name (s : string) :
  ends_with_underscore s = false -> strip_trailing_underscore s = s.
Proof.
  induction s as [|c s IH]; intros He; [reflexivity|].
  destruct s as [|c' s'].
  - simpl in *. unfold underscore in He. by rewrite He.
  - rewrite strip_trailing_cons. f_equal. by apply IH.
Qed.

(** A well-formed name is left as it is. *)
Lemma toToolName_fixed (s : string) :
  is_tool_name s = true -> toToolName s = s.
Proof.
  intros H. apply is_tool_name_parts in H.
  destruct H as (Hc & Hs & Hh & He).
  unfold toToolName. rewrite (toLowerCase_name s Hc).
  rewrite (collapse_runs_name s false Hc Hs) by discriminate.
  destruct s as [|c s]; [reflexivity|].
  rewrite strip_leading_cases. simpl in Hh. rewrite Hh.
  by apply strip_trailing_name.
Qed.

(** X1: whatever the text, [toToolName] yields a token-safe name: only
    lower-case letters, digits and underscores, no underscore at either
    end and no two underscores in a row. *)
Theorem toToolName_is_token_safe (raw : string) :
  all_chars is_name_char (toToolName raw) = true
  /\ single_underscores (toToolName raw) = true
  /\ starts_with_underscore (toToolName raw) = false
  /\ ends_with_underscore (toToolName raw) = false.
Proof.
  apply is_tool_name_parts. apply toToolName_shape.
Qed.

(** X2: normalising a name twice is the same as normalising it once;
    more generally every token-safe name is left unchanged. *)
Theorem toToolName_idempotent (raw : string) :
  toToolName (toToolName raw) = toToolName raw
  /\ (forall s, is_tool_name s = true -> toToolName s = s).
Proof.
  split.
  - apply toToolName_fixed. apply toToolName_shape.
  - exact toToolName_fixed.
Qed.

Example toToolName_examples :
  toToolName "  Delete -- My Account!! " = "delete_my_account"
  /\ toToolName "search_products" = "search_products"
  /\ toToolName "!!!" = EmptyString.
Proof. repeat split. Qed.

End ToolNames.

(** ** Parameter schemas *)

Section ParameterSchemas.

Import Schema.

Lemma fold_addInput_required (inputs : list ScannedInput) :
  forall acc,
    required (fold_left addInput inputs acc)
    = (required acc
       ++ map in_name (List.filter in_required inputs))%list.
Proof.
  induction inputs as [|i l IH]; intros acc; simpl;
    [by rewrite app_nil_r|].
  rewrite IH. simpl. destruct (in_required i); simpl;
    [by rewrite <- app_assoc | reflexivity].
Qed.

Lemma fold_addInput_keys (inputs : list ScannedInput) :
  forall acc name,
    is_Some (properties (fold_left addInput inputs acc) !! name)
    <-> is_Some (properties acc !! name)
        \/ (name <> "__proto__" /\ In name (map in_name inputs)).
Proof.
  induction inputs as [|i l IH]; intros acc name; simpl; [tauto|].
  rewrite IH. simpl.
  destruct (decide (in_name i = name)) as [Heq|Hne].
  - destruct (decide (name = "__proto__")) as [Hp|Hp].
    + rewrite Heq, Hp, assign_lookup_proto. tauto.
    + rewrite Heq, assign_lookup_eq by exact Hp.
      split; [intros _|intros _; left; eauto]. right. split; [done|by left].
  - rewrite assign_lookup_ne by done. tauto.
Qed.

Lemma find_append {A : Type} (f : A -> bool) (l1 l2 : list A) :
  List.find f (l1 ++ l2)%list
  = match List.find f l1 with
    | Some x => Some x
    | None => List.find f l2
    end.
Proof.
  induction l1 as [|a l IH]; [reflexivity|]. simpl.
  destruct (f a); [reflexivity | exact IH].
Qed.

(** The last field of a name decides the property stored under it. *)
Lemma fold_addInput_last (inputs : list ScannedInput) :
  forall acc name,
    name <> "__proto__" ->
    properties (fold_left addInput inputs acc) !! name
    = match List.find (fun i => String.eqb (in_name i) name) (rev inputs) with
      | Some i => Some (paramProperty i)
      | None => properties acc !! name
      end.
Proof.
  induction inputs as [|i l IH]; intros acc name Hp; [reflexivity|].
  simpl. rewrite IH by exact Hp. rewrite find_append.
  destruct (List.find _ (rev l)); [reflexivity|]. simpl.
  destruct (String.eqb_spec (in_name i) name) as [Heq|Hne].
  - by rewrite Heq, assign_lookup_eq.
  - by rewrite assign_lookup_ne.
Qed.

(** X3: the parameter schema built from the fields of a form has one
    property per field name other than __proto__ (the assignment to that
    key adds no property), and lists as required exactly the names of the
    required fields, in field order; every required name other than
    __proto__ is therefore declared, while a required field named
    __proto__ is required without being declared.  When two fields share
    a name, the later field decides the declared property. *)
Theorem inputsToSchema_declares_fields (e : ScannedElement) :
  let inputs := el_inputs e ?? [] in
  (forall name, is_Some (properties (inputsToSchema e) !! name)
                <-> name <> "__proto__" /\ In name (map in_name inputs))
  /\ required (inputsToSchema e)
     = map in_name (List.filter in_required inputs)
  /\ (forall name, In name (required (inputsToSchema e)) ->
        if String.eqb name "__proto__"
        then properties (inputsToSchema e) !! name = None
        else is_Some (properties (inputsToSchema e) !! name))
  /\ (forall name,
        properties (inputsToSchema e) !! name
        = if String.eqb name "__proto__" then None
          else paramProperty
                 <$> List.find (fun i => String.eqb (in_name i) name)
                       (rev inputs)).
Proof.
  assert (Hfold : inputsToSchema e
                  = fold_left addInput (el_inputs e ?? []) emptySchema).
  { unfold inputsToSchema. by destruct (el_inputs e). }
  simpl. rewrite Hfold.
  assert (Hkeys : forall name,
             is_Some (properties
                        (fold_left addInput (el_inputs e ?? []) emptySchema)
                      !! name)
             <-> name <> "__proto__"
                 /\ In name (map in_name (el_inputs e ?? []))).
  { intros name. rewrite fold_addInput_keys. simpl. rewrite lookup_empty.
    split; [intros [H|H]; [by destruct H | exact H] | by right]. }
  assert (Hproto : properties
                     (fold_left addInput (el_inputs e ?? []) emptySchema)
                   !! "__proto__" = None).
  { apply eq_None_not_Some. intros H. apply Hkeys in H. by destruct H. }
  split; [exact Hkeys|]. split; [apply fold_addInput_required|]. split.
  - intros name Hin.
    destruct (String.eqb_spec name "__proto__") as [->|Hp]; [exact Hproto|].
    apply Hkeys. split; [exact Hp|].
    rewrite fold_addInput_required in Hin. simpl in Hin.
    apply in_map_iff in Hin. destruct Hin as (i & <- & Hi).
    apply filter_In in Hi. apply in_map. tauto.
  - intros name.
    destruct (String.eqb_spec name "__proto__") as [->|Hp]; [exact Hproto|].
    rewrite fold_addInput_last by exact Hp. simpl.
    destruct (List.find _ _); [reflexivity | apply lookup_empty].
Qed.

(** The form of one required field named __proto__: the descriptor
    requires the parameter and declares none. *)
Example proto_field_required_undeclared :
  properties (inputsToSchema protoForm) = ∅
  /\ required (inputsToSchema protoForm) = ["__proto__"].
Proof. split; reflexivity. Qed.

End ParameterSchemas.

(** ** More on synthesis and its cache *)

Section SynthesisPolicy.

Import Schema.

Ltac eval_cache :=
  cbv beta iota zeta delta
    [getCachedSchemas cacheSchemas try_catch bind get ret throw cacheKey
     getItem removeItem setItem modify storage_defined negb keyOf] in *;
  repeat (match goal with H : _ = _ |- _ => rewrite H end;
          cbv beta iota zeta).

(** An entry older than the time to live is removed and not served. *)
Lemma getCachedSchemas_expired (b : Browser) (items : gmap string StoredItem)
    (schemas : list ToolSchema) (timestamp : Z) :
  localStorage b = Available items ->
  items !! keyOf b = Some (Entry schemas timestamp) ->
  (CACHE_TTL_MS < now b - timestamp)%Z ->
  getCachedSchemas b
  = (Normal None, set_storage (Available (delete (keyOf b) items)) b).
Proof.
  intros Hst Hitem Hold.
  assert (Hexp : (CACHE_TTL_MS <? now b - timestamp)%Z = true)
    by (apply Z.ltb_lt; lia).
  by eval_cache.
Qed.

Lemma allOverridden_local (elements : list ScannedElement) :
  allOverridden elements = true ->
  Forall2 (fun e s => el_overrideName e = Some (ts_name s)
                      /\ el_overrideDescription e = Some (ts_description s))
    elements (generateLocalSchemas elements).
Proof.
  rewrite generateLocalSchemas_map. unfold allOverridden.
  induction elements as [|e l IH]; intros Hall; [constructor|].
  simpl in Hall. apply andb_true_iff in Hall. destruct Hall as [He Hl].
  apply andb_true_iff in He. destruct He as [Hn Hd].
  simpl. constructor; [|by apply IH].
  unfold localSchema.
  destruct (el_overrideName e) as [n|] eqn:En; [|discriminate].
  destruct (el_overrideDescription e) as [d|] eqn:Ed; [|discriminate].
  destruct (el_type e); simpl; by rewrite En, Ed.
Qed.

(** X4: when every element carries a name override and a description
    override, [fetchSchemas] sends no request and takes no time, whatever
    the endpoint and the state of the remote service: it returns the cache
    entry if one is served, and otherwise the local descriptors, whose
    names and descriptions are the overrides. *)
Theorem all_overridden_skips_remote (elements : list ScannedElement)
    (endpoint : option string) (skipCache : bool) (remote : Remote)
    (b : Browser) :
  allOverridden elements = true ->
  exists schemas b',
    fetchSchemas elements endpoint skipCache remote b = (Normal schemas, b')
    /\ requests b' = requests b /\ now b' = now b
    /\ (schemas = generateLocalSchemas elements
        \/ (skipCache = false
            /\ getCachedSchemas b = (Normal (Some schemas), b')))
    /\ (skipCache = true -> schemas = generateLocalSchemas elements)
    /\ Forall2 (fun e s => el_overrideName e = Some (ts_name s)
                           /\ el_overrideDescription e
                              = Some (ts_description s))
         elements (generateLocalSchemas elements).
Proof.
  intros Hall.
  destruct (cacheCheck_total skipCache b)
    as (o & b1 & Hcheck & (_ & _ & Hnow & Hreq) & _ & Hskip).
  pose proof (fetchSchemas_stages elements endpoint skipCache remote b o b1
                Hcheck) as Hstage.
  rewrite Hall in Hstage.
  destruct o as [cached|].
  - exists cached, b1. split; [exact Hstage|]. split; [exact Hreq|].
    split; [exact Hnow|]. split; [|split].
    + right. destruct skipCache; [by destruct (Hskip eq_refl)|].
      by split.
    + intros ->. by destruct (Hskip eq_refl).
    + by apply allOverridden_local.
  - exists (generateLocalSchemas elements), b1.
    split; [exact Hstage|]. split; [exact Hreq|]. split; [exact Hnow|].
    split; [by left|]. split; [done|]. by apply allOverridden_local.
Qed.

(** The overridden feedback form and support widget of the README. *)
Definition supportWidget : ScannedElement :=
  {| el_type := button; el_id := Some "chat-widget";
     el_selector := "#chat-widget";
     el_action := None; el_method := None; el_inputs := None;
     el_ariaLabel := None; el_textContent := Some "Need help?";
     el_overrideName := Some "open_support_chat";
     el_overrideDescription := Some "Open the live support chat widget";
     el_overrideAnnotations :=
       Some {| readOnlyHint := Some true; destructiveHint := None;
               idempotentHint := None; openWorldHint := None |} |}.

Lemma all_overridden_skips_remote_witness :
  exists schemas b',
    fetchSchemas [feedbackForm; supportWidget] apiEndpoint true healthy
      shopBrowser = (Normal schemas, b')
    /\ requests b' = requests shopBrowser /\ now b' = now shopBrowser
    /\ (schemas = generateLocalSchemas [feedbackForm; supportWidget]
        \/ (true = false
            /\ getCachedSchemas shopBrowser = (Normal (Some schemas), b')))
    /\ (true = true ->
        schemas = generateLocalSchemas [feedbackForm; supportWidget])
    /\ Forall2 (fun e s => el_overrideName e = Some (ts_name s)
                           /\ el_overrideDescription e
                              = Some (ts_description s))
         [feedbackForm; supportWidget]
         (generateLocalSchemas [feedbackForm; supportWidget]).
Proof.
  exact (all_overridden_skips_remote [feedbackForm; supportWidget]
           apiEndpoint true healthy shopBrowser eq_refl).
Defined.

(** X5: a written cache entry is read back unchanged for five minutes
    (inclusive) under the same path and leaves the store alone; once older,
    the read misses and removes the entry. *)
Theorem cache_round_trip (b : Browser) (items : gmap string StoredItem)
    (schemas : list ToolSchema) (delay : Z) :
  localStorage b = Available items ->
  quota_exceeded b = false ->
  exists b1,
    cacheSchemas schemas b = (Normal tt, b1)
    /\ ((delay <= CACHE_TTL_MS)%Z ->
        getCachedSchemas (advance delay b1)
        = (Normal (Some schemas), advance delay b1))
    /\ ((CACHE_TTL_MS < delay)%Z ->
        exists b2,
          getCachedSchemas (advance delay b1) = (Normal None, b2)
          /\ localStorage b2 = Available (delete (keyOf b) items)).
Proof.
  intros Hst Hq. eexists. split; [by apply cacheSchemas_writes|].
  set (b1 := set_storage _ b).
  assert (Hst1 : localStorage (advance delay b1)
                 = Available (<[keyOf b := Entry schemas (now b)]> items))
    by reflexivity.
  assert (Hkey : keyOf (advance delay b1) = keyOf b) by reflexivity.
  assert (Hitem : (<[keyOf b := Entry schemas (now b)]> items)
                    !! keyOf (advance delay b1)
                  = Some (Entry schemas (now b)))
    by (rewrite Hkey; apply lookup_insert_eq).
  split.
  - intros Hfresh.
    apply (getCachedSchemas_fresh _ _ schemas (now b) Hst1 Hitem).
    simpl. lia.
  - intros Hold. eexists. split.
    + apply (getCachedSchemas_expired _ _ schemas (now b) Hst1 Hitem).
      simpl. lia.
    + simpl. rewrite Hkey. f_equal. apply delete_insert_eq.
Qed.

Lemma cache_round_trip_witness :
  exists b1,
    cacheSchemas [remoteBuy] shopBrowser = (Normal tt, b1)
    /\ ((300000 <= CACHE_TTL_MS)%Z ->
        getCachedSchemas (advance 300000 b1)
        = (Normal (Some [remoteBuy]), advance 300000 b1))
    /\ ((CACHE_TTL_MS < 300000)%Z ->
        exists b2,
          getCachedSchemas (advance 300000 b1) = (Normal None, b2)
          /\ localStorage b2 = Available (delete (keyOf shopBrowser) ∅)).
Proof.
  exact (cache_round_trip shopBrowser ∅ [remoteBuy] 300000 eq_refl eq_refl).
Defined.

(** X6: a call that bypasses the cache does not read it but still writes
    it.  When its request succeeds, the entry of the current path is
    replaced by the descriptors of this call (those of a delta, when the
    watcher calls), and for the next five minutes every call without bypass
    on that path returns exactly these descriptors, whatever elements it is
    asked about, without a request. *)
Theorem bypass_overwrites_cache (elements : list ScannedElement)
    (endpoint : option string) (remote : Remote)
    (schemas : list ToolSchema) (items : gmap string StoredItem)
    (b : Browser) :
  allOverridden elements = false ->
  Js.truthy endpoint = true ->
  RemoteSuccess remote schemas ->
  localStorage b = Available items ->
  quota_exceeded b = false ->
  exists b',
    fetchSchemas elements endpoint true remote b = (Normal schemas, b')
    /\ localStorage b'
       = Available (<[keyOf b := Entry schemas (now b + latency remote)%Z]>
                      items)
    /\ requests b' = S (requests b)
    /\ (forall elements2 endpoint2 remote2 gap,
          (gap <= CACHE_TTL_MS)%Z ->
          fetchSchemas elements2 endpoint2 false remote2 (advance gap b')
          = (Normal schemas, advance gap b')).
Proof.
  intros Hall Hend Hsuccess Hst Hq.
  pose proof (fetchSchemas_stages elements endpoint true remote b None b
                eq_refl) as Hstage.
  rewrite Hall in Hstage.
  destruct (tryApi_success endpoint remote schemas b Hend Hsuccess)
    as (b' & Hcache & Hapi).
  rewrite (cacheSchemas_writes schemas (answered remote b) items) in Hcache
    by done.
  injection Hcache as Hb'.
  exists b'. split; [exact (Hstage _ _ Hapi)|].
  split; [by rewrite <- Hb'|]. split; [by rewrite <- Hb'|].
  intros elements2 endpoint2 remote2 gap Hgap.
  assert (Hfresh : getCachedSchemas (advance gap b')
                   = (Normal (Some schemas), advance gap b')).
  { apply (getCachedSchemas_fresh _
             (<[keyOf b := Entry schemas (now b + latency remote)%Z]> items)
             schemas (now b + latency remote)%Z).
    - by rewrite <- Hb'.
    - replace (keyOf (advance gap b')) with (keyOf b)
        by (by rewrite <- Hb').
      apply lookup_insert_eq.
    - rewrite <- Hb'. simpl. lia. }
  exact (fetchSchemas_stages elements2 endpoint2 false remote2
           (advance gap b') (Some schemas) (advance gap b') Hfresh).
Qed.

(** The page cache holds two descriptors; the watcher then asks about one
    new button. *)
Definition cachedBrowser : Browser :=
  {| localStorage :=
       Available {[ CACHE_KEY_PREFIX +:+ "/products"
                    := Entry [localSchema feedbackForm;
                              localSchema supportWidget] 900 ]};
     quota_exceeded := false;
     pathname := "/products"; now := 1000; requests := 1 |}.

Lemma bypass_overwrites_cache_witness :
  exists b',
    fetchSchemas [buyButton] apiEndpoint true healthy cachedBrowser
    = (Normal [remoteBuy], b')
    /\ localStorage b'
       = Available
           (<[keyOf cachedBrowser
              := Entry [remoteBuy] (now cachedBrowser + latency healthy)%Z]>
              {[ CACHE_KEY_PREFIX +:+ "/products"
                 := Entry [localSchema feedbackForm;
                           localSchema supportWidget] 900 ]})
    /\ requests b' = S (requests cachedBrowser)
    /\ (forall elements2 endpoint2 remote2 gap,
          (gap <= CACHE_TTL_MS)%Z ->
          fetchSchemas elements2 endpoint2 false remote2 (advance gap b')
          = (Normal [remoteBuy], advance gap b')).
Proof.
  exact (bypass_overwrites_cache [buyButton] apiEndpoint healthy [remoteBuy]
           _ cachedBrowser eq_refl eq_refl healthy_succeeds eq_refl eq_refl).
Defined.

End SynthesisPolicy.

(** ** The execute callback, in general *)

Section ExecuteOutcome.

Import Registrar.

Ltac eval_execute :=
  cbv beta iota zeta delta
    [execute maybeConfirmDestructive requestUserInteraction querySelector
     interact trackEvent Date_now elapse try_catch bind get ret throw
     modify negb] in *;
  repeat (match goal with H : _ = _ |- _ => rewrite H end;
          cbv beta iota zeta).

(** X8: the confirmation phase never throws and refuses only when the
    tool is destructive and the user's answer is not [true].  A tool that
    is not destructive is never submitted to the user (no event, no time);
    a destructive tool goes ahead when the client cannot ask or when asking
    fails. *)
Theorem confirmation_refuses_only_on_denial (schema : ToolSchema)
    (client : Client) (p : Page) :
  exists p',
    maybeConfirmDestructive schema client p
    = (Normal (negb (declines schema client)), p')
    /\ telemetry p' = (telemetry p ++ confirmationEvents schema client)%list
    /\ clock p' = (clock p + confirmation_ms schema client)%Z
    /\ registeredTools p' = registeredTools p
    /\ (isDestructive schema = false -> p' = p).
Proof.
  unfold declines, confirmationEvents, confirmation_ms.
  destruct (isDestructive schema) eqn:Hd;
    [destruct client as [|[|] elapsed|e elapsed]|].
  all: eexists; split; [by eval_execute|]; simpl.
  all: repeat split; try done; rewrite ?app_nil_r; try done; try lia.
Qed.

(** The terminal event of a call, if any. *)
Definition terminalEvent (schema : ToolSchema) (p p' : Page)
    (outcome : completion ExecResult) : list Event :=
  match outcome with
  | Normal (Succeeded _ _) =>
      [TOOL_SUCCESS (ts_name schema) (clock p' - clock p)]
  | Normal (Declined _ _) => []
  | Throw err =>
      [TOOL_ERROR (ts_name schema) (errorMessage err) (clock p' - clock p)]
  end.

(** X7: every call of the wrapped handler emits TOOL_ATTEMPT first, then
    the events of the confirmation phase, then exactly the terminal event
    that matches its outcome: TOOL_SUCCESS with the elapsed time when it
    resolves with success, TOOL_ERROR with the message of the error and the
    elapsed time when it throws, and nothing when it resolves with the
    decline result.  The value it resolves with names the tool and, on
    success, carries the same duration as the event. *)
Theorem execute_outcome_matches_telemetry (schema : ToolSchema)
    (args : list (string * string)) (client : Client) (p : Page) :
  exists outcome p',
    execute schema args client p = (outcome, p')
    /\ telemetry p'
       = (telemetry p
          ++ TOOL_ATTEMPT (ts_name schema) args
             :: confirmationEvents schema client
             ++ terminalEvent schema p p' outcome)%list
    /\ match outcome with
       | Normal (Succeeded name duration) =>
           name = ts_name schema /\ duration = (clock p' - clock p)%Z
           /\ declines schema client = false
       | Normal (Declined name _) =>
           name = ts_name schema /\ declines schema client = true
       | Throw _ => declines schema client = false
       end
    /\ registeredTools p' = registeredTools p.
Proof.
  unfold declines, confirmationEvents, terminalEvent.
  destruct (document p (ts_selector schema)) as [[[[e|]]|]|e] eqn:Hdoc;
    (destruct (isDestructive schema) eqn:Hd;
       [destruct client as [|[|] elapsed|e' elapsed]|]).
  all: eexists _, _;
    split; [eval_execute; simpl; rewrite ?Hdoc; simpl; reflexivity|]; simpl.
  all: repeat split; try done.
  all: rewrite <- ?app_assoc; simpl; repeat f_equal; lia.
Qed.

End ExecuteOutcome.

(** ** registrar.ts: unregistration *)

Module Unregister.

Import Registrar.

(** How the host answers [unregisterTool(name)], given the tools it
    holds: [true] when it throws. *)
Definition HostRefusal : Type := list ToolSchema -> string -> bool.

(** [navigator.modelContext.unregisterTool(name)] *)
Definition unregisterTool (refuses : HostRefusal) (name : string)
  : M Page unit :=
  p <- get ;;
  match modelContext p with
  | None => throw (TypeError "navigator.modelContext is undefined")
  | Some h =>
      if refuses (tools h) name then throw (Error "unregisterTool")
      else
        modify (set_modelContext
                  (Some {| accepts := accepts h;
                           tools :=
                             List.filter
                               (fun t => negb (String.eqb (ts_name t) name))
                               (tools h) |}))
  end.

(** [removedSet.has(selector)] *)
Definition isRemoved (removedSelectors : list string) (selector : string)
  : bool :=
  bool_decide (selector ∈ removedSelectors).

(** The body of the loop of [unregisterTools] at the entry of [name]; the
    value is the data of the TOOL_UNREGISTERED event it emits, if any. *)
Definition unregisterStale (refuses : HostRefusal)
    (removedSelectors : list string) (name : string)
  : M Page (list (string * string)) :=
  p <- get ;;
  match registeredTools p !! name with
  | None => ret []
  | Some selector =>
      if isRemoved removedSelectors selector then
        try_catch
          (unregisterTool refuses name ;;;
           modify (fun p => set_registeredTools
                              (delete name (registeredTools p)) p) ;;;
           ret [(name, selector)])
          (fun _ => ret [])
      else ret []
  end.

(** A loop that collects what its iterations emit. *)
Fixpoint collect {S A B} (body : A -> M S (list B)) (l : list A)
  : M S (list B) :=
  match l with
  | [] => ret []
  | a :: l' =>
      first <- body a ;;
      others <- collect body l' ;;
      ret (first ++ others)%list
  end.

(** [unregisterTools(removedSelectors)].  [order] lists the names of the
    Map in its iteration order, which the registry model does not keep;
    the value lists the name and selector of each TOOL_UNREGISTERED event,
    in order. *)
Definition unregisterTools (refuses : HostRefusal) (order : list string)
    (removedSelectors : list string) : M Page (list (string * string)) :=
  p <- get ;;
  match modelContext p with
  | None => ret []
  | Some _ => collect (unregisterStale refuses removedSelectors) order
  end.

(** The body of the loop of [unregisterAllTools]. *)
Definition unregisterQuietly (refuses : HostRefusal) (name : string)
  : M Page unit :=
  try_catch (unregisterTool refuses name) (fun _ => ret tt).

(** [unregisterAllTools()], with the iteration order of the Map. *)
Definition unregisterAllTools (refuses : HostRefusal) (order : list string)
  : M Page unit :=
  p <- get ;;
  match modelContext p with
  | None => ret tt
  | Some _ =>
      for_each (unregisterQuietly refuses) order ;;;
      modify (set_registeredTools ∅)
  end.

(** [getRegisteredToolNames()] *)
Definition getRegisteredToolNames (p : Page) : gset string :=
  dom (registeredTools p).

(** [getSelectorForTool(name)] *)
Definition getSelectorForTool (name : string) (p : Page) : option string :=
  registeredTools p !! name.

End Unregister.

Section Unregistration.

Import Registrar Unregister.

(** The host after it dropped [name]. *)
Definition withoutTool (name : string) (h : Host) (p : Page) : Page :=
  {| clock := clock p; dom_ms := dom_ms p; document := document p;
     modelContext :=
       Some {| accepts := accepts h;
               tools := List.filter
                          (fun t => negb (String.eqb (ts_name t) name))
                          (tools h) |};
     registeredTools := registeredTools p;
     telemetry := telemetry p |}.

(** Whether the loop of [unregisterTools] removes the entry of [name]. *)
Definition removes (refuses : HostRefusal) (removedSelectors : list string)
    (name : string) (p : Page) : bool :=
  match registeredTools p !! name, modelContext p with
  | Some selector, Some h =>
      isRemoved removedSelectors selector && negb (refuses (tools h) name)
  | _, _ => false
  end.

(** The page after one iteration. *)
Definition afterStale (refuses : HostRefusal) (removedSelectors : list string)
    (name : string) (p : Page) : Page :=
  if removes refuses removedSelectors name p then
    match modelContext p with
    | Some h =>
        set_registeredTools (delete name (registeredTools p))
          (withoutTool name h p)
    | None => p
    end
  else p.

Lemma unregisterStale_afterStale (refuses : HostRefusal)
    (removedSelectors : list string) (name : string) (p : Page) :
  unregisterStale refuses removedSelectors name p
  = (Normal (if removes refuses removedSelectors name p
             then match registeredTools p !! name with
                  | Some selector => [(name, selector)]
                  | None => []
                  end
             else []),
     afterStale refuses removedSelectors name p).
Proof.
  unfold afterStale, removes.
  destruct (registeredTools p !! name) as [selector|] eqn:Hreg;
    [destruct (isRemoved removedSelectors selector) eqn:Hrem;
     [destruct (modelContext p) as [h|] eqn:Hctx;
      [destruct (refuses (tools h) name) eqn:Href|]|]|].
  all: cbv beta iota zeta delta
         [unregisterStale unregisterTool try_catch bind get ret throw modify].
  all: rewrite ?Hreg; cbv beta iota zeta; rewrite ?Hrem; cbv beta iota zeta;
       rewrite ?Hctx; cbv beta iota zeta; rewrite ?Href; try reflexivity.
  all: simpl; rewrite ?Hrem; try reflexivity.
  all: destruct (modelContext p); reflexivity.
Qed.

Definition afterStales (refuses : HostRefusal)
    (removedSelectors : list string) (order : list string) (p : Page)
  : Page :=
  fold_left (fun q name => afterStale refuses removedSelectors name q)
    order p.

Lemma collect_afterStales (refuses : HostRefusal)
    (removedSelectors : list string) (order : list string) :
  forall p, exists events,
    collect (unregisterStale refuses removedSelectors) order p
    = (Normal events, afterStales refuses removedSelectors order p)
    /\ (forall name selector, In (name, selector) events ->
          In name order /\ isRemoved removedSelectors selector = true).
Proof.
  induction order as [|a l IH]; intros p.
  - exists []. split; [reflexivity|]. intros ? ? [].
  - destruct (IH (afterStale refuses removedSelectors a p))
      as (others & Hl & Hev).
    eexists. split.
    + simpl. unfold bind. rewrite unregisterStale_afterStale.
      unfold afterStales in Hl. rewrite Hl. reflexivity.
    + intros name selector Hin. apply in_app_or in Hin.
      destruct Hin as [Hin|Hin].
      * unfold removes in Hin.
        destruct (registeredTools p !! a) as [sel|]; [|destruct Hin].
        destruct (modelContext p); [|destruct Hin].
        destruct (isRemoved removedSelectors sel) eqn:Hrem;
          [|destruct Hin].
        destruct (negb _); [|destruct Hin].
        destruct Hin as [Heq|[]]. injection Heq as <- <-.
        split; [by left | exact Hrem].
      * destruct (Hev _ _ Hin). split; [by right | done].
Qed.

(** What one iteration does to the entry of any name. *)
Lemma afterStale_lookup (refuses : HostRefusal)
    (removedSelectors : list string) (a name : string) (p : Page) :
  registeredTools (afterStale refuses removedSelectors a p) !! name
  = if decide (a = name) then
      if removes refuses removedSelectors a p then None
      else registeredTools p !! name
    else registeredTools p !! name.
Proof.
  unfold afterStale.
  destruct (removes refuses removedSelectors a p) eqn:Hrm;
    [|by destruct (decide (a = name))].
  unfold removes in Hrm.
  destruct (registeredTools p !! a); [|discriminate].
  destruct (modelContext p); [|discriminate]. simpl.
  destruct (decide (a = name)) as [->|Hne];
    [apply lookup_delete_eq | by apply lookup_delete_ne].
Qed.

Lemma afterStale_rest (refuses : HostRefusal)
    (removedSelectors : list string) (a : string) (p : Page) :
  telemetry (afterStale refuses removedSelectors a p) = telemetry p
  /\ clock (afterStale refuses removedSelectors a p) = clock p
  /\ (is_Some (modelContext (afterStale refuses removedSelectors a p))
      <-> is_Some (modelContext p)).
Proof.
  unfold afterStale. destruct (removes _ _ _ _) eqn:Hrm; [|done].
  destruct (modelContext p) eqn:Hctx; [|by rewrite Hctx].
  simpl. repeat split; eauto.
Qed.

(** The registry never grows, and an entry whose selector is not in the
    removed set stays. *)
Lemma afterStales_lookup (refuses : HostRefusal)
    (removedSelectors : list string) (order : list string) :
  forall p name,
    (forall selector,
        registeredTools (afterStales refuses removedSelectors order p) !! name
        = Some selector ->
        registeredTools p !! name = Some selector)
    /\ (forall selector,
          registeredTools p !! name = Some selector ->
          isRemoved removedSelectors selector = false ->
          registeredTools (afterStales refuses removedSelectors order p)
            !! name = Some selector)
    /\ (~ In name order ->
        registeredTools (afterStales refuses removedSelectors order p) !! name
        = registeredTools p !! name).
Proof.
  induction order as [|a l IH]; intros p name; [by repeat split|].
  destruct (IH (afterStale refuses removedSelectors a p) name)
    as (Hshrink & Hkeep & Hout).
  pose proof (afterStale_lookup refuses removedSelectors a name p) as Hstep.
  simpl. fold (afterStales refuses removedSelectors l
                 (afterStale refuses removedSelectors a p)).
  split; [|split].
  - intros selector H. apply Hshrink in H. rewrite Hstep in H.
    destruct (decide (a = name)); [|exact H].
    by destruct (removes refuses removedSelectors a p).
  - intros selector H Hrem. apply Hkeep; [|exact Hrem].
    rewrite Hstep. destruct (decide (a = name)) as [->|]; [|exact H].
    destruct (removes refuses removedSelectors name p) eqn:Hrm; [|exact H].
    unfold removes in Hrm. rewrite H in Hrm.
    destruct (modelContext p); [|discriminate].
    rewrite Hrem in Hrm. discriminate.
  - intros Hnotin. rewrite Hout by (intros H; apply Hnotin; by right).
    rewrite Hstep. destruct (decide (a = name)) as [->|]; [|reflexivity].
    exfalso. apply Hnotin. by left.
Qed.

(** A registry with the names of a duplicate-free list has its length. *)
Lemma mirror_size (m : gmap string string) (names : list string) :
  NoDup names ->
  (forall name, In name names <-> is_Some (m !! name)) ->
  size m = length names.
Proof.
  intros Hnodup Hnames. rewrite <- size_dom.
  unfold size, set_size. simpl.
  apply Permutation_length. apply NoDup_Permutation.
  - apply NoDup_elements.
  - exact Hnodup.
  - intros name. rewrite elem_of_elements, elem_of_dom, list_elem_of_In.
    symmetry. apply Hnames.
Qed.

Lemma names_without (name : string) (l : list ToolSchema) :
  map ts_name
    (List.filter (fun t => negb (String.eqb (ts_name t) name)) l)
  = List.filter (fun n => negb (String.eqb n name)) (map ts_name l).
Proof.
  induction l as [|t l IH]; [reflexivity|]. simpl.
  destruct (negb (String.eqb (ts_name t) name)); simpl; by rewrite IH.
Qed.

Lemma afterStale_consistent (refuses : HostRefusal)
    (removedSelectors : list string) (a : string) (p : Page) :
  consistent p -> consistent (afterStale refuses removedSelectors a p).
Proof.
  intros (Hnodup & Hnames & Hsize). unfold afterStale.
  destruct (removes refuses removedSelectors a p); [|done].
  destruct (modelContext p) as [h|] eqn:Hctx; [|done].
  unfold hostNames in Hnodup, Hnames. rewrite Hctx in Hnodup, Hnames.
  assert (Hnodup' : NoDup (List.filter (fun n => negb (String.eqb n a))
                             (map ts_name (tools h))))
    by (apply NoDup_ListNoDup, List.NoDup_filter, NoDup_ListNoDup, Hnodup).
  assert (Hnames' : forall name,
             In name (List.filter (fun n => negb (String.eqb n a))
                        (map ts_name (tools h)))
             <-> is_Some (delete a (registeredTools p) !! name)).
  { intros name. rewrite filter_In, Hnames.
    destruct (decide (a = name)) as [->|Hne].
    - rewrite lookup_delete_eq, String.eqb_refl. simpl.
      split; [intros [_ H]; discriminate | intros H; by destruct H].
    - rewrite lookup_delete_ne by done.
      assert (String.eqb name a = false)
        by (apply String.eqb_neq; congruence).
      rewrite H. simpl. tauto. }
  unfold consistent, hostNames. simpl. rewrite names_without.
  split; [exact Hnodup'|]. split; [exact Hnames'|].
  by apply mirror_size.
Qed.

Lemma afterStales_consistent (refuses : HostRefusal)
    (removedSelectors : list string) (order : list string) :
  forall p, consistent p ->
            consistent (afterStales refuses removedSelectors order p).
Proof.
  induction order as [|a l IH]; intros p H; [exact H|].
  simpl. apply IH. by apply afterStale_consistent.
Qed.

(** The entry a registry keeps for a selector once the removed selectors
    are gone. *)
Definition surviving (removedSelectors : list string) (selector : string)
  : option string :=
  if isRemoved removedSelectors selector then None else Some selector.

Lemma afterStales_exact (refuses : HostRefusal)
    (removedSelectors : list string) (order : list string) :
  (forall held name, refuses held name = false) ->
  forall p name,
    is_Some (modelContext p) -> In name order ->
    registeredTools (afterStales refuses removedSelectors order p) !! name
    = registeredTools p !! name ≫= surviving removedSelectors.
Proof.
  intros Hnever.
  assert (Hremoves : forall a p, is_Some (modelContext p) ->
             removes refuses removedSelectors a p
             = match registeredTools p !! a with
               | Some selector => isRemoved removedSelectors selector
               | None => false
               end).
  { intros a p [h Hctx]. unfold removes. rewrite Hctx.
    destruct (registeredTools p !! a); [|reflexivity].
    rewrite Hnever. simpl. apply andb_true_r. }
  induction order as [|a l IH]; intros p name Hctx Hin; [destruct Hin|].
  pose proof (afterStale_lookup refuses removedSelectors a name p) as Hstep.
  rewrite (Hremoves a p Hctx) in Hstep.
  assert (Hctx1 : is_Some (modelContext
                             (afterStale refuses removedSelectors a p)))
    by (by apply afterStale_rest).
  simpl. fold (afterStales refuses removedSelectors l
                 (afterStale refuses removedSelectors a p)).
  destruct (in_dec String.string_dec name l) as [Hl|Hl].
  - rewrite (IH _ _ Hctx1 Hl), Hstep.
    destruct (decide (a = name)) as [->|]; [|reflexivity].
    destruct (registeredTools p !! name) as [selector|]; [|reflexivity].
    simpl. unfold surviving.
    destruct (isRemoved removedSelectors selector) eqn:Hr; simpl;
      rewrite ?Hr; reflexivity.
  - destruct (afterStales_lookup refuses removedSelectors l
                (afterStale refuses removedSelectors a p) name)
      as (_ & _ & Hout).
    rewrite (Hout Hl), Hstep.
    destruct Hin as [->|Hin]; [|contradiction].
    rewrite decide_True by done.
    destruct (registeredTools p !! name) as [selector|]; [|reflexivity].
    simpl. unfold surviving.
    destruct (isRemoved removedSelectors selector) eqn:Hr; simpl;
      rewrite ?Hr; reflexivity.
Qed.

(** X9: [unregisterTools] never throws and only removes entries whose
    selector is in the removed set: the registry never grows, an entry
    with another selector stays as it is, and every TOOL_UNREGISTERED event
    is about a removed selector; if no registry selector is in the removed
    set, nothing changes.  Without a host nothing happens at all.  With a
    host that accepts every unregistration, each name of the iteration
    order keeps its entry exactly when its selector is not removed.  A
    registry that mirrors the host still mirrors it afterwards. *)
Theorem unregisterTools_removes_stale_only (refuses : HostRefusal)
    (order removedSelectors : list string) (p : Page) :
  exists events p',
    unregisterTools refuses order removedSelectors p = (Normal events, p')
    /\ (forall name selector,
          registeredTools p' !! name = Some selector ->
          registeredTools p !! name = Some selector)
    /\ (forall name selector,
          registeredTools p !! name = Some selector ->
          isRemoved removedSelectors selector = false ->
          registeredTools p' !! name = Some selector)
    /\ (forall name selector, In (name, selector) events ->
          isRemoved removedSelectors selector = true)
    /\ (modelContext p = None -> p' = p /\ events = [])
    /\ ((forall held name, refuses held name = false) ->
        is_Some (modelContext p) ->
        forall name, In name order ->
          registeredTools p' !! name
          = registeredTools p !! name ≫= surviving removedSelectors)
    /\ (consistent p -> consistent p')
    /\ telemetry p' = telemetry p.
Proof.
  destruct (modelContext p) as [h|] eqn:Hctx.
  - destruct (collect_afterStales refuses removedSelectors order p)
      as (events & Hrun & Hev).
    exists events, (afterStales refuses removedSelectors order p).
    split; [unfold unregisterTools, bind, get; by rewrite Hctx|].
    split; [intros name; apply afterStales_lookup|].
    split; [intros name; apply afterStales_lookup|].
    split; [intros name selector Hin; by destruct (Hev _ _ Hin)|].
    split; [discriminate|].
    split; [intros Hnever _ name Hin;
            apply afterStales_exact; [done | by rewrite Hctx | done]|].
    split; [apply afterStales_consistent|].
    clear Hrun Hev Hctx. revert p.
    induction order as [|a l IH]; intros p; [reflexivity|].
    simpl. fold (afterStales refuses removedSelectors l
                   (afterStale refuses removedSelectors a p)).
    rewrite IH. apply afterStale_rest.
  - exists [], p.
    split; [unfold unregisterTools, bind, get; by rewrite Hctx|].
    split; [done|]. split; [done|]. split; [intros ? ? []|].
    split; [done|]. split; [|done].
    intros _ Hsome. destruct Hsome as [? Hsome]. discriminate Hsome.
Qed.

(** After the two tools of a page were registered, the element of one is
    removed from the document. *)
Definition twoTools : Page :=
  snd (registerTools [searchFinal; deleteTool] freshPage).

Example unregister_one_of_two :
  exists p',
    unregisterTools (fun _ _ => false) ["search"; "delete_account"]
      ["#delete"; "#gone"] twoTools
    = (Normal [("delete_account", "#delete")], p')
    /\ registeredTools p' = {[ "search" := "#search-new" ]}
    /\ hostNames p' = ["search"].
Proof. eexists. split; [vm_compute; reflexivity|]. by split. Qed.

(** The page after one iteration of the loop of [unregisterAllTools]. *)
Definition afterQuiet (refuses : HostRefusal) (name : string) (p : Page)
  : Page :=
  match modelContext p with
  | Some h => if refuses (tools h) name then p else withoutTool name h p
  | None => p
  end.

Lemma unregisterQuietly_afterQuiet (refuses : HostRefusal) (name : string)
    (p : Page) :
  unregisterQuietly refuses name p = (Normal tt, afterQuiet refuses name p).
Proof.
  unfold afterQuiet.
  destruct (modelContext p) as [h|] eqn:Hctx;
    [destruct (refuses (tools h) name) eqn:Href|].
  all: cbv beta iota zeta delta
         [unregisterQuietly unregisterTool try_catch bind get ret throw modify].
  all: rewrite Hctx; cbv beta iota zeta; rewrite ?Href; reflexivity.
Qed.

Definition afterQuiets (refuses : HostRefusal) (order : list string)
    (p : Page) : Page :=
  fold_left (fun q name => afterQuiet refuses name q) order p.

Lemma for_each_afterQuiets (refuses : HostRefusal) (order : list string) :
  forall p, for_each (unregisterQuietly refuses) order p
            = (Normal tt, afterQuiets refuses order p).
Proof.
  induction order as [|a l IH]; intros p; [reflexivity|].
  simpl. unfold bind. rewrite unregisterQuietly_afterQuiet. apply IH.
Qed.

Lemma afterQuiet_rest (refuses : HostRefusal) (name : string) (p : Page) :
  telemetry (afterQuiet refuses name p) = telemetry p
  /\ registeredTools (afterQuiet refuses name p) = registeredTools p
  /\ (is_Some (modelContext (afterQuiet refuses name p))
      <-> is_Some (modelContext p)).
Proof.
  unfold afterQuiet. destruct (modelContext p) as [h|] eqn:Hctx;
    [|by rewrite Hctx].
  destruct (refuses (tools h) name); [by rewrite Hctx|].
  simpl. repeat split; eauto.
Qed.

Lemma afterQuiets_rest (refuses : HostRefusal) (order : list string) :
  forall p,
    telemetry (afterQuiets refuses order p) = telemetry p
    /\ registeredTools (afterQuiets refuses order p) = registeredTools p
    /\ (is_Some (modelContext (afterQuiets refuses order p))
        <-> is_Some (modelContext p)).
Proof.
  induction order as [|a l IH]; intros p; [done|].
  simpl. fold (afterQuiets refuses l (afterQuiet refuses a p)).
  destruct (IH (afterQuiet refuses a p)) as (Ht & Hr & Hc).
  destruct (afterQuiet_rest refuses a p) as (Ht' & Hr' & Hc').
  split; [by rewrite Ht|]. split; [by rewrite Hr|]. by rewrite Hc.
Qed.

(** With a host that accepts every unregistration, the names it still
    holds are those outside the iteration order. *)
Lemma afterQuiets_names (refuses : HostRefusal) (order : list string) :
  (forall held name, refuses held name = false) ->
  forall p name,
    In name (hostNames (afterQuiets refuses order p))
    <-> In name (hostNames p) /\ ~ In name order.
Proof.
  intros Hnever. induction order as [|a l IH]; intros p name; [simpl; tauto|].
  simpl. fold (afterQuiets refuses l (afterQuiet refuses a p)).
  rewrite IH. unfold afterQuiet, hostNames.
  destruct (modelContext p) as [h|] eqn:Hctx; [|rewrite Hctx; simpl; tauto].
  rewrite Hnever. simpl. rewrite names_without, filter_In.
  destruct (String.eqb_spec name a) as [->|Hne]; simpl.
  - split; [intros [[_ H] _]; discriminate | intros [_ H]; tauto].
  - split; [intros [[H _] Hl]; split; [done|]; intros [Heq|Hin]; [congruence|done]
           | intros [H Hl]; split; [by split|]; tauto].
Qed.

(** X10: [unregisterAllTools] never throws.  Without a host it does
    nothing, so a registry that is not empty stays as it is; with a host it
    empties the registry whatever the host answers to the individual
    unregistrations, so that every name is free again.  With a host that
    accepts every unregistration and an iteration order that covers the
    names it holds, the host ends without tools and the empty registry
    mirrors it. *)
Theorem unregisterAllTools_clears (refuses : HostRefusal)
    (order : list string) (p : Page) :
  exists p',
    unregisterAllTools refuses order p = (Normal tt, p')
    /\ telemetry p' = telemetry p
    /\ (modelContext p = None -> p' = p)
    /\ (is_Some (modelContext p) ->
        registeredTools p' = ∅
        /\ forall name, has name p' = false)
    /\ ((forall held name, refuses held name = false) ->
        is_Some (modelContext p) ->
        (forall name, In name (hostNames p) -> In name order) ->
        hostNames p' = [] /\ consistent p').
Proof.
  destruct (modelContext p) as [h|] eqn:Hctx.
  - destruct (afterQuiets_rest refuses order p) as (Htel & _ & _).
    exists (set_registeredTools ∅ (afterQuiets refuses order p)).
    split.
    { unfold unregisterAllTools, bind, get. rewrite Hctx.
      by rewrite for_each_afterQuiets. }
    split; [exact Htel|]. split; [discriminate|]. split.
    + intros _. split; [reflexivity|]. intros name.
      unfold has. apply bool_decide_eq_false. simpl. rewrite lookup_empty.
      intros H. by destruct H.
    + intros Hnever _ Hcover.
      assert (Hnone : hostNames (afterQuiets refuses order p) = []).
      { destruct (hostNames (afterQuiets refuses order p)) as [|n l] eqn:Hn;
          [reflexivity|].
        assert (Hin : In n (hostNames (afterQuiets refuses order p)))
          by (rewrite Hn; by left).
        apply (afterQuiets_names refuses order Hnever) in Hin.
        destruct Hin as [Hin Hout]. destruct (Hout (Hcover _ Hin)). }
      assert (Hnames : hostNames
                         (set_registeredTools ∅ (afterQuiets refuses order p))
                       = []) by exact Hnone.
      split; [exact Hnames|].
      unfold consistent. rewrite Hnames. simpl.
      split; [apply NoDup_nil_2|]. split; [|reflexivity].
      intros name. rewrite lookup_empty. split; [tauto|].
      intros H. by destruct H.
  - exists p. split; [unfold unregisterAllTools, bind, get; by rewrite Hctx|].
    split; [done|]. split; [done|]. split.
    + intros H. destruct H as [? H]. discriminate H.
    + intros _ H. destruct H as [? H]. discriminate H.
Qed.

End Unregistration.

(** ** More on the scanner *)

Section ScanRecords.

Import Scanner.

(** X11: the three passes do not overlap.  The form pass emits form
    elements as records of type form; the button pass and the annotated
    pass emit records of type button for elements that are not forms and
    not inside a form; and no element is the origin of records of two
    different passes. *)
Theorem passes_do_not_overlap (doc : Document) (e : Located) :
  (forall r, (e, r) ∈ tracedForms doc ->
     el_type r = form /\ hasTag "form" (node e) = true)
  /\ (forall r, (e, r) ∈ tracedButtons doc ->
        el_type r = button /\ insideForm e = false
        /\ isButtonLike e = true)
  /\ (forall r, (e, r) ∈ tracedAnnotated doc ->
        el_type r = button /\ insideForm e = false
        /\ matchesStandard e = false)
  /\ (forall r1 r2, (e, r1) ∈ tracedForms doc ->
        ((e, r2) ∉ tracedButtons doc) /\ ((e, r2) ∉ tracedAnnotated doc))
  /\ (forall r1 r2, (e, r1) ∈ tracedButtons doc ->
        (e, r2) ∉ tracedAnnotated doc).
Proof.
  assert (Hforms : forall r, (e, r) ∈ tracedForms doc ->
            el_type r = form /\ hasTag "form" (node e) = true).
  { intros r Hin. apply tracedForms_elem in Hin.
    destruct Hin as (Hcand & m & Hscan & <-).
    apply querySelectorAll_matches in Hcand. split; [|exact Hcand].
    destruct (scanForm_pushed doc e _ Hscan (scanForm_kept doc e m Hscan))
      as (m' & inputs & Heq & _ & Htype & _).
    by injection Heq as <-. }
  assert (Hbuttons : forall r, (e, r) ∈ tracedButtons doc ->
            el_type r = button /\ insideForm e = false
            /\ isButtonLike e = true).
  { intros r Hin. apply traced_elem in Hin.
    destruct Hin as (Hcand & Hscan & _).
    apply querySelectorAll_matches in Hcand.
    apply scanButton_pushed in Hscan. destruct Hscan as (-> & _ & Hout & _).
    by repeat split. }
  assert (Hannotated : forall r, (e, r) ∈ tracedAnnotated doc ->
            el_type r = button /\ insideForm e = false
            /\ matchesStandard e = false).
  { intros r Hin. apply traced_elem in Hin. destruct Hin as (_ & Hscan & _).
    apply scanAnnotated_pushed in Hscan.
    destruct Hscan as (-> & _ & Hout & Hstd).
    by repeat split. }
  split; [exact Hforms|]. split; [exact Hbuttons|].
  split; [exact Hannotated|]. split.
  - intros r1 r2 Hin. destruct (Hforms r1 Hin) as [_ Htag]. split.
    + intros Hb. destruct (Hbuttons r2 Hb) as (_ & Hout & _).
      apply insideForm_self in Hout. congruence.
    + intros Ha. destruct (Hannotated r2 Ha) as (_ & Hout & _).
      apply insideForm_self in Hout. congruence.
  - intros r1 r2 Hin Ha. destruct (Hbuttons r1 Hin) as (_ & _ & Hlike).
    destruct (Hannotated r2 Ha) as (_ & _ & Hstd).
    unfold matchesStandard in Hstd. rewrite Hlike in Hstd.
    by rewrite orb_true_r in Hstd.
Qed.

(** What [scanInput] requires of a field it keeps. *)
Lemma scanInput_kept (doc : Document) (d : Located) (i : ScannedInput) :
  isField d = true ->
  scanInput doc d = Normal (Some i) ->
  in_name i <> EmptyString /\ ~ In (in_inputType i) skippedTypes
  /\ in_required i = hasAttribute "required" (node d)
  /\ in_overrideParamDescription i = getAttribute "data-tool-param" (node d).
Proof.
  intros Hfield. unfold scanInput.
  destruct (hasTag "input" (node d)) eqn:Hinput; simpl.
  - destruct (bool_decide (inputTypeOf (node d) ∈ skippedTypes)) eqn:Hskip;
      [discriminate|].
    apply bool_decide_eq_false in Hskip.
    destruct (Js.is_empty _) eqn:Hname; [discriminate|].
    destruct (findLabelText doc d) as [label|]; [|discriminate].
    intros H. injection H as <-. simpl. repeat split; try done.
    + intros Heq. by rewrite Heq in Hname.
    + intros Hin. apply Hskip. by apply list_elem_of_In.
  - destruct (Js.is_empty _) eqn:Hname; [discriminate|].
    destruct (findLabelText doc d) as [label|]; [|discriminate].
    intros H. injection H as <-. simpl. repeat split; try done.
    + intros Heq. by rewrite Heq in Hname.
    + unfold isField in Hfield. rewrite Hinput in Hfield. simpl in Hfield.
      unfold hasTag in Hfield.
      destruct (String.eqb_spec (tagName (node d)) "select") as [->|_];
        [simpl; intuition discriminate|].
      destruct (String.eqb_spec (tagName (node d)) "textarea") as [->|_];
        [simpl; intuition discriminate | discriminate].
Qed.

Lemma forEach_length {A B : Type} (callback : A -> completion (option B))
    (l : list A) :
  forall results,
    forEach callback l = Normal results -> (length results <= length l)%nat.
Proof.
  induction l as [|a l IH]; intros results Hrun; simpl in Hrun.
  - by injection Hrun as <-.
  - destruct (callback a) as [pushed|]; [|discriminate].
    destruct (forEach callback l) as [rest|]; [|discriminate].
    injection Hrun as <-. specialize (IH rest eq_refl).
    rewrite length_app. destruct pushed; simpl; lia.
Qed.

(** X12: every field listed for a scanned form can be addressed and is a
    user-facing parameter: its name is not empty and its type is none of
    hidden, submit, button, reset and image; the fields are those kept
    among the input, select and textarea descendants of the form, so there
    are at most as many. *)
Theorem scanned_inputs_are_addressable (doc : Document) (e : Located)
    (r : ScannedElement) :
  (e, r) ∈ tracedForms doc ->
  exists inputs,
    el_inputs r = Some inputs
    /\ Forall (fun i => in_name i <> EmptyString
                        /\ ~ In (in_inputType i) skippedTypes) inputs
    /\ (length inputs <= length (descendants e isField))%nat
    /\ (forall name,
          is_Some (properties (Schema.inputsToSchema r) !! name) ->
          name <> EmptyString).
Proof.
  intros Hin. apply tracedForms_elem in Hin.
  destruct Hin as (_ & m & Hscan & <-).
  destruct (scanForm_pushed doc e _ Hscan (scanForm_kept doc e m Hscan))
    as (m' & inputs & Heq & Hrun & _ & Hinputs & _).
  injection Heq as <-. exists inputs.
  assert (Hall : Forall (fun i => in_name i <> EmptyString
                                  /\ ~ In (in_inputType i) skippedTypes)
                   inputs).
  { apply Forall_forall. intros i Hi.
    apply (forEach_elem _ _ _ Hrun) in Hi.
    destruct Hi as (d & Hd & Hkept).
    unfold descendants in Hd. apply list_elem_of_filter in Hd.
    destruct Hd as [Hfield _].
    destruct (scanInput_kept doc d i Hfield Hkept) as (? & ? & _).
    by split. }
  split; [exact Hinputs|]. split; [exact Hall|]. split.
  - by apply (forEach_length (scanInput doc)).
  - intros name Hsome.
    unfold Schema.inputsToSchema in Hsome. rewrite Hinputs in Hsome.
    apply fold_addInput_keys in Hsome. simpl in Hsome.
    rewrite lookup_empty in Hsome.
    destruct Hsome as [Hsome|[_ Hsome]]; [by destruct Hsome|].
    apply in_map_iff in Hsome. destruct Hsome as (i & <- & Hi).
    rewrite Forall_forall in Hall.
    apply list_elem_of_In in Hi. by destruct (Hall i Hi).
Qed.

(** The search form of the demo page. *)
Definition searchForm : Located :=
  {| node := el "form" [("id", "search"); ("method", "get");
                        ("action", "/search")]
               [ el "label" [("for", "q")] [Text "Query"];
                 el "input" [("id", "q"); ("name", "q"); ("type", "text");
                             ("required", EmptyString)] [];
                 el "input" [("type", "submit"); ("value", "Go")] [] ];
     chain := [(demoBody, 0%nat); (demoRoot, 1%nat)] |}.

Lemma searchForm_traced : exists r, (searchForm, r) ∈ tracedForms demoDoc.
Proof.
  eexists. apply list_elem_of_In. vm_compute. left. reflexivity.
Defined.

Lemma scanned_inputs_are_addressable_witness :
  exists r inputs,
    (searchForm, r) ∈ tracedForms demoDoc
    /\ el_inputs r = Some inputs
    /\ Forall (fun i => in_name i <> EmptyString
                        /\ ~ In (in_inputType i) skippedTypes) inputs
    /\ (length inputs <= length (descendants searchForm isField))%nat
    /\ (forall name,
          is_Some (properties (Schema.inputsToSchema r) !! name) ->
          name <> EmptyString).
Proof.
  destruct searchForm_traced as [r Hr].
  destruct (scanned_inputs_are_addressable demoDoc searchForm r Hr)
    as (inputs & H).
  exists r, inputs. split; [exact Hr | exact H].
Defined.

Lemma flag_not_false (present : bool) : flag present <> Some false.
Proof. by destruct present. Qed.

(** Every record carries the overrides read from its element. *)
Lemma traced_overrides (doc : Document) (e : Located) (r : ScannedElement) :
  (e, r) ∈ tracedDOM doc ->
  el_overrideAnnotations r = overrideAnnotations (readToolAttributes e).
Proof.
  intros Hin. apply tracedDOM_elem in Hin.
  destruct Hin as [(_ & m & H & <-)|[[_ H]|[_ H]]].
  - destruct (scanForm_pushed doc e _ H (scanForm_kept doc e m H))
      as (m' & inputs & Heq & _ & _ & _ & _ & _ & _ & Hann & _).
    by injection Heq as <-.
  - apply scanButton_pushed in H. by destruct H as (-> & _).
  - apply scanAnnotated_pushed in H. by destruct H as (-> & _).
Qed.

Lemma localSchema_annotations (r : ScannedElement) (a : ToolAnnotations) :
  el_overrideAnnotations r = Some a ->
  ts_annotations (Schema.localSchema r) = Some a.
Proof.
  intros H. unfold Schema.localSchema.
  destruct (el_type r); simpl; by rewrite H.
Qed.

(** X13: the hint attributes can only switch hints on.  For every scanned
    element, an annotation override is present exactly when the element
    carries one of the four hint attributes, it never holds a hint set to
    false, and it holds each hint exactly when the element carries its
    attribute.  Hence an element marked data-tool-destructive always yields
    a local descriptor that asks for confirmation, and an element marked
    with other hints only never does, whatever its text or method. *)
Theorem hint_attributes_decide_confirmation (doc : Document) (e : Located)
    (r : ScannedElement) :
  (e, r) ∈ tracedDOM doc ->
  let marked name := hasAttribute name (node e) in
  (is_Some (el_overrideAnnotations r)
   <-> marked "data-tool-readonly" || marked "data-tool-destructive"
       || marked "data-tool-idempotent" || marked "data-tool-open-world"
       = true)
  /\ (forall a, el_overrideAnnotations r = Some a ->
        readOnlyHint a = flag (marked "data-tool-readonly")
        /\ destructiveHint a = flag (marked "data-tool-destructive")
        /\ idempotentHint a = flag (marked "data-tool-idempotent")
        /\ openWorldHint a = flag (marked "data-tool-open-world")
        /\ forall h, hint h a <> Some false)
  /\ (marked "data-tool-destructive" = true ->
      Registrar.isDestructive (Schema.localSchema r) = true)
  /\ (is_Some (el_overrideAnnotations r) ->
      marked "data-tool-destructive" = false ->
      Registrar.isDestructive (Schema.localSchema r) = false).
Proof.
  intros Hin. simpl. rewrite (traced_overrides doc e r Hin).
  pose proof (localSchema_annotations r) as Hlocal.
  rewrite (traced_overrides doc e r Hin) in Hlocal.
  unfold readToolAttributes in *. simpl in *.
  destruct (hasAttribute "data-tool-readonly" (node e)),
    (hasAttribute "data-tool-destructive" (node e)),
    (hasAttribute "data-tool-idempotent" (node e)),
    (hasAttribute "data-tool-open-world" (node e)); simpl in *.
  all: split;
    [split; [intros Hs; first [reflexivity | by destruct Hs]
            | intros Ht; first [discriminate Ht | by eexists]]|].
  all: split;
    [intros a Ha; first [discriminate Ha | injection Ha as <-];
     simpl; repeat split; try reflexivity; intros []; simpl; discriminate|].
  all: split;
    [intros Hd; first [discriminate Hd
                      | unfold Registrar.isDestructive;
                        by rewrite (Hlocal _ eq_refl)]|].
  all: intros Hsome Hd;
    first [discriminate Hd
          | by destruct Hsome
          | unfold Registrar.isDestructive; by rewrite (Hlocal _ eq_refl)].
Qed.

(** The annotated chat widget of the demo page. *)
Definition chatWidget : Located :=
  {| node := el "div" [("id", "chat-widget");
                       ("data-tool-name", "open_support_chat");
                       ("data-tool-readonly", EmptyString)]
               [Text "Need help?"];
     chain := [(demoBody, 3%nat); (demoRoot, 1%nat)] |}.

Lemma chatWidget_traced : exists r, (chatWidget, r) ∈ tracedDOM demoDoc.
Proof.
  eexists. apply list_elem_of_In. vm_compute.
  repeat (first [left; reflexivity | right]).
Defined.

Lemma hint_attributes_decide_confirmation_witness :
  exists r,
    (chatWidget, r) ∈ tracedDOM demoDoc
    /\ is_Some (el_overrideAnnotations r)
    /\ (forall a, el_overrideAnnotations r = Some a ->
          readOnlyHint a = Some true /\ destructiveHint a = None)
    /\ Registrar.isDestructive (Schema.localSchema r) = false.
Proof.
  destruct chatWidget_traced as [r Hr]. exists r.
  destruct (hint_attributes_decide_confirmation demoDoc chatWidget r Hr)
    as (Hsome & Hflags & _ & Hsafe).
  assert (is_Some (el_overrideAnnotations r)) as Hs
    by (apply Hsome; reflexivity).
  split; [exact Hr|]. split; [exact Hs|]. split.
  - intros a Ha. destruct (Hflags a Ha) as (Hro & Hd & _).
    split; [exact Hro | exact Hd].
  - apply Hsafe; [exact Hs | reflexivity].
Defined.

(** X28: the ignore marker on the elements the passes visit.  An element
    that carries data-tool-ignore is the origin of no record, in any of the
    three passes and whatever else it carries: the callback of each pass
    pushes nothing for it. *)
Theorem ignored_elements_never_emitted (doc : Document) (e : Located) :
  isIgnored e = true ->
  (forall m, scanForm doc e <> Normal (Some m))
  /\ (forall r, scanButton doc e <> Normal (Some r))
  /\ (forall r, scanAnnotatedElement doc e <> Normal (Some r))
  /\ (forall r, (e, r) ∉ tracedForms doc)
  /\ (forall r, (e, r) ∉ tracedButtons doc)
  /\ (forall r, (e, r) ∉ tracedAnnotated doc)
  /\ (forall r, (e, r) ∉ tracedDOM doc).
Proof.
  intros Hign.
  destruct (ignored_not_pushed doc e Hign) as (Hf & Hb & Ha).
  split; [exact Hf|]. split; [exact Hb|]. split; [exact Ha|].
  split.
  { intros r Hin. apply tracedForms_elem in Hin.
    destruct Hin as (_ & m & Hscan & _). by destruct (Hf m). }
  split.
  { intros r Hin. apply traced_elem in Hin.
    destruct Hin as (_ & Hscan & _). by destruct (Hb r). }
  split.
  { intros r Hin. apply traced_elem in Hin.
    destruct Hin as (_ & Hscan & _). by destruct (Ha r). }
  intros r Hin. apply tracedDOM_elem in Hin.
  destruct Hin as [(_ & m & Hscan & _)|[[_ Hscan]|[_ Hscan]]].
  - by destruct (Hf m).
  - by destruct (Hb r).
  - by destruct (Ha r).
Qed.

(** The admin button of the demo page, with its place in the document. *)
Definition adminButton : Located :=
  {| node := el "button" [("id", "admin-btn");
                          ("data-tool-ignore", EmptyString)]
               [Text "Admin Panel"];
     chain := [(demoBody, 2%nat); (demoRoot, 1%nat)] |}.

Lemma ignored_elements_never_emitted_witness :
  adminButton ∈ buttonCandidates demoDoc
  /\ scanButton demoDoc adminButton = Normal None
  /\ (forall r, (adminButton, r) ∉ tracedButtons demoDoc)
  /\ (forall r, (adminButton, r) ∉ tracedDOM demoDoc).
Proof.
  split; [apply list_elem_of_In; vm_compute;
          repeat (first [left; reflexivity | right])|].
  split; [reflexivity|].
  destruct (ignored_elements_never_emitted demoDoc adminButton eq_refl)
    as (_ & _ & _ & _ & Hb & _ & Hall).
  by split.
Defined.

End ScanRecords.

(** * The schema service *)

(** ** apps/api: routes/generate-schema.ts and lib/openai.ts

    The service reads [type], [id], [selector], [method], [inputs],
    [ariaLabel] and [textContent] of each posted element, and [name],
    [inputType], [required], [placeholder] and [label] of each field; the
    override fields of the kit's records travel in the request body and
    are not read.  The descriptors it builds have no [annotations] field.
    The language model is represented by what its reply parses to, and the
    reply is taken to hold well-formed descriptors. *)

Module Server.

(** [toToolName], as in schema.ts. *)
Definition toToolName (raw : string) : string :=
  Schema.strip_trailing_underscore
    (Schema.strip_leading_underscore
       (Schema.collapse_runs false (Js.toLowerCase raw))).

(** [input.label || input.placeholder || `The ... field (...)`] *)
Definition paramDescription (input : ScannedInput) : string :=
  Js.or_opt (in_label input) (in_placeholder input)
  |? ("The " +:+ in_name input +:+ " field (" +:+ in_inputType input +:+ ")").

(** One iteration of the loop of [localSchemaFromForm]. *)
Definition addInput (acc : ToolInputSchema) (input : ScannedInput)
  : ToolInputSchema :=
  {| properties :=
       Schema.assign (in_name input)
         {| sp_type := if String.eqb (in_inputType input) "number"
                       then "number" else "string";
            sp_description := paramDescription input |} (properties acc);
     required := if in_required input
                 then required acc ++ [in_name input]
                 else required acc |}.

Definition localSchemaFromForm (el : ScannedElement) : ToolSchema :=
  let name := toToolName (el_id el |? "unknown_form") in
  let parameters :=
    match el_inputs el with
    | Some inputs => fold_left addInput inputs {| properties := ∅; required := [] |}
    | None => {| properties := ∅; required := [] |}
    end in
  let inputCount := length (el_inputs el ?? []) in
  {| ts_name := name;
     ts_description :=
       "Submit the " +:+ Js.dq +:+ (el_id el |? "unknown") +:+ Js.dq
         +:+ " form (" +:+ (el_method el ?? "GET") +:+ ", "
         +:+ pretty inputCount +:+ " field"
         +:+ (if Nat.eqb inputCount 1 then EmptyString else "s") +:+ ")";
     ts_parameters := parameters;
     ts_selector := el_selector el;
     ts_elementType := form;
     ts_annotations := None |}.

Definition localSchemaFromButton (el : ScannedElement) : ToolSchema :=
  let label :=
    Js.or_opt (el_ariaLabel el) (Js.or_opt (el_textContent el) (el_id el))
    |? "unknown_button" in
  {| ts_name := toToolName label;
     ts_description := "Click the " +:+ Js.dq +:+ label +:+ Js.dq +:+ " button";
     ts_parameters := {| properties := ∅; required := [] |};
     ts_selector := el_selector el;
     ts_elementType := button;
     ts_annotations := None |}.

Definition generateLocalSchemas (elements : list ScannedElement)
  : list ToolSchema :=
  map (fun el => match el_type el with
                 | form => localSchemaFromForm el
                 | button => localSchemaFromButton el
                 end) elements.

(** *** lib/openai.ts *)

(** What the content of the model's reply parses to: a bare array, or an
    object with optional [schemas] and [tools]. *)
Inductive Parsed :=
  | BareArray (items : list ToolSchema)
  | Object (schemas tools : option (list ToolSchema)).

(** The outcome of [openai.chat.completions.create]. *)
Inductive Reply :=
  | Rejected (message : string)         (* the call throws *)
  | NoContent                           (* no choice, or empty content *)
  | NotJson                             (* JSON.parse throws *)
  | Content (parsed : Parsed).

(** The service's configuration: whether an API key gives a client. *)
Record OpenAI := {
  client : bool;
  reply : Reply
}.

(** [isAIAvailable] *)
Definition isAIAvailable (ai : OpenAI) : bool := client ai.

(** [schemas[i].selector = elements[i].selector;
     schemas[i].elementType = elements[i].type] *)
Definition restore (schema : ToolSchema) (element : ScannedElement)
  : ToolSchema :=
  {| ts_name := ts_name schema;
     ts_description := ts_description schema;
     ts_parameters := ts_parameters schema;
     ts_selector := el_selector element;
     ts_elementType := el_type element;
     ts_annotations := ts_annotations schema |}.

(** The loop [for (i = 0; i < schemas.length && i < elements.length; i++)]
    at the end of [generateSchemas]. *)
Definition restoreAll (schemas : list ToolSchema)
    (elements : list ScannedElement) : list ToolSchema :=
  imap (fun i schema => match elements !! i with
                        | Some element => restore schema element
                        | None => schema
                        end) schemas.

(** [Array.isArray(parsed) ? parsed : parsed.schemas ?? parsed.tools ?? []] *)
Definition replySchemas (parsed : Parsed) : list ToolSchema :=
  match parsed with
  | BareArray items => items
  | Object schemas tools =>
      match schemas with
      | Some items => items
      | None => tools ?? []
      end
  end.

(** [generateSchemas(elements, pageUrl)] *)
Definition generateSchemas (ai : OpenAI) (elements : list ScannedElement)
  : completion (list ToolSchema) :=
  if negb (client ai) then
    Throw (Error "OpenAI client not available — API key not configured.")
  else
    match reply ai with
    | Rejected message => Throw (Error message)
    | NoContent => Throw (Error "OpenAI returned empty response.")
    | NotJson => Throw (SyntaxError "JSON.parse")
    | Content parsed => Normal (restoreAll (replySchemas parsed) elements)
    end.

(** *** The route *)

(** An item of the posted array: a record of the declared shape, or null.
    (Items of other shapes are outside this description.) *)
Inductive Item :=
  | Rec (element : ScannedElement)
  | NullItem.

Definition isNull (item : Item) : bool :=
  match item with
  | Rec _ => false
  | NullItem => true
  end.

(** The records of an array without null. *)
Fixpoint records (items : list Item) : option (list ScannedElement) :=
  match items with
  | [] => Some []
  | Rec element :: rest => cons element <$> records rest
  | NullItem :: _ => None
  end.

(** [generateLocalSchemas(elements)] on the posted array: [el.type] of a
    null item throws. *)
Definition generateLocalSchemasOn (items : list Item)
  : completion (list ToolSchema) :=
  match records items with
  | Some elements => Normal (generateLocalSchemas elements)
  | None => Throw (TypeError "Cannot read properties of null (reading 'type')")
  end.

(** The loop at the end of [generateSchemas] on the posted array:
    [elements[i].selector] of a null item throws, for the positions the
    loop reaches. *)
Definition restoreItems (schemas : list ToolSchema) (items : list Item)
  : completion (list ToolSchema) :=
  if existsb isNull (take (length schemas) items)
  then Throw (TypeError "Cannot read properties of null (reading 'selector')")
  else Normal (imap (fun i schema => match items !! i with
                                     | Some (Rec element) =>
                                         restore schema element
                                     | _ => schema
                                     end) schemas).

(** [generateSchemas(elements, pageUrl)] on the posted array. *)
Definition generateSchemasOn (ai : OpenAI) (items : list Item)
  : completion (list ToolSchema) :=
  if negb (client ai) then
    Throw (Error "OpenAI client not available — API key not configured.")
  else
    match reply ai with
    | Rejected message => Throw (Error message)
    | NoContent => Throw (Error "OpenAI returned empty response.")
    | NotJson => Throw (SyntaxError "JSON.parse")
    | Content parsed => restoreItems (replySchemas parsed) items
    end.

(** The request body: unreadable; the JSON value null, which cannot be
    destructured; or a value whose [elements] is an array ([Some]) or is
    missing or not an array ([None]).  A number, a string, a Boolean or an
    array as body has no [elements]. *)
Inductive Body :=
  | Malformed
  | NullBody
  | Posted (siteId pageUrl : option string) (elements : option (list Item)).

(** The response, as the kit reads it: the status, and [schemas] and
    [meta.source] of the body. *)
Definition respond (code : nat) (schemas : option (list ToolSchema))
    (source : option string) : Schema.Response :=
  {| Schema.status := code; Schema.body := Schema.Json schemas source |}.

(** [POST /api/v1/generate-schema]: what is thrown inside the handler,
    outside the inner try block, is answered with 500. *)
Definition route (ai : OpenAI) (body : Body) : Schema.Response :=
  match body with
  | Malformed | NullBody => respond 500 None None
  | Posted siteId pageUrl elements =>
      match elements with
      | None | Some [] => respond 400 None None
      | Some items =>
          let local :=
            match generateLocalSchemasOn items with
            | Normal schemas => respond 200 (Some schemas) (Some "local")
            | Throw _ => respond 500 None None
            end in
          if isAIAvailable ai then
            match generateSchemasOn ai items with
            | Normal schemas => respond 200 (Some schemas) (Some "ai")
            | Throw _ => local
            end
          else local
      end
  end.


End Server.

(** ** Properties of the service *)

Section Service.

Import Schema Server.

(** An element as the service reads it: without the override fields. *)
Definition fieldWithoutOverride (i : ScannedInput) : ScannedInput :=
  {| in_name := in_name i; in_inputType := in_inputType i;
     in_required := in_required i; in_placeholder := in_placeholder i;
     in_label := in_label i; in_overrideParamDescription := None |}.

Definition withoutOverrides (e : ScannedElement) : ScannedElement :=
  {| el_type := el_type e; el_id := el_id e; el_selector := el_selector e;
     el_action := el_action e; el_method := el_method e;
     el_inputs := option_map (map fieldWithoutOverride) (el_inputs e);
     el_ariaLabel := el_ariaLabel e; el_textContent := el_textContent e;
     el_overrideName := None; el_overrideDescription := None;
     el_overrideAnnotations := None |}.

Definition withoutAnnotations (s : ToolSchema) : ToolSchema :=
  {| ts_name := ts_name s; ts_description := ts_description s;
     ts_parameters := ts_parameters s; ts_selector := ts_selector s;
     ts_elementType := ts_elementType s; ts_annotations := None |}.

Lemma addInput_without_override (inputs : list ScannedInput)
    (acc : ToolInputSchema) :
  fold_left Schema.addInput (map fieldWithoutOverride inputs) acc
  = fold_left Server.addInput inputs acc.
Proof.
  revert acc. induction inputs as [|i l IH]; intros acc; [reflexivity|].
  simpl. rewrite IH. reflexivity.
Qed.

Lemma server_local_one (e : ScannedElement) :
  match el_type e with
  | form => localSchemaFromForm e
  | button => localSchemaFromButton e
  end
  = withoutAnnotations (localSchema (withoutOverrides e)).
Proof.
  unfold localSchema. simpl. destruct (el_type e).
  - unfold localSchemaFromForm, schemaFromForm, withoutAnnotations,
      formName, formDescription, inputsToSchema. simpl. f_equal.
    + destruct (el_inputs e) as [inputs|]; simpl; [|reflexivity].
      by rewrite length_map.
    + destruct (el_inputs e) as [inputs|]; simpl; [|reflexivity].
      symmetry. apply addInput_without_override.
  - reflexivity.
Qed.

Lemma server_local_plain (elements : list ScannedElement) :
  Forall (fun s => ts_annotations s = None)
    (Server.generateLocalSchemas elements).
Proof.
  unfold Server.generateLocalSchemas. apply Forall_map, Forall_forall.
  intros e _. simpl. by destruct (el_type e).
Qed.

(** X14: the local generator of the service is the local generator of the
    kit on the elements stripped of their overrides, with the annotations
    dropped.  It yields one descriptor per element, in order, with the
    selector and the type of its element; its result does not depend on any
    override, and none of its descriptors is treated as destructive. *)
Theorem service_local_ignores_overrides (elements : list ScannedElement) :
  Server.generateLocalSchemas elements
  = map withoutAnnotations
      (Schema.generateLocalSchemas (map withoutOverrides elements))
  /\ map ts_selector (Server.generateLocalSchemas elements)
     = map el_selector elements
  /\ map ts_elementType (Server.generateLocalSchemas elements)
     = map el_type elements
  /\ Server.generateLocalSchemas (map withoutOverrides elements)
     = Server.generateLocalSchemas elements
  /\ Forall (fun s => Registrar.isDestructive s = false)
       (Server.generateLocalSchemas elements).
Proof.
  assert (Heq : Server.generateLocalSchemas elements
                = map withoutAnnotations
                    (Schema.generateLocalSchemas
                       (map withoutOverrides elements))).
  { rewrite generateLocalSchemas_map. unfold Server.generateLocalSchemas.
    rewrite !map_map. apply map_ext. intros e. apply server_local_one. }
  split; [exact Heq|].
  split.
  { unfold Server.generateLocalSchemas. rewrite map_map. apply map_ext.
    intros e. by destruct (el_type e). }
  split.
  { unfold Server.generateLocalSchemas. rewrite map_map. apply map_ext.
    intros e. by destruct (el_type e). }
  split.
  { unfold Server.generateLocalSchemas. rewrite map_map. apply map_ext.
    intros e. rewrite !server_local_one. f_equal. f_equal.
    unfold withoutOverrides. simpl. f_equal.
    destruct (el_inputs e) as [inputs|]; simpl; [|reflexivity].
    f_equal. rewrite map_map. apply map_ext. by intros []. }
  eapply Forall_impl; [apply server_local_plain|].
  intros s Hs. unfold Registrar.isDestructive. by rewrite Hs.
Qed.

Lemma restoreAll_lookup (schemas : list ToolSchema)
    (elements : list ScannedElement) (i : nat) :
  restoreAll schemas elements !! i
  = (fun schema => match elements !! i with
                   | Some element => restore schema element
                   | None => schema
                   end) <$> schemas !! i.
Proof. unfold restoreAll. apply list_lookup_imap. Qed.

Lemma restoreAll_length (schemas : list ToolSchema)
    (elements : list ScannedElement) :
  length (restoreAll schemas elements) = length schemas.
Proof. unfold restoreAll. apply length_imap. Qed.

(** A reply of three descriptors for a page of two elements. *)
Definition guess (name selector : string) : ToolSchema :=
  {| ts_name := name; ts_description := name;
     ts_parameters := emptySchema; ts_selector := selector;
     ts_elementType := form; ts_annotations := None |}.

Definition talkative : OpenAI :=
  {| client := true;
     reply := Content (Object None
                         (Some [guess "buy" "#a"; guess "pay" "#b";
                                guess "extra" "#made-up"])) |}.

(** X15: when [generateSchemas] returns, the client exists and the reply
    parsed; the result has as many descriptors as the reply, each with the
    name, description, parameters and annotations of the reply.  A
    descriptor at a position that has an element takes the selector and the
    type of that element, so with at most as many descriptors as elements
    the selectors are the first selectors of the elements, in order; a
    descriptor beyond the last element keeps the selector of the reply. *)
Theorem generateSchemas_restores_selectors (ai : OpenAI)
    (elements : list ScannedElement) (schemas : list ToolSchema) :
  generateSchemas ai elements = Normal schemas ->
  exists parsed,
    client ai = true /\ reply ai = Content parsed
    /\ length schemas = length (replySchemas parsed)
    /\ map ts_name schemas = map ts_name (replySchemas parsed)
    /\ map ts_annotations schemas = map ts_annotations (replySchemas parsed)
    /\ (forall i s e, schemas !! i = Some s -> elements !! i = Some e ->
          ts_selector s = el_selector e /\ ts_elementType s = el_type e)
    /\ (length schemas <= length elements ->
          map ts_selector schemas
          = take (length schemas) (map el_selector elements))%nat
    /\ (forall i s, schemas !! i = Some s -> elements !! i = None ->
          replySchemas parsed !! i = Some s).
Proof.
  unfold generateSchemas. intros H.
  destruct (client ai) eqn:Hclient; [|discriminate H]. simpl in H.
  destruct (reply ai) as [| | |parsed] eqn:Hreply; try discriminate H.
  injection H as <-. exists parsed.
  set (raw := replySchemas parsed).
  split; [reflexivity|]. split; [reflexivity|].
  split; [apply restoreAll_length|].
  assert (Hat : forall i s, restoreAll raw elements !! i = Some s ->
            exists s0, raw !! i = Some s0
                       /\ s = match elements !! i with
                              | Some element => restore s0 element
                              | None => s0
                              end).
  { intros i s Hs. rewrite restoreAll_lookup in Hs.
    destruct (raw !! i) as [s0|]; [|discriminate Hs].
    injection Hs as <-. by exists s0. }
  split.
  { apply list_eq. intros i. rewrite !list_lookup_fmap, restoreAll_lookup.
    destruct (raw !! i) as [s0|]; [|reflexivity]. simpl.
    by destruct (elements !! i). }
  split.
  { apply list_eq. intros i. rewrite !list_lookup_fmap, restoreAll_lookup.
    destruct (raw !! i) as [s0|]; [|reflexivity]. simpl.
    by destruct (elements !! i). }
  split.
  { intros i s e Hs He. destruct (Hat i s Hs) as (s0 & _ & ->).
    by rewrite He. }
  split.
  { intros Hle. rewrite restoreAll_length in *.
    apply list_eq. intros i. rewrite list_lookup_fmap, restoreAll_lookup.
    destruct (raw !! i) as [s0|] eqn:Hraw; simpl.
    - apply lookup_lt_Some in Hraw.
      rewrite lookup_take_lt by exact Hraw. rewrite list_lookup_fmap.
      destruct (elements !! i) as [e|] eqn:He; [reflexivity|].
      apply lookup_ge_None in He. lia.
    - apply lookup_ge_None in Hraw. symmetry. apply lookup_ge_None.
      rewrite length_take. lia. }
  intros i s Hs He. destruct (Hat i s Hs) as (s0 & Hraw & ->).
  by rewrite He.
Qed.

Lemma generateSchemas_restores_selectors_witness :
  exists schemas,
    generateSchemas talkative [buyButton; feedbackForm] = Normal schemas
    /\ map ts_name schemas = ["buy"; "pay"; "extra"]
    /\ map ts_selector schemas
       = [el_selector buyButton; el_selector feedbackForm; "#made-up"].
Proof.
  eexists. split; [reflexivity|].
  destruct (generateSchemas_restores_selectors talkative
              [buyButton; feedbackForm] _ eq_refl)
    as (parsed & _ & Hreply & _ & Hnames & _).
  injection Hreply as <-. split; [exact Hnames | reflexivity].
Defined.

Lemma records_Rec (elements : list ScannedElement) :
  records (map Rec elements) = Some elements.
Proof.
  induction elements as [|e l IH]; [reflexivity|]. simpl. by rewrite IH.
Qed.

Lemma records_length (items : list Item) (elements : list ScannedElement) :
  records items = Some elements -> length elements = length items.
Proof.
  revert elements. induction items as [|[e|] l IH]; intros elements H;
    simpl in H.
  - by injection H as <-.
  - destruct (records l) as [rest|]; [|discriminate].
    injection H as <-. simpl. by rewrite (IH rest).
  - discriminate.
Qed.

Lemma no_null_Rec (elements : list ScannedElement) (n : nat) :
  existsb isNull (take n (map Rec elements)) = false.
Proof.
  revert n. induction elements as [|e l IH]; intros [|n]; simpl; try done.
Qed.

(** On an array of records the two descriptions of [generateSchemas]
    agree. *)
Lemma generateSchemasOn_Rec (ai : OpenAI) (elements : list ScannedElement) :
  generateSchemasOn ai (map Rec elements) = generateSchemas ai elements.
Proof.
  unfold generateSchemasOn, generateSchemas, restoreItems, restoreAll.
  destruct (client ai); [|reflexivity]. simpl.
  destruct (reply ai) as [| | |parsed]; try reflexivity.
  rewrite no_null_Rec. f_equal. apply imap_ext. intros i schema _.
  rewrite list_lookup_fmap. by destruct (elements !! i).
Qed.



(** X16: the answers of the route.  It answers 400 exactly to a body that
    can be read and destructured and has no element.  It answers 500 to a
    body that cannot be read and to the body null.  To a body with at least
    one item it answers with the descriptors of [generateSchemas] and the
    source ai when that call returns; when there is no client or the call
    throws, it answers with the local descriptors, one per item, and the
    source local if no item is null, and with 500 if one is.  Hence a body
    of records, at least one, is always answered 200 with descriptors,
    whatever the state of the model.  The answer is one of 200, 400 and
    500, and it is a success for the kit exactly when it is 200. *)
Theorem route_answers (ai : OpenAI) (body : Body) :
  let r := route ai body in
  (status r = 400%nat
   <-> exists siteId pageUrl elements,
         body = Posted siteId pageUrl elements
         /\ (elements = None \/ elements = Some []))
  /\ (body = Malformed \/ body = NullBody -> status r = 500%nat)
  /\ (forall siteId pageUrl items,
        body = Posted siteId pageUrl (Some items) -> items <> [] ->
        match generateSchemasOn ai items with
        | Normal schemas =>
            status r = 200%nat
            /\ Schema.body r = Json (Some schemas) (Some "ai")
        | Throw _ =>
            match records items with
            | Some elements =>
                status r = 200%nat
                /\ Schema.body r
                   = Json (Some (Server.generateLocalSchemas elements))
                       (Some "local")
                /\ length (Server.generateLocalSchemas elements)
                   = length items
            | None => status r = 500%nat
            end
        end)
  /\ (forall siteId pageUrl elements,
        body = Posted siteId pageUrl (Some (map Rec elements)) ->
        elements <> [] ->
        status r = 200%nat
        /\ match generateSchemas ai elements with
           | Normal schemas =>
               Schema.body r = Json (Some schemas) (Some "ai")
           | Throw _ =>
               Schema.body r
               = Json (Some (Server.generateLocalSchemas elements))
                   (Some "local")
           end)
  /\ (status r = 200%nat \/ status r = 400%nat \/ status r = 500%nat)
  /\ (ok r = true <-> status r = 200%nat).
Proof.
  assert (Hlen : forall l, length (Server.generateLocalSchemas l) = length l)
    by (intros l; apply length_map).
  assert (Hitems : forall siteId pageUrl items, items <> [] ->
            let r := route ai (Posted siteId pageUrl (Some items)) in
            match generateSchemasOn ai items with
            | Normal schemas =>
                r = respond 200 (Some schemas) (Some "ai")
            | Throw _ =>
                match records items with
                | Some elements =>
                    r = respond 200
                          (Some (Server.generateLocalSchemas elements))
                          (Some "local")
                | None => r = respond 500 None None
                end
            end).
  { intros siteId pageUrl items Hne. cbv zeta.
    unfold route, isAIAvailable.
    destruct items as [|i0 l]; [done|].
    destruct (client ai) eqn:Hclient.
    - destruct (generateSchemasOn ai (i0 :: l)); [reflexivity|].
      unfold generateLocalSchemasOn. by destruct (records (i0 :: l)).
    - assert (Hno : exists e, generateSchemasOn ai (i0 :: l) = Throw e).
      { unfold generateSchemasOn. rewrite Hclient. by eexists. }
      destruct Hno as [e ->].
      unfold generateLocalSchemasOn. by destruct (records (i0 :: l)). }
  destruct body as [| |siteId pageUrl [items|]].
  - simpl. split; [split; [discriminate|by intros (? & ? & ? & ? & _)]|].
    split; [done|]. split; [by intros|]. split; [by intros|].
    split; [tauto|]. split; discriminate.
  - simpl. split; [split; [discriminate|by intros (? & ? & ? & ? & _)]|].
    split; [done|]. split; [by intros|]. split; [by intros|].
    split; [tauto|]. split; discriminate.
  - destruct (decide (items = [])) as [->|Hne].
    { simpl. split; [split; [intros _; eexists _, _, _; split; eauto|done]|].
      split; [intros [H|H]; discriminate H|].
      split; [intros ? ? ? H Hn; by injection H as _ _ <-|].
      split; [intros ? ? els H Hn; destruct els; [done | discriminate H]|].
      split; [tauto|]. split; discriminate. }
    specialize (Hitems siteId pageUrl items Hne). cbv zeta in Hitems.
    cbv zeta.
    assert (Hcode : status (route ai (Posted siteId pageUrl (Some items)))
                    = 200%nat
                    \/ status (route ai (Posted siteId pageUrl (Some items)))
                       = 500%nat).
    { destruct (generateSchemasOn ai items); [rewrite Hitems; by left|].
      destruct (records items); rewrite Hitems; [by left | by right]. }
    split.
    { split; [intros H; destruct Hcode as [Hc|Hc]; rewrite Hc in H;
              discriminate H|].
      intros (? & ? & ? & Heq & [->| ->]); [discriminate Heq|].
      injection Heq as _ _ Hnil. by destruct (Hne Hnil). }
    split; [intros [H|H]; discriminate H|].
    split.
    { intros ? ? items' Heq _. injection Heq as _ _ <-.
      destruct (generateSchemasOn ai items); [by rewrite Hitems|].
      destruct (records items) as [elements|] eqn:Hrec; rewrite Hitems;
        [|reflexivity].
      split; [reflexivity|]. split; [reflexivity|].
      by rewrite Hlen, (records_length items elements Hrec). }
    split.
    { intros ? ? elements Heq Hels. injection Heq as _ _ ->.
      rewrite generateSchemasOn_Rec, records_Rec in Hitems.
      destruct (generateSchemas ai elements); by rewrite Hitems. }
    split; [destruct Hcode as [->| ->]; tauto|].
    destruct Hcode as [Hc|Hc].
    + destruct (generateSchemasOn ai items);
        [rewrite Hitems; by split|].
      destruct (records items); rewrite Hitems in Hc |- *; [by split|].
      discriminate Hc.
    + destruct (generateSchemasOn ai items);
        [rewrite Hitems in Hc; discriminate Hc|].
      destruct (records items); rewrite Hitems in Hc |- *;
        [discriminate Hc|]. split; discriminate.
  - simpl. split; [split; [intros _; eexists _, _, _; split; eauto|done]|].
    split; [intros [H|H]; discriminate H|].
    split; [intros ? ? ? H; discriminate H|].
    split; [intros ? ? ? H; discriminate H|].
    split; [tauto|]. split; discriminate.
Qed.

(** The body null and a body whose only element is null are read without
    error and answered 500; so is the second by a service whose model
    returns a descriptor, while the same service answers 200 when the model
    returns none, the loop over the descriptors then reaching no item. *)
Example null_is_answered_500 :
  let keyless := {| client := false; reply := NoContent |} in
  status (route keyless NullBody) = 500%nat
  /\ status (route keyless (Posted None None (Some [NullItem]))) = 500%nat
  /\ status (route talkative (Posted None None (Some [NullItem]))) = 500%nat
  /\ route {| client := true; reply := Content (BareArray []) |}
       (Posted None None (Some [NullItem]))
     = respond 200 (Some []) (Some "ai").
Proof. by repeat split. Qed.


(** A service without an API key. *)
Definition keyless : OpenAI := {| client := false; reply := NoContent |}.



End Service.

(** * Further properties of the watcher *)

Section WatcherLifecycle.

Import Watcher.

(** [isWatching] *)
Definition isWatching (w : Window) : bool := observer w.

(** Without a config a due timer does nothing. *)
Lemma fire_without_config (ts : list Timer) (w : Window) :
  config w = false ->
  reconciliations (fire ts w) = reconciliations w
  /\ config (fire ts w) = false /\ observer (fire ts w) = observer w
  /\ debounceTimer (fire ts w) = debounceTimer w
  /\ timers (fire ts w) = timers w.
Proof.
  revert w. induction ts as [|t ts IH]; intros w Hcfg; [done|].
  simpl. unfold handleDOMChange. simpl. rewrite Hcfg. simpl.
  destruct (IH (set_time (Z.max (time w) (due t)) w) Hcfg)
    as (H1 & H2 & H3 & H4 & H5).
  by rewrite H1, H2, H3, H4, H5.
Qed.

Definition Stopped (R : list (Reason * Z)) (w : Window) : Prop :=
  observer w = false /\ config w = false /\ debounceTimer w = None
  /\ reconciliations w = R.

Lemma advanceTo_stopped (R : list (Reason * Z)) (t : Z) (w : Window) :
  Stopped R w -> Stopped R (advanceTo t w).
Proof.
  intros (Hobs & Hcfg & Hdt & Hrec). unfold advanceTo.
  set (w0 := set_timers _ w).
  destruct (fire_without_config
              (filter (fun x => (due x <= t)%Z) (timers w)) w0 Hcfg)
    as (H1 & H2 & H3 & H4 & _).
  unfold Stopped. simpl. by rewrite H1, H2, H3, H4.
Qed.

Lemma run_stopped (R : list (Reason * Z)) (signals : list (Z * Signal))
    (w : Window) :
  Stopped R w -> Stopped R (run signals w).
Proof.
  revert w. induction signals as [|[t s] rest IH]; intros w Hw; [exact Hw|].
  simpl. apply IH.
  pose proof (advanceTo_stopped R t w Hw) as Hw1.
  unfold deliver. destruct Hw1 as (Hobs & Hrest). rewrite Hobs. simpl.
  by split.
Qed.

Lemma stopWatching_stopped (w : Window) :
  Stopped (reconciliations w) (stopWatching w).
Proof.
  unfold stopWatching, Stopped.
  destruct (debounceTimer w) eqn:Hdt; simpl; by rewrite ?Hdt.
Qed.

(** X18: stopping is final.  After [stopWatching], whatever the state it
    was called in, the watcher is not watching, no debounce timer is named,
    the pending debounced timer is gone, and no later signal and no passing
    of time starts a reconciliation: the record of reconciliations stays
    the one at the call.  Stopping twice is the same as stopping once. *)
Theorem stopWatching_is_final (w : Window) (signals : list (Z * Signal))
    (t : Z) :
  let stopped := stopWatching w in
  let later := advanceTo t (run signals stopped) in
  isWatching stopped = false
  /\ debounceTimer stopped = None
  /\ (forall id, debounceTimer w = Some id ->
        Forall (fun x => timer_id x <> id) (timers stopped))
  /\ stopWatching stopped = stopped
  /\ isWatching later = false
  /\ reconciliations later = reconciliations w.
Proof.
  simpl.
  pose proof (advanceTo_stopped _ t _
                (run_stopped _ signals _ (stopWatching_stopped w)))
    as (Hobs & _ & _ & Hrec).
  destruct (stopWatching_stopped w) as (Hobs0 & _ & Hdt0 & _).
  split; [exact Hobs0|]. split; [exact Hdt0|].
  split.
  { intros id Hid. unfold stopWatching. rewrite Hid. simpl.
    apply Forall_forall. intros x Hx.
    apply list_elem_of_filter in Hx. by destruct Hx. }
  split.
  { unfold stopWatching at 1. rewrite Hdt0. simpl.
    unfold stopWatching.
    destruct (debounceTimer w) eqn:Hdt; simpl; by rewrite ?Hdt. }
  split; [exact Hobs | exact Hrec].
Qed.

(** X19: navigation events are deduplicated by location.
    [handleNavigation] always leaves the current location equal to the
    location of the event, so handling the same event twice in a row is the
    same as handling it once; an event at the current location changes
    nothing, and any other event names exactly one pending timer, due 300
    ms later with reason navigation. *)
Theorem handleNavigation_dedupes (href : string) (w : Window) :
  currentUrl (handleNavigation href w) = href
  /\ handleNavigation href (handleNavigation href w)
     = handleNavigation href w
  /\ (href = currentUrl w -> handleNavigation href w = w)
  /\ (href <> currentUrl w ->
      debounceTimer (handleNavigation href w) = Some (next_id w)
      /\ exists kept,
           timers (handleNavigation href w)
           = (kept ++ [{| timer_id := next_id w;
                          due := (time w + DEBOUNCE_MS)%Z;
                          reason := navigation |}])%list
           /\ forall x, x ∈ kept ->
                x ∈ timers w /\ debounceTimer w <> Some (timer_id x)).
Proof.
  assert (Hurl : currentUrl (handleNavigation href w) = href).
  { unfold handleNavigation.
    destruct (String.eqb href (currentUrl w)) eqn:Heq.
    - symmetry. by apply String.eqb_eq.
    - unfold debouncedRescan. simpl.
      by destruct (debounceTimer w). }
  split; [exact Hurl|]. split.
  { unfold handleNavigation at 1. rewrite Hurl.
    by rewrite String.eqb_refl. }
  split.
  { intros ->. unfold handleNavigation. by rewrite String.eqb_refl. }
  intros Hne. unfold handleNavigation.
  destruct (String.eqb href (currentUrl w)) eqn:Heq.
  { apply String.eqb_eq in Heq. done. }
  unfold debouncedRescan. simpl.
  destruct (debounceTimer w) as [id|] eqn:Hdt; simpl.
  - split; [reflexivity|]. eexists. split; [reflexivity|].
    intros x Hx. apply list_elem_of_filter in Hx. destruct Hx as [Hid Hx].
    split; [exact Hx|]. intros H. injection H as H. by apply Hid.
  - split; [reflexivity|]. exists (timers w). split; [reflexivity|].
    intros x Hx. by split.
Qed.

(** X20: the watcher starts once.  [startWatching] leaves a watching
    watcher, and on a watcher that is already watching it changes nothing,
    so of two calls in a row only the first decides the location: the
    arguments of the second are ignored.  After [stopWatching] a new call
    takes effect again, and a navigation event at the location of the start
    is then dropped. *)
Theorem startWatching_once (href1 href2 : string) (w : Window) :
  isWatching (startWatching href1 w) = true
  /\ (isWatching w = true -> startWatching href1 w = w)
  /\ startWatching href2 (startWatching href1 w) = startWatching href1 w
  /\ (let restarted := startWatching href2 (stopWatching w) in
      isWatching restarted = true /\ config restarted = true
      /\ currentUrl restarted = href2 /\ debounceTimer restarted = None
      /\ reconciliations restarted = reconciliations w
      /\ handleNavigation href2 restarted = restarted).
Proof.
  assert (Hon : isWatching (startWatching href1 w) = true).
  { unfold isWatching, startWatching.
    by destruct (observer w) eqn:Hobs. }
  split; [exact Hon|]. split.
  { unfold isWatching, startWatching. by intros ->. }
  split.
  { unfold isWatching in Hon. unfold startWatching at 1. by rewrite Hon. }
  destruct (stopWatching_stopped w) as (Hobs & Hcfg & Hdt & Hrec).
  unfold startWatching. rewrite Hobs. simpl.
  repeat split; try done.
  unfold handleNavigation. simpl. by rewrite String.eqb_refl.
Qed.

(** The reason a signal gives to [debouncedRescan]. *)
Definition reasonOf (s : Signal) : Reason :=
  match s with
  | Mutations _ => mutation
  | Navigation _ => navigation
  end.

(** Signals that are more than the debounce interval apart, the first one
    not before [from]. *)
Fixpoint apart (from : Z) (signals : list (Z * Signal)) : Prop :=
  match signals with
  | [] => True
  | (t, _) :: rest => (from <= t)%Z /\ apart (t + DEBOUNCE_MS + 1) rest
  end.

(** The reconciliations that the pending timers stand for. *)
Definition scheduled (ts : list Timer) : list (Reason * Z) :=
  map (fun x => (reason x, due x)) ts.

(** At most one timer is pending; it is due before [from]. *)
Definition Settling (from : Z) (w : Window) : Prop :=
  observer w = true /\ config w = true /\ (time w <= from)%Z
  /\ (timers w = []
      \/ exists x, timers w = [x] /\ (time w <= due x < from)%Z).

Lemma advanceTo_flush (t : Z) (w : Window) :
  observer w = true -> config w = true ->
  (timers w = [] \/ exists x, timers w = [x] /\ (time w <= due x <= t)%Z) ->
  let w1 := advanceTo t w in
  observer w1 = true /\ config w1 = true /\ time w1 = Z.max (time w) t
  /\ timers w1 = []
  /\ reconciliations w1
     = (reconciliations w ++ scheduled (timers w))%list.
Proof.
  intros Hobs Hcfg Hts. unfold advanceTo.
  destruct Hts as [Hts|(x & Hts & Hdue)]; rewrite Hts.
  - simpl. rewrite app_nil_r. by repeat split.
  - rewrite (filter_cons_True (fun x => (due x <= t)%Z)) by lia.
    rewrite (filter_cons_False (fun x => ¬ (due x <= t)%Z)) by lia.
    rewrite !filter_nil. simpl. unfold handleDOMChange. simpl.
    rewrite Hcfg. simpl.
    repeat split; try done; try lia.
    do 3 f_equal. lia.
Qed.

Lemma deliver_settled (s : Signal) (w : Window) :
  observer w = true -> timers w = [] -> triggers s w = true ->
  let w1 := deliver s w in
  observer w1 = observer w /\ config w1 = config w /\ time w1 = time w
  /\ reconciliations w1 = reconciliations w
  /\ exists id, timers w1 = [{| timer_id := id;
                                due := (time w + DEBOUNCE_MS)%Z;
                                reason := reasonOf s |}].
Proof.
  intros Hobs Hts Htr. unfold triggers in Htr. rewrite Hobs in Htr.
  simpl in Htr. unfold deliver. rewrite Hobs. simpl.
  destruct s as [records|href]; simpl.
  - unfold observerCallback. rewrite Htr.
    unfold debouncedRescan, clearTimeout.
    destruct (debounceTimer w); simpl; rewrite Hts; simpl;
      repeat split; try done; by eexists.
  - unfold handleNavigation.
    apply negb_true_iff in Htr. rewrite Htr.
    unfold debouncedRescan, clearTimeout. simpl.
    destruct (debounceTimer w); simpl; rewrite Hts; simpl;
      repeat split; try done; by eexists.
Qed.

Lemma run_apart (signals : list (Z * Signal)) (from T : Z) (w : Window) :
  Settling from w ->
  apart from signals ->
  allTrigger signals w = true ->
  Forall (fun x => (due x <= T)%Z) (timers w) ->
  Forall (fun ts => (ts.1 + DEBOUNCE_MS <= T)%Z) signals ->
  reconciliations (advanceTo T (run signals w))
  = (reconciliations w ++ scheduled (timers w)
     ++ map (fun ts => (reasonOf ts.2, (ts.1 + DEBOUNCE_MS)%Z)) signals)%list
  /\ timers (advanceTo T (run signals w)) = [].
Proof.
  revert from w.
  induction signals as [|[t s] rest IH]; intros from w Hw Hapart Hall HT HF.
  - simpl. rewrite app_nil_r.
    destruct Hw as (Hobs & Hcfg & Htime & Hts).
    destruct (advanceTo_flush T w Hobs Hcfg) as (_ & _ & _ & Hts1 & Hrec).
    { destruct Hts as [Hts|(x & Hts & Hdue)]; [by left|right].
      exists x. split; [exact Hts|]. rewrite Hts in HT.
      apply Forall_cons in HT. destruct HT as [HT _]. lia. }
    by split.
  - simpl in Hapart, Hall. destruct Hapart as [Hfrom Hapart].
    apply andb_true_iff in Hall. destruct Hall as [Htr Hall].
    apply Forall_cons in HF. destruct HF as [Hlast HF]. simpl in Hlast.
    destruct Hw as (Hobs & Hcfg & Htime & Hts).
    destruct (advanceTo_flush t w Hobs Hcfg)
      as (Hobs1 & Hcfg1 & Htime1 & Hts1 & Hrec1).
    { destruct Hts as [Hts|(x & Hts & Hdue)]; [by left|right].
      exists x. split; [exact Hts|]. lia. }
    rewrite Z.max_r in Htime1 by lia.
    destruct (deliver_settled s (advanceTo t w) Hobs1 Hts1 Htr)
      as (Hobs2 & Hcfg2 & Htime2 & Hrec2 & id & Hts2).
    simpl run.
    assert (Hw2 : Settling (t + DEBOUNCE_MS + 1) (deliver s (advanceTo t w))).
    { split; [by rewrite Hobs2|]. split; [by rewrite Hcfg2|].
      rewrite Htime2, Htime1. unfold DEBOUNCE_MS. split; [lia|].
      right. eexists. split; [exact Hts2|]. cbn [due]. rewrite Htime1.
      unfold DEBOUNCE_MS. lia. }
    assert (HT2 : Forall (fun x => (due x <= T)%Z)
                    (timers (deliver s (advanceTo t w)))).
    { rewrite Hts2. apply Forall_cons. split; [|apply Forall_nil_2].
      cbn [due]. by rewrite Htime1. }
    destruct (IH _ _ Hw2 Hapart Hall HT2 HF) as [Hrec Hts'].
    split; [|exact Hts'].
    rewrite Hrec, Hrec2, Hrec1, Hts2, Htime1. simpl.
    by rewrite <- !app_assoc.
Qed.

(** X21: the debounce drops nothing that is far enough apart.  On a
    watching watcher with no pending timer, signals that each call
    [debouncedRescan] and that are more than 300 ms apart from one another
    produce one reconciliation each: by the time the last timer is due,
    the record has grown by one entry per signal, in order, each with the
    reason of its signal and 300 ms after it, and no timer is pending. *)
Theorem separated_signals_each_reconcile (signals : list (Z * Signal))
    (T : Z) (w : Window) :
  isWatching w = true -> config w = true -> timers w = [] ->
  apart (time w) signals ->
  allTrigger signals w = true ->
  Forall (fun ts => (ts.1 + DEBOUNCE_MS <= T)%Z) signals ->
  reconciliations (advanceTo T (run signals w))
  = (reconciliations w
     ++ map (fun ts => (reasonOf ts.2, (ts.1 + DEBOUNCE_MS)%Z)) signals)%list
  /\ timers (advanceTo T (run signals w)) = [].
Proof.
  intros Hobs Hcfg Hts Hapart Hall HF.
  destruct (run_apart signals (time w) T w) as [Hrec Hts']; try done.
  - split; [exact Hobs|]. split; [exact Hcfg|]. split; [lia|]. by left.
  - rewrite Hts. apply Forall_nil_2.
  - split; [|exact Hts']. rewrite Hrec, Hts. reflexivity.
Qed.

(** Two signals 400 ms apart. *)
Definition twoVisits : list (Z * Signal) :=
  [ (100%Z, Mutations [{| addedNodes := 1; removedNodes := 0 |}]);
    (500%Z, Navigation "https://shop.example/#cart") ].

Lemma separated_signals_each_reconcile_witness :
  reconciliations (advanceTo 800 (run twoVisits watching))
  = [(mutation, 400%Z); (navigation, 800%Z)]
  /\ timers (advanceTo 800 (run twoVisits watching)) = [].
Proof.
  apply (separated_signals_each_reconcile twoVisits 800 watching);
    try reflexivity.
  - unfold twoVisits. simpl. unfold DEBOUNCE_MS. lia.
  - unfold twoVisits, DEBOUNCE_MS.
    repeat (apply Forall_cons; split; [simpl; lia|]). apply Forall_nil_2.
Defined.

End WatcherLifecycle.

(** * The kit as a whole *)

(** ** index.ts and the reconciliation of watcher.ts

    The state gathers the module state of schema.ts (in the browser),
    registrar.ts (in the page) and watcher.ts (the window, the current
    selectors and the endpoint of its config) with the fields of the
    [ThirdEyeSDK] instance.  A call runs to its end before the next one
    starts.  The events of index.ts and watcher.ts are recorded in
    [events], those of the registrar in the page.  The logger and the
    settings of the telemetry module ([setDebug], [configureTelemetry])
    change nothing that is read back and are left out. *)

Module Sdk.

(** [ThirdEyeConfig] *)
Record ThirdEyeConfig := {
  siteId : string;
  endpoint : option string;
  ingestUrl : option string;
  debug : option bool
}.

Inductive Event :=
  | SDK_INIT (endpoint : option string)
  | SCAN_COMPLETE (elementCount : nat)
  | DOM_MUTATION (reason : Watcher.Reason) (added removed : nat)
  | TOOL_UNREGISTERED (toolName selector : string).

(** An optional method of the host. *)
Inductive Method := Missing | Works | Throws.

(** What surrounds a call: the document it scans, the answer of the
    remote service to a request, the host's answers to unregistrations,
    the iteration order of the registry Map, the location, and the context
    methods of the host. *)
Record Env := {
  dom : Scanner.Document;
  remote : Schema.Remote;
  refuses : Unregister.HostRefusal;
  order : list string;
  href : string;
  provideContext : Method;
  clearContext : Method
}.

(** *** schema.ts on the records as the scanner pushed them

    The synthesizer is typed on [ScannedElement] and is given what
    [scanDOM] returned.  On a record that holds a control in the place of
    its id, [toToolName] calls [toLowerCase] on the control and throws, the
    template literal of the description shows the control, and the request
    body can be written only if JSON.stringify accepts the control. *)

Definition lift {S A : Type} (c : completion A) : M S A := fun s => (c, s).

(** The description of [schemaFromForm] with the text shown for the id. *)
Definition formDescriptionWith (idText : string) (element : ScannedElement)
  : string :=
  let inputCount := length (el_inputs element ?? []) in
  "Submit the " +:+ Js.dq +:+ idText +:+ Js.dq
    +:+ " form (" +:+ (el_method element ?? "GET") +:+ ", "
    +:+ pretty inputCount +:+ " field"
    +:+ (if Nat.eqb inputCount 1 then EmptyString else "s") +:+ ")".

(** [schemaFromForm] and [schemaFromButton] *)
Definition localSchemaOf (m : Emitted) : completion ToolSchema :=
  let e := record m in
  match idObject m with
  | None => Normal (Schema.localSchema e)
  | Some control =>
      match el_type e with
      | form =>
          match el_overrideName e with
          | None => Throw (notAFunction "raw.toLowerCase")
          | Some name =>
              Normal
                {| ts_name := name;
                   ts_description :=
                     el_overrideDescription e
                     ?? formDescriptionWith (shown control) e;
                   ts_parameters := Schema.inputsToSchema e;
                   ts_selector := el_selector e;
                   ts_elementType := form;
                   ts_annotations :=
                     Some (el_overrideAnnotations e
                           ?? Schema.inferFormAnnotations (el_method e)) |}
          end
      | button =>
          if Js.truthy (Js.or_opt (el_ariaLabel e) (el_textContent e))
          then Normal (Schema.schemaFromButton e)
          else
            match el_overrideName e with
            | None => Throw (notAFunction "raw.toLowerCase")
            | Some name =>
                Normal
                  {| ts_name := name;
                     ts_description :=
                       el_overrideDescription e
                       ?? ("Click the " +:+ Js.dq +:+ shown control
                           +:+ Js.dq +:+ " button");
                     ts_parameters := Schema.emptySchema;
                     ts_selector := el_selector e;
                     ts_elementType := button;
                     ts_annotations :=
                       Some (el_overrideAnnotations e
                             ?? Schema.inferButtonAnnotations e) |}
            end
      end
  end.

(** [generateLocalSchemas]: the loop stops at the first record whose
    descriptor cannot be made. *)
Fixpoint generateLocalSchemasOf (elements : list Emitted)
  : completion (list ToolSchema) :=
  match elements with
  | [] => Normal []
  | m :: rest =>
      andThen (localSchemaOf m) (fun schema =>
      andThen (generateLocalSchemasOf rest) (fun schemas =>
      Normal (schema :: schemas)))
  end.

(** JSON.stringify accepts the record. *)
Definition serialisableRecord (m : Emitted) : bool :=
  match idObject m with Some o => serialisable o | None => true end
  && match actionObject m with Some o => serialisable o | None => true end.

(** Step 3 of [fetchSchemas]: the body of the request is written inside
    the try block, before [fetch] is called. *)
Definition tryApiOf (elements : list Emitted) (endpoint : option string)
    (remote : Schema.Remote) : M Schema.Browser (option (list ToolSchema)) :=
  if Js.truthy endpoint && negb (forallb serialisableRecord elements)
  then ret None
  else Schema.tryApi endpoint remote.

(** [fetchSchemas] *)
Definition fetchSchemasOf (elements : list Emitted)
    (endpoint : option string) (skipCache : bool) (remote : Schema.Remote)
  : M Schema.Browser (list ToolSchema) :=
  cached <- (if skipCache then ret None else Schema.getCachedSchemas) ;;
  match cached with
  | Some schemas => ret schemas
  | None =>
      if Schema.allOverridden (map record elements)
      then lift (generateLocalSchemasOf elements)
      else
        fromApi <- tryApiOf elements endpoint remote ;;
        match fromApi with
        | Some schemas => ret schemas
        | None => lift (generateLocalSchemasOf elements)
        end
  end.

Record State := {
  browser : Schema.Browser;
  page : Registrar.Page;
  window : Watcher.Window;   (* timers, observer, location, config !== null *)
  currentSelectors : list string;   (* the Set, in insertion order *)
  watcherEndpoint : option string;   (* config.endpoint of watcher.ts *)
  sdkConfig : option ThirdEyeConfig;   (* this.config *)
  initialized : bool;
  scannedElements : list Emitted;
  registeredSchemas : list ToolSchema;
  events : list Event;   (* events of index.ts and watcher.ts *)
  contextProvided : bool   (* the host holds a page context *)
}.

Definition set_browser (v : Schema.Browser) (k : State) : State :=
  {| browser := v; page := page k; window := window k;
     currentSelectors := currentSelectors k;
     watcherEndpoint := watcherEndpoint k; sdkConfig := sdkConfig k;
     initialized := initialized k; scannedElements := scannedElements k;
     registeredSchemas := registeredSchemas k; events := events k;
     contextProvided := contextProvided k |}.

Definition set_page (v : Registrar.Page) (k : State) : State :=
  {| browser := browser k; page := v; window := window k;
     currentSelectors := currentSelectors k;
     watcherEndpoint := watcherEndpoint k; sdkConfig := sdkConfig k;
     initialized := initialized k; scannedElements := scannedElements k;
     registeredSchemas := registeredSchemas k; events := events k;
     contextProvided := contextProvided k |}.

Definition set_window (v : Watcher.Window) (k : State) : State :=
  {| browser := browser k; page := page k; window := v;
     currentSelectors := currentSelectors k;
     watcherEndpoint := watcherEndpoint k; sdkConfig := sdkConfig k;
     initialized := initialized k; scannedElements := scannedElements k;
     registeredSchemas := registeredSchemas k; events := events k;
     contextProvided := contextProvided k |}.

Definition set_currentSelectors (v : list string) (k : State) : State :=
  {| browser := browser k; page := page k; window := window k;
     currentSelectors := v; watcherEndpoint := watcherEndpoint k;
     sdkConfig := sdkConfig k; initialized := initialized k;
     scannedElements := scannedElements k;
     registeredSchemas := registeredSchemas k; events := events k;
     contextProvided := contextProvided k |}.

Definition set_watcherEndpoint (v : option string) (k : State) : State :=
  {| browser := browser k; page := page k; window := window k;
     currentSelectors := currentSelectors k; watcherEndpoint := v;
     sdkConfig := sdkConfig k; initialized := initialized k;
     scannedElements := scannedElements k;
     registeredSchemas := registeredSchemas k; events := events k;
     contextProvided := contextProvided k |}.

Definition set_sdkConfig (v : option ThirdEyeConfig) (k : State) : State :=
  {| browser := browser k; page := page k; window := window k;
     currentSelectors := currentSelectors k;
     watcherEndpoint := watcherEndpoint k; sdkConfig := v;
     initialized := initialized k; scannedElements := scannedElements k;
     registeredSchemas := registeredSchemas k; events := events k;
     contextProvided := contextProvided k |}.

Definition set_initialized (v : bool) (k : State) : State :=
  {| browser := browser k; page := page k; window := window k;
     currentSelectors := currentSelectors k;
     watcherEndpoint := watcherEndpoint k; sdkConfig := sdkConfig k;
     initialized := v; scannedElements := scannedElements k;
     registeredSchemas := registeredSchemas k; events := events k;
     contextProvided := contextProvided k |}.

Definition set_scannedElements (v : list Emitted) (k : State) : State :=
  {| browser := browser k; page := page k; window := window k;
     currentSelectors := currentSelectors k;
     watcherEndpoint := watcherEndpoint k; sdkConfig := sdkConfig k;
     initialized := initialized k; scannedElements := v;
     registeredSchemas := registeredSchemas k; events := events k;
     contextProvided := contextProvided k |}.

Definition set_registeredSchemas (v : list ToolSchema) (k : State) : State :=
  {| browser := browser k; page := page k; window := window k;
     currentSelectors := currentSelectors k;
     watcherEndpoint := watcherEndpoint k; sdkConfig := sdkConfig k;
     initialized := initialized k; scannedElements := scannedElements k;
     registeredSchemas := v; events := events k;
     contextProvided := contextProvided k |}.

Definition set_events (v : list Event) (k : State) : State :=
  {| browser := browser k; page := page k; window := window k;
     currentSelectors := currentSelectors k;
     watcherEndpoint := watcherEndpoint k; sdkConfig := sdkConfig k;
     initialized := initialized k; scannedElements := scannedElements k;
     registeredSchemas := registeredSchemas k; events := v;
     contextProvided := contextProvided k |}.

Definition set_contextProvided (v : bool) (k : State) : State :=
  {| browser := browser k; page := page k; window := window k;
     currentSelectors := currentSelectors k;
     watcherEndpoint := watcherEndpoint k; sdkConfig := sdkConfig k;
     initialized := initialized k; scannedElements := scannedElements k;
     registeredSchemas := registeredSchemas k; events := events k;
     contextProvided := v |}.

Definition liftBrowser {A} (m : M Schema.Browser A) : M State A :=
  fun k => let (c, b) := m (browser k) in (c, set_browser b k).

Definition liftPage {A} (m : M Registrar.Page A) : M State A :=
  fun k => let (c, p) := m (page k) in (c, set_page p k).

(** [trackEvent] for the events of index.ts and watcher.ts. *)
Definition trackEvent (e : Event) : M State unit :=
  modify (fun k => set_events (events k ++ [e])%list k).

(** *** watcher.ts: the reconciliation *)

(** [set.add(x)] on a Set kept in insertion order. *)
Definition setAdd (s : list string) (x : string) : list string :=
  if bool_decide (x ∈ s) then s else (s ++ [x])%list.

(** [new Set(values)] *)
Definition newSet (values : list string) : list string :=
  fold_left setAdd values [].

(** What [diffSelectors] reads of an element: its selector.  The
    function is the same on the typed records and on the records as the
    scanner pushed them. *)
Class HasSelector (A : Type) := selector : A -> string.

#[global] Instance ScannedElement_selector : HasSelector ScannedElement :=
  el_selector.

#[global] Instance Emitted_selector : HasSelector Emitted :=
  fun m => el_selector (record m).

(** [diffSelectors(newElements)], reading [currentSelectors]. *)
Definition diffSelectors {A : Type} `{HasSelector A} (current : list string)
    (newElements : list A)
  : list A * list string :=
  let newSelectors := newSet (map selector newElements) in
  let added :=
    List.filter (fun e => negb (bool_decide (selector e ∈ current)))
      newElements in
  let removedSelectors :=
    List.filter (fun sel => negb (bool_decide (sel ∈ newSelectors)))
      current in
  (added, removedSelectors).

(** [unregisterTools(removedSelectors)] with its TOOL_UNREGISTERED
    events. *)
Definition unregisterTools (env : Env) (removedSelectors : list string)
  : M State unit :=
  gone <- liftPage (Unregister.unregisterTools (refuses env) (order env)
                      removedSelectors) ;;
  modify (fun k =>
            set_events
              (events k ++ map (fun ns => TOOL_UNREGISTERED ns.1 ns.2) gone)%list
              k).

(** [handleDOMChange(reason)]; the window records that a reconciliation
    started. *)
Definition handleDOMChange (env : Env) (reason : Watcher.Reason)
  : M State unit :=
  k <- get ;;
  if negb (Watcher.config (window k)) then ret tt else
  modify (set_window (Watcher.handleDOMChange reason (window k))) ;;;
  try_catch
    (allElements <- lift (Scanner.scanDOM (dom env)) ;;
     k <- get ;;
     let (added, removedSelectors) :=
       diffSelectors (currentSelectors k) allElements in
     if Nat.eqb (length added) 0 && Nat.eqb (length removedSelectors) 0
     then ret tt
     else
       trackEvent (DOM_MUTATION reason (length added)
                     (length removedSelectors)) ;;;
       (if (0 <? length removedSelectors)%nat
        then unregisterTools env removedSelectors
        else ret tt) ;;;
       (if (0 <? length added)%nat
        then
          k <- get ;;
          newSchemas <- liftBrowser
                          (fetchSchemasOf added (watcherEndpoint k) true
                             (remote env)) ;;
          liftPage (Registrar.registerTools newSchemas)
        else ret tt) ;;;
       modify (set_currentSelectors (newSet (map selector allElements))))
    (fun _ => ret tt).

(** [startWatching(sdkConfig, initialSelectors)] *)
Definition startWatching (env : Env) (config : ThirdEyeConfig)
    (initialSelectors : list string) : M State unit :=
  k <- get ;;
  if Watcher.observer (window k) then ret tt else
  modify (fun k =>
            set_window (Watcher.startWatching (href env) (window k))
              (set_currentSelectors (newSet initialSelectors)
                 (set_watcherEndpoint (endpoint config) k))).

(** [stopWatching()] *)
Definition stopWatching : M State unit :=
  modify (fun k =>
            set_window (Watcher.stopWatching (window k))
              (set_currentSelectors [] (set_watcherEndpoint None k))).

(** [isWatching()] *)
Definition isWatching (k : State) : bool := Watcher.observer (window k).

(** *** index.ts: the [ThirdEyeSDK] instance *)

(** [providePageContext()]: the description is looked up with
    [document.querySelector] inside the try block, before the host is
    called. *)
Definition providePageContext (env : Env) : M State unit :=
  k <- get ;;
  match Registrar.modelContext (page k), provideContext env with
  | Some _, Works =>
      if Scanner.clobbered (dom env) "querySelector" then ret tt
      else modify (set_contextProvided true)
  | _, _ => ret tt
  end.

(** [init(config)] *)
Definition init (env : Env) (config : ThirdEyeConfig) : M State unit :=
  k <- get ;;
  if initialized k then ret tt else
  if Js.is_empty (siteId config) then ret tt else
  modify (fun k => set_initialized true (set_sdkConfig (Some config) k)) ;;;
  trackEvent (SDK_INIT (endpoint config)) ;;;
  try_catch
    (elements <- lift (Scanner.scanDOM (dom env)) ;;
     modify (set_scannedElements elements) ;;;
     trackEvent (SCAN_COMPLETE (length elements)) ;;;
     if Nat.eqb (length elements) 0 then ret tt else
     schemas <- liftBrowser
                  (fetchSchemasOf elements (endpoint config) false
                     (remote env)) ;;
     modify (set_registeredSchemas schemas) ;;;
     liftPage (Registrar.registerTools schemas) ;;;
     providePageContext env ;;;
     startWatching env config (map selector elements))
    (fun _ => ret tt).

(** [scan()] *)
Definition scan (env : Env) : M State (list Emitted) :=
  k <- get ;;
  match initialized k, sdkConfig k with
  | true, Some config =>
      try_catch
        (elements <- lift (Scanner.scanDOM (dom env)) ;;
         modify (set_scannedElements elements) ;;;
         trackEvent (SCAN_COMPLETE (length elements)) ;;;
         schemas <- liftBrowser
                      (fetchSchemasOf elements (endpoint config) false
                         (remote env)) ;;
         modify (set_registeredSchemas schemas) ;;;
         liftPage (Registrar.registerTools schemas))
        (fun _ => ret tt) ;;;
      k <- get ;;
      ret (scannedElements k)
  | _, _ => ret []
  end.

(** [destroy()] *)
Definition destroy (env : Env) : M State unit :=
  k <- get ;;
  (if isWatching k then stopWatching else ret tt) ;;;
  liftPage (Unregister.unregisterAllTools (refuses env) (order env)) ;;;
  k <- get ;;
  match Registrar.modelContext (page k), clearContext env with
  | Some _, Works => modify (set_contextProvided false)
  | _, _ => ret tt
  end ;;;
  modify (fun k =>
            set_registeredSchemas []
              (set_scannedElements []
                 (set_initialized false (set_sdkConfig None k)))).

(** The getters of the instance. *)
Definition isInitialized (k : State) : bool := initialized k.
Definition getConfig (k : State) : option ThirdEyeConfig := sdkConfig k.
Definition getScannedElements (k : State) : list Emitted :=
  scannedElements k.
Definition getSchemas (k : State) : list ToolSchema := registeredSchemas k.
Definition isWatcherActive (k : State) : bool := isWatching k.

End Sdk.

(** ** Properties of the reconciliation and of the instance *)

Section Reconciliation.

Import Sdk.

Lemma elem_of_setAdd (s : list string) (x y : string) :
  y ∈ setAdd s x <-> y ∈ s \/ y = x.
Proof.
  unfold setAdd. destruct (bool_decide (x ∈ s)) eqn:Hx.
  - apply bool_decide_eq_true in Hx. split; [by left|].
    intros [H| ->]; done.
  - rewrite elem_of_app, list_elem_of_singleton. reflexivity.
Qed.

Lemma elem_of_fold_setAdd (values acc : list string) (y : string) :
  y ∈ fold_left setAdd values acc <-> y ∈ acc \/ y ∈ values.
Proof.
  revert acc. induction values as [|x l IH]; intros acc; simpl.
  - split; [by left|]. intros [H|H]; [done|]. by apply elem_of_nil in H.
  - rewrite IH, elem_of_setAdd, elem_of_cons. tauto.
Qed.

Lemma elem_of_newSet (values : list string) (y : string) :
  y ∈ newSet values <-> y ∈ values.
Proof.
  unfold newSet. rewrite elem_of_fold_setAdd. split; [|by right].
  intros [H|H]; [|done]. by apply elem_of_nil in H.
Qed.

Lemma NoDup_fold_setAdd (values acc : list string) :
  NoDup acc -> NoDup (fold_left setAdd values acc).
Proof.
  revert acc. induction values as [|x l IH]; intros acc Hacc; [done|].
  simpl. apply IH. unfold setAdd.
  destruct (bool_decide (x ∈ acc)) eqn:Hx; [done|].
  apply bool_decide_eq_false in Hx.
  apply NoDup_app. split; [done|]. split; [|apply NoDup_singleton].
  intros y Hy Hin. apply list_elem_of_singleton in Hin. by subst.
Qed.

Lemma NoDup_newSet (values : list string) : NoDup (newSet values).
Proof. apply NoDup_fold_setAdd, NoDup_nil_2. Qed.

Lemma filter_nil_iff {A} (f : A -> bool) (l : list A) :
  List.filter f l = [] <-> forall x, x ∈ l -> f x = false.
Proof.
  induction l as [|a l IH]; simpl.
  - split; [|done]. intros _ x Hx. by apply elem_of_nil in Hx.
  - destruct (f a) eqn:Ha.
    + split; [done|]. intros H. specialize (H a (list_elem_of_here _ _)).
      congruence.
    + rewrite IH. split.
      * intros H x Hx. apply elem_of_cons in Hx.
        destruct Hx as [->|Hx]; [done | by apply H].
      * intros H x Hx. apply H. by apply list_elem_of_further.
Qed.

Lemma elem_of_List_filter {A} (f : A -> bool) (l : list A) (x : A) :
  x ∈ List.filter f l <-> x ∈ l /\ f x = true.
Proof. rewrite !list_elem_of_In. apply filter_In. Qed.

(** The difference is empty exactly when the two sets of selectors are
    the same. *)
Lemma diffSelectors_empty {A : Type} `{HasSel : HasSelector A}
    (current : list string) (newElements : list A) :
  diffSelectors current newElements = ([], [])
  <-> forall sel, sel ∈ current <-> sel ∈ map selector newElements.
Proof.
  unfold diffSelectors. split.
  - intros H. injection H as Hadd Hrem.
    rewrite filter_nil_iff in Hadd. rewrite filter_nil_iff in Hrem.
    intros sel. split.
    + intros Hin. specialize (Hrem sel Hin).
      apply negb_false_iff, bool_decide_eq_true in Hrem.
      by apply elem_of_newSet.
    + intros Hin. apply list_elem_of_fmap in Hin.
      destruct Hin as (e & -> & He). specialize (Hadd e He).
      by apply negb_false_iff, bool_decide_eq_true in Hadd.
  - intros H. f_equal.
    + apply filter_nil_iff. intros e He.
      apply negb_false_iff, bool_decide_eq_true, H.
      apply list_elem_of_fmap. by exists e.
    + apply filter_nil_iff. intros sel Hsel.
      apply negb_false_iff, bool_decide_eq_true, elem_of_newSet.
      by apply H.
Qed.

(** X22: the difference computed by [diffSelectors].  The added elements
    are the scanned elements whose selector is not current, in scan order
    and with repetitions kept; the removed selectors are the current
    selectors that no scanned element has.  Both lists are empty exactly
    when the current selectors and the scanned selectors are the same set,
    which is the case once the current selectors have been replaced by
    those of the scan.  A selector is never both removed and the selector
    of an added element. *)
Theorem diffSelectors_is_set_difference (current : list string)
    (newElements : list ScannedElement) :
  let added := (diffSelectors current newElements).1 in
  let removedSelectors := (diffSelectors current newElements).2 in
  (forall e, e ∈ added <-> e ∈ newElements /\ el_selector e ∉ current)
  /\ (forall sel, sel ∈ removedSelectors
                  <-> sel ∈ current /\ sel ∉ map el_selector newElements)
  /\ (added = [] /\ removedSelectors = []
      <-> forall sel, sel ∈ current <-> sel ∈ map el_selector newElements)
  /\ diffSelectors (newSet (map el_selector newElements)) newElements
     = ([], [])
  /\ (forall e, e ∈ added -> el_selector e ∉ removedSelectors)
  /\ (NoDup current -> NoDup removedSelectors).
Proof.
  simpl.
  assert (Hadd : forall e,
            e ∈ List.filter
                  (fun e => negb (bool_decide (el_selector e ∈ current)))
                  newElements
            <-> e ∈ newElements /\ el_selector e ∉ current).
  { intros e. rewrite elem_of_List_filter, negb_true_iff,
      bool_decide_eq_false. reflexivity. }
  assert (Hrem : forall sel,
            sel ∈ List.filter
                    (fun sel =>
                       negb (bool_decide
                               (sel ∈ newSet (map el_selector newElements))))
                    current
            <-> sel ∈ current /\ sel ∉ map el_selector newElements).
  { intros sel. rewrite elem_of_List_filter, negb_true_iff,
      bool_decide_eq_false, elem_of_newSet. reflexivity. }
  pose proof (fun c => diffSelectors_empty c newElements) as Hempty.
  unfold selector, ScannedElement_selector in Hempty.
  split; [exact Hadd|]. split; [exact Hrem|]. split.
  { rewrite <- Hempty. unfold diffSelectors, selector, ScannedElement_selector.
    split.
    - intros [-> ->]. reflexivity.
    - intros H. injection H as -> ->. by split. }
  split.
  { apply Hempty. intros sel. apply elem_of_newSet. }
  split.
  { intros e He Hsel. apply Hadd in He. apply Hrem in Hsel.
    destruct He as [_ He]. destruct Hsel as [Hsel _]. by apply He. }
  intros Hnodup. apply NoDup_ListNoDup, List.NoDup_filter, NoDup_ListNoDup.
  exact Hnodup.
Qed.

(** The page after [unregisterTools]. *)
Definition unregisteredPage (env : Env) (removedSelectors : list string)
    (p : Registrar.Page) : Registrar.Page :=
  match Registrar.modelContext p with
  | Some _ => afterStales (refuses env) removedSelectors (order env) p
  | None => p
  end.

(** The page after [registerTools]. *)
Definition registeredPage (schemas : list ToolSchema) (p : Registrar.Page)
  : Registrar.Page :=
  match Registrar.modelContext p with
  | Some _ => afterAll schemas p
  | None => p
  end.

Lemma unregisterTools_page (env : Env) (removedSelectors : list string)
    (p : Registrar.Page) :
  exists gone,
    Unregister.unregisterTools (refuses env) (order env) removedSelectors p
    = (Normal gone, unregisteredPage env removedSelectors p)
    /\ Forall (fun ns => ns.2 ∈ removedSelectors) gone.
Proof.
  unfold Unregister.unregisterTools, unregisteredPage, bind, get.
  destruct (Registrar.modelContext p).
  - destruct (collect_afterStales (refuses env) removedSelectors
                (order env) p) as (gone & H & Hsel).
    exists gone. split; [exact H|]. apply Forall_forall.
    intros [name selector] Hin. apply list_elem_of_In in Hin.
    destruct (Hsel name selector Hin) as [_ Hrem].
    by apply bool_decide_eq_true in Hrem.
  - exists []. split; [reflexivity | apply Forall_nil_2].
Qed.

Lemma unregisteredPage_consistent (env : Env)
    (removedSelectors : list string) (p : Registrar.Page) :
  consistent p -> consistent (unregisteredPage env removedSelectors p).
Proof.
  intros H. unfold unregisteredPage.
  destruct (Registrar.modelContext p); [|exact H].
  by apply afterStales_consistent.
Qed.

Lemma registeredPage_consistent (schemas : list ToolSchema)
    (p : Registrar.Page) :
  consistent p -> consistent (registeredPage schemas p).
Proof.
  intros H. unfold registeredPage.
  destruct (Registrar.modelContext p); [|exact H].
  by apply afterAll_consistent.
Qed.

(** *** Synthesis on the records as they are *)

Lemma generateLocalSchemasOf_typed (elements : list Emitted) :
  forallb isTyped elements = true ->
  generateLocalSchemasOf elements
  = Normal (Schema.generateLocalSchemas (map record elements)).
Proof.
  rewrite generateLocalSchemas_map.
  induction elements as [|m l IH]; [reflexivity|].
  intros H. cbn [forallb] in H. apply andb_true_iff in H.
  destruct H as [Hm Hl]. cbn [generateLocalSchemasOf map].
  rewrite (IH Hl).
  assert (Hone : localSchemaOf m = Normal (Schema.localSchema (record m))).
  { unfold localSchemaOf. unfold isTyped in Hm.
    by destruct (idObject m). }
  by rewrite Hone.
Qed.

Lemma serialisable_typed (elements : list Emitted) :
  forallb isTyped elements = true ->
  forallb serialisableRecord elements = true.
Proof.
  induction elements as [|m l IH]; [reflexivity|].
  intros H. cbn [forallb] in *. apply andb_true_iff in H.
  destruct H as [Hm Hl]. rewrite (IH Hl), andb_true_r.
  unfold serialisableRecord. unfold isTyped in Hm.
  by destruct (idObject m), (actionObject m).
Qed.

(** On typed records the synthesis is [fetchSchemas] itself. *)
Lemma fetchSchemasOf_typed (elements : list Emitted)
    (endpoint : option string) (skipCache : bool) (remote : Schema.Remote)
    (b : Schema.Browser) :
  forallb isTyped elements = true ->
  fetchSchemasOf elements endpoint skipCache remote b
  = Schema.fetchSchemas (map record elements) endpoint skipCache remote b.
Proof.
  intros Htyped. unfold fetchSchemasOf, Schema.fetchSchemas, tryApiOf, bind.
  rewrite (serialisable_typed elements Htyped),
    (generateLocalSchemasOf_typed elements Htyped), andb_false_r.
  destruct ((if skipCache then ret None else Schema.getCachedSchemas) b)
    as [[[cached|]|e] b1]; try reflexivity;
    destruct (Schema.allOverridden (map record elements)); try reflexivity;
    destruct (Schema.tryApi endpoint remote b1) as [[[schemas|]|e'] b2];
    reflexivity.
Qed.

Lemma typed_records (elements : list ScannedElement) :
  forallb isTyped (map typed elements) = true
  /\ map record (map typed elements) = elements.
Proof.
  induction elements as [|e l [IH1 IH2]]; [done|].
  simpl. by rewrite IH1, IH2.
Qed.

(** The synthesis returns or throws, and sends at most one request; it
    returns when every record is typed. *)
Lemma fetchSchemasOf_requests (elements : list Emitted)
    (endpoint : option string) (skipCache : bool) (remote : Schema.Remote)
    (b : Schema.Browser) :
  exists c b',
    fetchSchemasOf elements endpoint skipCache remote b = (c, b')
    /\ (Schema.requests b' = Schema.requests b
        \/ Schema.requests b' = S (Schema.requests b))
    /\ (forallb isTyped elements = true -> exists schemas, c = Normal schemas).
Proof.
  destruct (fetchSchemasOf elements endpoint skipCache remote b)
    as [c b'] eqn:Hrun.
  exists c, b'. split; [reflexivity|].
  assert (Htyped : forallb isTyped elements = true ->
                   exists schemas, c = Normal schemas).
  { intros Ht. rewrite (fetchSchemasOf_typed _ _ _ _ _ Ht) in Hrun.
    destruct (fetchSchemas_requests (map record elements) endpoint skipCache
                remote b) as (schemas & b2 & Hfetch & _).
    rewrite Hfetch in Hrun. injection Hrun as <- _. by exists schemas. }
  split; [|exact Htyped].
  destruct (cacheCheck_total skipCache b)
    as (o & b1 & Hcheck & (_ & _ & _ & Hreq1) & _ & _).
  unfold cacheCheck in Hcheck.
  unfold fetchSchemasOf, bind in Hrun. rewrite Hcheck in Hrun.
  destruct o as [cached|].
  { injection Hrun as _ <-. by left. }
  destruct (Schema.allOverridden (map record elements)).
  { unfold lift in Hrun. injection Hrun as _ <-. by left. }
  unfold tryApiOf in Hrun.
  destruct (Js.truthy endpoint && negb (forallb serialisableRecord elements)).
  { unfold ret, lift in Hrun. injection Hrun as _ <-. by left. }
  destruct (tryApi_total endpoint remote b1) as (o2 & b2 & Hapi & Hreq).
  rewrite Hapi in Hrun. rewrite Hreq1 in Hreq.
  destruct o2; unfold ret, lift in Hrun; injection Hrun as _ <-; exact Hreq.
Qed.

(** *** One reconciliation *)

(** The state after a reconciliation that found a difference: [registered]
    holds the descriptors handed to the registrar, if any were, and
    [current] the selectors it ends with. *)
Definition reconciled (env : Env) (reason : Watcher.Reason)
    (added : nat) (removedSelectors : list string)
    (gone : list (string * string)) (registered : option (list ToolSchema))
    (b : Schema.Browser) (current : list string) (k : State) : State :=
  let p1 := if (0 <? length removedSelectors)%nat
            then unregisteredPage env removedSelectors (page k)
            else page k in
  let p2 := match registered with
            | Some schemas => registeredPage schemas p1
            | None => p1
            end in
  set_currentSelectors current
    (set_page p2
       (set_browser b
          (set_events
             (events k
              ++ [DOM_MUTATION reason added (length removedSelectors)]
              ++ map (fun ns => TOOL_UNREGISTERED ns.1 ns.2) gone)%list
             (set_window (Watcher.handleDOMChange reason (window k)) k)))).

(** The same, by what the synthesis for the added elements gives: a scan
    whose added elements cannot be given descriptors leaves the current
    selectors as they were. *)
Definition afterChange (env : Env) (reason : Watcher.Reason)
    (scanned added : list Emitted) (removedSelectors : list string)
    (gone : list (string * string)) (k : State) : State :=
  let replaced := newSet (map selector scanned) in
  match added with
  | [] =>
      reconciled env reason 0 removedSelectors gone None (browser k)
        replaced k
  | _ :: _ =>
      match fetchSchemasOf added (watcherEndpoint k) true (remote env)
              (browser k) with
      | (Normal schemas, b) =>
          reconciled env reason (length added) removedSelectors gone
            (Some schemas) b replaced k
      | (Throw _, b) =>
          reconciled env reason (length added) removedSelectors gone
            None b (currentSelectors k) k
      end
  end.

Ltac run_sdk :=
  cbv beta iota zeta delta
    [handleDOMChange Sdk.unregisterTools Sdk.trackEvent liftPage liftBrowser
     lift bind get ret modify try_catch throw];
  cbn [browser page window currentSelectors watcherEndpoint sdkConfig
       initialized scannedElements registeredSchemas events contextProvided
       set_browser set_page set_window set_currentSelectors
       set_watcherEndpoint set_sdkConfig set_initialized set_scannedElements
       set_registeredSchemas set_events set_contextProvided].

(** Two states are the same when their fields are. *)
Lemma state_ext (k1 k2 : State) :
  browser k1 = browser k2 -> page k1 = page k2 -> window k1 = window k2 ->
  currentSelectors k1 = currentSelectors k2 ->
  watcherEndpoint k1 = watcherEndpoint k2 -> sdkConfig k1 = sdkConfig k2 ->
  initialized k1 = initialized k2 ->
  scannedElements k1 = scannedElements k2 ->
  registeredSchemas k1 = registeredSchemas k2 -> events k1 = events k2 ->
  contextProvided k1 = contextProvided k2 ->
  k1 = k2.
Proof. destruct k1, k2. simpl. by intros -> -> -> -> -> -> -> -> -> -> ->. Qed.

(** Two states built by different sequences of updates. *)
Ltac same_state :=
  f_equal; apply state_ext;
  cbn [browser page window currentSelectors watcherEndpoint sdkConfig
       initialized scannedElements registeredSchemas events contextProvided
       set_browser set_page set_window set_currentSelectors
       set_watcherEndpoint set_sdkConfig set_initialized set_scannedElements
       set_registeredSchemas set_events set_contextProvided
       reconciled length Nat.ltb Nat.leb map app];
  rewrite <- ?app_assoc, ?app_nil_r;
  reflexivity.

Lemma handleDOMChange_without_config (env : Env) (reason : Watcher.Reason)
    (k : State) :
  Watcher.config (window k) = false ->
  handleDOMChange env reason k = (Normal tt, k).
Proof. intros H. run_sdk. by rewrite H. Qed.

(** A scan that throws ends the reconciliation in its catch block. *)
Lemma handleDOMChange_scan_throws (env : Env) (reason : Watcher.Reason)
    (k : State) (e : Exn) :
  Watcher.config (window k) = true ->
  Scanner.scanDOM (dom env) = Throw e ->
  handleDOMChange env reason k
  = (Normal tt, set_window (Watcher.handleDOMChange reason (window k)) k).
Proof.
  intros Hcfg Hscan. run_sdk. rewrite Hcfg. cbn [negb].
  run_sdk. rewrite Hscan. reflexivity.
Qed.

Lemma handleDOMChange_unchanged (env : Env) (reason : Watcher.Reason)
    (k : State) (scanned : list Emitted) :
  Watcher.config (window k) = true ->
  Scanner.scanDOM (dom env) = Normal scanned ->
  diffSelectors (currentSelectors k) scanned = ([], []) ->
  handleDOMChange env reason k
  = (Normal tt, set_window (Watcher.handleDOMChange reason (window k)) k).
Proof.
  intros Hcfg Hscan Hdiff. run_sdk. rewrite Hcfg. cbn [negb].
  run_sdk. rewrite Hscan. run_sdk. rewrite Hdiff. reflexivity.
Qed.

Lemma handleDOMChange_changed (env : Env) (reason : Watcher.Reason)
    (k : State) (scanned added : list Emitted)
    (removedSelectors : list string) :
  Watcher.config (window k) = true ->
  Scanner.scanDOM (dom env) = Normal scanned ->
  diffSelectors (currentSelectors k) scanned = (added, removedSelectors) ->
  (added, removedSelectors) <> ([], []) ->
  exists gone,
    handleDOMChange env reason k
    = (Normal tt, afterChange env reason scanned added removedSelectors gone k)
    /\ Forall (fun ns => ns.2 ∈ removedSelectors) gone.
Proof.
  intros Hcfg Hscan Hdiff Hne.
  destruct (unregisterTools_page env removedSelectors (page k))
    as (gone & Hgone & Hsel).
  unfold afterChange.
  destruct removedSelectors as [|sel removed'], added as [|m added'];
    [done| | |].
  - exists []. split; [|apply Forall_nil_2].
    destruct (fetchSchemasOf (m :: added') (watcherEndpoint k) true
                (remote env) (browser k)) as [[schemas|e] b] eqn:Hfetch.
    + pose proof (registerTools_afterAll schemas) as Hreg.
      run_sdk. rewrite Hcfg. cbn [negb]. run_sdk. rewrite Hscan. run_sdk.
      rewrite Hdiff. cbn [length Nat.eqb andb Nat.ltb Nat.leb]. run_sdk.
      rewrite Hfetch. run_sdk. rewrite Hreg. same_state.
    + run_sdk. rewrite Hcfg. cbn [negb]. run_sdk. rewrite Hscan. run_sdk.
      rewrite Hdiff. cbn [length Nat.eqb andb Nat.ltb Nat.leb]. run_sdk.
      rewrite Hfetch. run_sdk. same_state.
  - exists gone. split; [|exact Hsel].
    run_sdk. rewrite Hcfg. cbn [negb]. run_sdk. rewrite Hscan. run_sdk.
    rewrite Hdiff. cbn [length Nat.eqb andb Nat.ltb Nat.leb]. run_sdk.
    rewrite Hgone. run_sdk. same_state.
  - exists gone. split; [|exact Hsel].
    destruct (fetchSchemasOf (m :: added') (watcherEndpoint k) true
                (remote env) (browser k)) as [[schemas|e] b] eqn:Hfetch.
    + pose proof (registerTools_afterAll schemas) as Hreg.
      run_sdk. rewrite Hcfg. cbn [negb]. run_sdk. rewrite Hscan. run_sdk.
      rewrite Hdiff. cbn [length Nat.eqb andb Nat.ltb Nat.leb]. run_sdk.
      rewrite Hgone. run_sdk. rewrite Hfetch. run_sdk. rewrite Hreg.
      same_state.
    + run_sdk. rewrite Hcfg. cbn [negb]. run_sdk. rewrite Hscan. run_sdk.
      rewrite Hdiff. cbn [length Nat.eqb andb Nat.ltb Nat.leb]. run_sdk.
      rewrite Hgone. run_sdk. rewrite Hfetch. run_sdk. same_state.
Qed.

Lemma handleDOMChange_keeps_config (reason : Watcher.Reason)
    (w : Watcher.Window) :
  Watcher.config (Watcher.handleDOMChange reason w) = Watcher.config w.
Proof.
  unfold Watcher.handleDOMChange.
  by destruct (Watcher.config w) eqn:H.
Qed.

(** The page once the tools of the removed selectors are unregistered. *)
Definition prunedPage (env : Env) (removedSelectors : list string)
    (k : State) : Registrar.Page :=
  if (0 <? length removedSelectors)%nat
  then unregisteredPage env removedSelectors (page k)
  else page k.

(** X23: one reconciliation.  [handleDOMChange] never throws and leaves
    the fields of the instance alone; without a config it does nothing.
    With a config, a scan that throws ends it at once: no event, no
    request, registry, host and current selectors as they were.  When the
    scan shows no difference it likewise changes nothing, and the current
    selectors are, as a set, those of the scan.  Otherwise it emits one
    DOM_MUTATION event with the two counts, then TOOL_UNREGISTERED events
    for removed selectors only, sends at most one request and none when
    nothing was added, and a registry that mirrors the host still mirrors
    it afterwards.  The current selectors are replaced by those of the scan
    when nothing was added or when the synthesis for the added elements
    returns, which it does whenever these are typed records; when the
    synthesis throws, the removed tools stay unregistered, nothing is
    registered and the current selectors stay as they were.  Once the
    current selectors are those of the scan, a reconciliation that follows
    on the same document finds no difference. *)
Theorem handleDOMChange_reconciles (env : Env) (reason : Watcher.Reason)
    (k : State) :
  exists k',
    handleDOMChange env reason k = (Normal tt, k')
    /\ window k' = Watcher.handleDOMChange reason (window k)
    /\ (sdkConfig k' = sdkConfig k /\ initialized k' = initialized k
        /\ scannedElements k' = scannedElements k
        /\ registeredSchemas k' = registeredSchemas k)
    /\ (Watcher.config (window k) = false -> k' = k)
    /\ (Watcher.config (window k) = true ->
        match Scanner.scanDOM (dom env) with
        | Throw _ =>
            browser k' = browser k /\ page k' = page k
            /\ events k' = events k
            /\ currentSelectors k' = currentSelectors k
        | Normal scanned =>
            let d := diffSelectors (currentSelectors k) scanned in
            (d = ([], []) ->
             browser k' = browser k /\ page k' = page k
             /\ events k' = events k
             /\ currentSelectors k' = currentSelectors k
             /\ forall sel, sel ∈ currentSelectors k'
                            <-> sel ∈ map selector scanned)
            /\ (d <> ([], []) ->
                (exists gone,
                   events k'
                   = (events k
                      ++ DOM_MUTATION reason (length d.1) (length d.2)
                         :: map (fun ns => TOOL_UNREGISTERED ns.1 ns.2)
                              gone)%list
                   /\ Forall (fun ns => ns.2 ∈ d.2) gone)
                /\ (Schema.requests (browser k') = Schema.requests (browser k)
                    \/ Schema.requests (browser k')
                       = S (Schema.requests (browser k)))
                /\ (consistent (page k) -> consistent (page k'))
                /\ (d.1 = [] ->
                    browser k' = browser k
                    /\ page k' = prunedPage env d.2 k
                    /\ currentSelectors k' = newSet (map selector scanned))
                /\ (d.1 <> [] ->
                    match fetchSchemasOf d.1 (watcherEndpoint k) true
                            (remote env) (browser k) with
                    | (Normal schemas, b) =>
                        browser k' = b
                        /\ page k'
                           = registeredPage schemas (prunedPage env d.2 k)
                        /\ currentSelectors k'
                           = newSet (map selector scanned)
                    | (Throw _, b) =>
                        browser k' = b
                        /\ page k' = prunedPage env d.2 k
                        /\ currentSelectors k' = currentSelectors k
                    end)
                /\ (forallb isTyped d.1 = true ->
                    currentSelectors k' = newSet (map selector scanned)))
            /\ ((forall sel, sel ∈ currentSelectors k'
                             <-> sel ∈ map selector scanned) ->
                forall env2 reason2, dom env2 = dom env ->
                  exists k'',
                    handleDOMChange env2 reason2 k' = (Normal tt, k'')
                    /\ browser k'' = browser k' /\ page k'' = page k'
                    /\ events k'' = events k'
                    /\ currentSelectors k'' = currentSelectors k')
        end).
Proof.
  destruct (Watcher.config (window k)) eqn:Hcfg.
  2: { exists k. split; [by apply handleDOMChange_without_config|].
       split; [unfold Watcher.handleDOMChange; by rewrite Hcfg|].
       split; [done|]. split; [done|]. intros H. discriminate H. }
  destruct (Scanner.scanDOM (dom env)) as [scanned|e] eqn:Hscan.
  2: { exists (set_window (Watcher.handleDOMChange reason (window k)) k).
       split; [by apply (handleDOMChange_scan_throws env reason k e)|].
       split; [reflexivity|]. split; [done|].
       split; [intros H; discriminate H|]. by intros _. }
  assert (Hagain : forall k', Watcher.config (window k') = true ->
            (forall sel, sel ∈ currentSelectors k'
                         <-> sel ∈ map selector scanned) ->
            forall env2 reason2, dom env2 = dom env ->
              exists k'',
                handleDOMChange env2 reason2 k' = (Normal tt, k'')
                /\ browser k'' = browser k' /\ page k'' = page k'
                /\ events k'' = events k'
                /\ currentSelectors k'' = currentSelectors k').
  { intros k' Hcfg' Hset env2 reason2 Hdom.
    exists (set_window (Watcher.handleDOMChange reason2 (window k')) k').
    split; [|by repeat split].
    apply (handleDOMChange_unchanged env2 reason2 k' scanned);
      [exact Hcfg' | by rewrite Hdom |].
    by apply diffSelectors_empty. }
  destruct (diffSelectors (currentSelectors k) scanned)
    as [added removedSelectors] eqn:Hdiff.
  assert (Hcases : (added, removedSelectors) = ([], [])
                   \/ (added, removedSelectors) <> ([], [])).
  { destruct added; [|by right]. destruct removedSelectors; [by left|].
    by right. }
  destruct Hcases as [Heq|Hne].
  - injection Heq as -> ->.
    exists (set_window (Watcher.handleDOMChange reason (window k)) k).
    split; [by apply (handleDOMChange_unchanged env reason k scanned)|].
    split; [reflexivity|]. split; [done|]. split; [intros H; discriminate H|].
    intros _. cbv zeta.
    assert (Hset : forall sel,
              sel ∈ currentSelectors k <-> sel ∈ map selector scanned)
      by (by apply diffSelectors_empty).
    split; [done|]. split; [done|].
    intros _. apply Hagain; [|exact Hset].
    cbn [window set_window]. by rewrite handleDOMChange_keeps_config.
  - destruct (handleDOMChange_changed env reason k scanned added
                removedSelectors Hcfg Hscan Hdiff Hne)
      as (gone & Hrun & Hgone).
    exists (afterChange env reason scanned added removedSelectors gone k).
    split; [exact Hrun|].
    assert (Hpruned : consistent (page k) ->
                      consistent (prunedPage env removedSelectors k)).
    { intros Hcons. unfold prunedPage.
      destruct (0 <? length removedSelectors)%nat; [|exact Hcons].
      by apply unregisteredPage_consistent. }
    destruct (fetchSchemasOf_requests added (watcherEndpoint k) true
                (remote env) (browser k))
      as (c & b & Hfetch & Hreq & Htyped).
    unfold afterChange. cbv zeta. cbn [fst snd]. rewrite !Hfetch.
    destruct added as [|m added'].
    + split; [reflexivity|]. split; [done|].
      split; [intros H; discriminate H|]. intros _.
      split; [done|]. split.
      { intros _. split.
        - exists gone. split; [reflexivity | exact Hgone].
        - split; [by left|]. split; [exact Hpruned|].
          split; [done|]. split; [done|]. by intros _. }
      intros Hset. apply Hagain; [|exact Hset].
      unfold reconciled. cbn [window set_window set_currentSelectors
                              set_page set_browser set_events].
      by rewrite handleDOMChange_keeps_config.
    + destruct c as [schemas|e].
      * split; [reflexivity|]. split; [done|].
        split; [intros H; discriminate H|]. intros _.
        split; [done|]. split.
        { intros _. split.
          - exists gone. split; [reflexivity | exact Hgone].
          - split; [exact Hreq|]. split.
            + intros Hcons. unfold reconciled.
              cbn [page set_page set_currentSelectors].
              by apply registeredPage_consistent, Hpruned.
            + split; [done|]. split; [by intros _|]. by intros _. }
        intros Hset. apply Hagain; [|exact Hset].
        unfold reconciled. cbn [window set_window set_currentSelectors
                                set_page set_browser set_events].
        by rewrite handleDOMChange_keeps_config.
      * split; [reflexivity|]. split; [done|].
        split; [intros H; discriminate H|]. intros _.
        split; [done|]. split.
        { intros _. split.
          - exists gone. split; [reflexivity | exact Hgone].
          - split; [exact Hreq|]. split; [exact Hpruned|].
            split; [done|]. split; [by intros _|].
            intros Ht. destruct (Htyped Ht) as (schemas & Hc).
            discriminate Hc. }
        intros Hset. apply Hagain; [|exact Hset].
        unfold reconciled. cbn [window set_window set_currentSelectors
                                set_page set_browser set_events].
        by rewrite handleDOMChange_keeps_config.
Qed.

End Reconciliation.

Section Instance.

Import Sdk.

Ltac run_instance :=
  cbv beta iota zeta delta
    [init scan destroy providePageContext startWatching stopWatching
     Sdk.trackEvent liftPage liftBrowser
     lift bind get ret modify try_catch throw];
  cbn [browser page window currentSelectors watcherEndpoint sdkConfig
       initialized scannedElements registeredSchemas events contextProvided
       set_browser set_page set_window set_currentSelectors
       set_watcherEndpoint set_sdkConfig set_initialized set_scannedElements
       set_registeredSchemas set_events set_contextProvided].

Ltac same_instance :=
  f_equal; apply state_ext;
  cbn [browser page window currentSelectors watcherEndpoint sdkConfig
       initialized scannedElements registeredSchemas events contextProvided
       set_browser set_page set_window set_currentSelectors
       set_watcherEndpoint set_sdkConfig set_initialized set_scannedElements
       set_registeredSchemas set_events set_contextProvided
       length app orb andb negb];
  rewrite <- ?app_assoc;
  reflexivity.

(** Whether [providePageContext] reaches the host. *)
Definition provides (env : Env) (p : Registrar.Page) : bool :=
  match Registrar.modelContext p, provideContext env with
  | Some _, Works => negb (Scanner.clobbered (dom env) "querySelector")
  | _, _ => false
  end.

(** The instance once [init] has accepted its config and emitted
    SDK_INIT: the state in which a scan that throws leaves it. *)
Definition initAborted (config : ThirdEyeConfig) (k : State) : State :=
  set_events (events k ++ [SDK_INIT (endpoint config)])%list
    (set_initialized true (set_sdkConfig (Some config) k)).

(** The state after an [init] that found nothing. *)
Definition initialisedEmpty (config : ThirdEyeConfig) (k : State) : State :=
  set_events (events k ++ [SDK_INIT (endpoint config); SCAN_COMPLETE 0])%list
    (set_scannedElements []
       (set_initialized true (set_sdkConfig (Some config) k))).

(** The state after an [init] whose synthesis threw: the elements are
    held, nothing is registered and the watcher is not started. *)
Definition initFailed (config : ThirdEyeConfig) (elements : list Emitted)
    (b : Schema.Browser) (k : State) : State :=
  set_browser b
    (set_events
       (events k ++ [SDK_INIT (endpoint config);
                     SCAN_COMPLETE (length elements)])%list
       (set_scannedElements elements
          (set_initialized true (set_sdkConfig (Some config) k)))).

(** The state after an [init] that went through. *)
Definition initialised (env : Env) (config : ThirdEyeConfig)
    (elements : list Emitted) (schemas : list ToolSchema)
    (b : Schema.Browser) (k : State) : State :=
  let p := registeredPage schemas (page k) in
  let running := Watcher.observer (window k) in
  {| browser := b;
     page := p;
     window := Watcher.startWatching (href env) (window k);
     currentSelectors := if running then currentSelectors k
                         else newSet (map selector elements);
     watcherEndpoint := if running then watcherEndpoint k
                        else endpoint config;
     sdkConfig := Some config;
     initialized := true;
     scannedElements := elements;
     registeredSchemas := schemas;
     events := (events k ++ [SDK_INIT (endpoint config);
                             SCAN_COMPLETE (length elements)])%list;
     contextProvided := provides env p || contextProvided k |}.

(** The state after an [init] that took its config. *)
Definition initOutcome (env : Env) (config : ThirdEyeConfig) (k : State)
  : State :=
  match Scanner.scanDOM (dom env) with
  | Throw _ => initAborted config k
  | Normal [] => initialisedEmpty config k
  | Normal elements =>
      match fetchSchemasOf elements (endpoint config) false (remote env)
              (browser k) with
      | (Normal schemas, b) => initialised env config elements schemas b k
      | (Throw _, b) => initFailed config elements b k
      end
  end.

Lemma init_refused (env : Env) (config : ThirdEyeConfig) (k : State) :
  initialized k = true \/ siteId config = EmptyString ->
  init env config k = (Normal tt, k).
Proof.
  intros [H|H]; run_instance.
  - by rewrite H.
  - rewrite H. by destruct (initialized k).
Qed.

Lemma init_runs (env : Env) (config : ThirdEyeConfig) (k : State) :
  initialized k = false -> siteId config <> EmptyString ->
  init env config k = (Normal tt, initOutcome env config k).
Proof.
  intros Hinit Hid. unfold initOutcome.
  destruct (Scanner.scanDOM (dom env)) as [[|m l]|e] eqn:Hscan.
  - run_instance. rewrite Hinit.
    destruct (siteId config) eqn:Hs; [done|]. cbn [Js.is_empty].
    rewrite Hscan. run_instance. cbn [length Nat.eqb].
    unfold initialisedEmpty. same_instance.
  - destruct (fetchSchemasOf (m :: l) (endpoint config) false (remote env)
                (browser k)) as [[schemas|e] b] eqn:Hfetch.
    + pose proof (registerTools_afterAll schemas (page k)) as Hreg.
      fold (registeredPage schemas (page k)) in Hreg.
      run_instance. rewrite Hinit.
      destruct (siteId config) eqn:Hs; [done|]. cbn [Js.is_empty].
      rewrite Hscan. run_instance. cbn [length Nat.eqb]. run_instance.
      rewrite Hfetch. run_instance.
      rewrite Hreg. run_instance. unfold initialised, provides.
      destruct (Registrar.modelContext (registeredPage schemas (page k)))
        as [h|] eqn:Hctx;
        destruct (provideContext env) eqn:Hprov;
        try destruct (Scanner.clobbered (dom env) "querySelector") eqn:Hcl;
        run_instance;
        unfold Watcher.startWatching;
        destruct (Watcher.observer (window k)) eqn:Hobs;
        f_equal; apply state_ext;
        cbn [browser page window currentSelectors watcherEndpoint sdkConfig
             initialized scannedElements registeredSchemas events
             contextProvided
             set_browser set_page set_window set_currentSelectors
             set_watcherEndpoint set_sdkConfig set_initialized
             set_scannedElements set_registeredSchemas set_events
             set_contextProvided length app orb negb];
        rewrite ?Hobs, <- ?app_assoc; reflexivity.
    + run_instance. rewrite Hinit.
      destruct (siteId config) eqn:Hs; [done|]. cbn [Js.is_empty].
      rewrite Hscan. run_instance. cbn [length Nat.eqb]. run_instance.
      rewrite Hfetch. run_instance. unfold initFailed. same_instance.
  - run_instance. rewrite Hinit.
    destruct (siteId config) eqn:Hs; [done|]. cbn [Js.is_empty].
    rewrite Hscan. run_instance. unfold initAborted. same_instance.
Qed.

Lemma initOutcome_initialized (env : Env) (config : ThirdEyeConfig)
    (k : State) :
  initialized (initOutcome env config k) = true
  /\ sdkConfig (initOutcome env config k) = Some config.
Proof.
  unfold initOutcome.
  destruct (Scanner.scanDOM (dom env)) as [[|m l]|e]; [done| |done].
  by destruct (fetchSchemasOf _ _ _ _ _) as [[schemas|e] b].
Qed.

(** X24: initialisation.  [init] never throws.  It changes nothing when
    the instance is already initialised or the site identifier is empty.
    Otherwise the instance is initialised with this config and SDK_INIT is
    emitted.  When the scan throws, nothing else happens: the instance
    holds no new elements, no SCAN_COMPLETE is emitted, nothing is
    registered and the watcher is not started.  When the scan returns, the
    instance holds its elements and SCAN_COMPLETE is emitted; if there are
    none nothing else happens, so that later changes of the document are
    not observed.  Otherwise the descriptors are asked for with the cache
    enabled: when the synthesis returns they are kept and registered and
    the watcher runs (if it was not running before, its selectors are those
    of the scan, so a reconciliation on the same document finds no
    difference); when it throws, which it cannot on typed records, nothing
    is registered and the watcher is not started.  A second [init] changes
    nothing, whatever its config. *)
Theorem init_outcomes (env : Env) (config : ThirdEyeConfig) (k : State) :
  exists k',
    init env config k = (Normal tt, k')
    /\ (initialized k = true \/ siteId config = EmptyString -> k' = k)
    /\ (initialized k = false -> siteId config <> EmptyString ->
        initialized k' = true /\ sdkConfig k' = Some config
        /\ match Scanner.scanDOM (dom env) with
           | Throw _ =>
               events k' = (events k ++ [SDK_INIT (endpoint config)])%list
               /\ scannedElements k' = scannedElements k
               /\ browser k' = browser k /\ page k' = page k
               /\ window k' = window k
               /\ registeredSchemas k' = registeredSchemas k
               /\ currentSelectors k' = currentSelectors k
           | Normal elements =>
               scannedElements k' = elements
               /\ events k'
                  = (events k ++ [SDK_INIT (endpoint config);
                                  SCAN_COMPLETE (length elements)])%list
               /\ (elements = [] ->
                   browser k' = browser k /\ page k' = page k
                   /\ window k' = window k
                   /\ registeredSchemas k' = registeredSchemas k)
               /\ (elements <> [] ->
                   match fetchSchemasOf elements (endpoint config) false
                           (remote env) (browser k) with
                   | (Normal schemas, b) =>
                       browser k' = b /\ registeredSchemas k' = schemas
                       /\ page k' = registeredPage schemas (page k)
                       /\ isWatching k' = true
                       /\ (isWatching k = false ->
                           Watcher.config (window k') = true
                           /\ Watcher.currentUrl (window k') = href env
                           /\ watcherEndpoint k' = endpoint config
                           /\ currentSelectors k'
                              = newSet (map selector elements)
                           /\ diffSelectors (currentSelectors k') elements
                              = ([], []))
                   | (Throw _, b) =>
                       browser k' = b
                       /\ registeredSchemas k' = registeredSchemas k
                       /\ page k' = page k /\ window k' = window k
                       /\ currentSelectors k' = currentSelectors k
                   end)
               /\ (elements <> [] -> forallb isTyped elements = true ->
                   Schema.fetchSchemas (map record elements)
                     (endpoint config) false (remote env) (browser k)
                   = (Normal (registeredSchemas k'), browser k')
                   /\ page k' = registeredPage (registeredSchemas k') (page k)
                   /\ isWatching k' = true)
           end)
    /\ (initialized k' = true ->
        forall env2 config2, init env2 config2 k' = (Normal tt, k')).
Proof.
  assert (Hagain : forall k', initialized k' = true ->
            forall env2 config2, init env2 config2 k' = (Normal tt, k')).
  { intros k' H env2 config2. apply init_refused. by left. }
  destruct (initialized k) eqn:Hinit.
  { exists k. split; [apply init_refused; by left|]. split; [done|].
    split; [intros H; discriminate H|]. by apply Hagain. }
  destruct (String.eqb_spec (siteId config) EmptyString) as [Hid|Hid].
  { exists k. split; [apply init_refused; by right|]. split; [done|].
    split; [done|]. by apply Hagain. }
  exists (initOutcome env config k).
  split; [by apply init_runs|].
  split; [intros [H|H]; [discriminate H | done]|].
  split; [|by apply Hagain].
  intros _ _.
  destruct (initOutcome_initialized env config k) as [Hi Hc].
  split; [exact Hi|]. split; [exact Hc|].
  unfold initOutcome.
  destruct (Scanner.scanDOM (dom env)) as [[|m l]|e] eqn:Hscan.
  - by repeat split.
  - pose proof (fetchSchemasOf_typed (m :: l) (endpoint config) false
                  (remote env) (browser k)) as Htyped.
    destruct (fetchSchemas_requests (map record (m :: l)) (endpoint config)
                false (remote env) (browser k))
      as (schemas' & b' & Hfetch' & _).
    destruct (fetchSchemasOf (m :: l) (endpoint config) false (remote env)
                (browser k)) as [[schemas|e] b] eqn:Hfetch.
    + assert (Hwatch : isWatching (initialised env config (m :: l) schemas b k)
                       = true).
      { unfold isWatching, initialised. cbn [window].
        unfold Watcher.startWatching.
        by destruct (Watcher.observer (window k)) eqn:Hobs. }
      split; [reflexivity|]. split; [reflexivity|]. split; [done|].
      split.
      * intros _. split; [reflexivity|]. split; [reflexivity|].
        split; [reflexivity|]. split; [exact Hwatch|].
        unfold isWatching, initialised.
        cbn [window currentSelectors watcherEndpoint].
        unfold Watcher.startWatching. intros Hobs. rewrite Hobs.
        cbn [Watcher.config Watcher.currentUrl].
        repeat split.
        apply diffSelectors_empty. intros sel. apply elem_of_newSet.
      * intros _ Ht. split; [symmetry; exact (Htyped Ht)|].
        split; [reflexivity | exact Hwatch].
    + split; [reflexivity|]. split; [reflexivity|]. split; [done|].
      split; [by intros _|].
      intros _ Ht. specialize (Htyped Ht). rewrite Hfetch' in Htyped.
      discriminate Htyped.
  - by repeat split.
Qed.

(** The page after [unregisterAllTools]. *)
Definition clearedPage (env : Env) (p : Registrar.Page) : Registrar.Page :=
  match Registrar.modelContext p with
  | Some _ =>
      Registrar.set_registeredTools ∅
        (afterQuiets (refuses env) (order env) p)
  | None => p
  end.

Lemma unregisterAllTools_page (env : Env) (p : Registrar.Page) :
  Unregister.unregisterAllTools (refuses env) (order env) p
  = (Normal tt, clearedPage env p).
Proof.
  unfold Unregister.unregisterAllTools, clearedPage, bind, get.
  destruct (Registrar.modelContext p); [|reflexivity].
  by rewrite for_each_afterQuiets.
Qed.

Lemma clearedPage_host (env : Env) (p : Registrar.Page) :
  is_Some (Registrar.modelContext (clearedPage env p))
  <-> is_Some (Registrar.modelContext p).
Proof.
  unfold clearedPage.
  destruct (Registrar.modelContext p) eqn:Hctx; [|by rewrite Hctx].
  destruct (afterQuiets_rest (refuses env) (order env) p) as (_ & _ & H).
  cbn [Registrar.modelContext Registrar.set_registeredTools].
  rewrite H, Hctx. split; eauto.
Qed.

(** Whether [clearContext] reaches the host. *)
Definition clears (env : Env) (p : Registrar.Page) : bool :=
  match Registrar.modelContext p, clearContext env with
  | Some _, Works => true
  | _, _ => false
  end.

(** The state after [destroy]. *)
Definition destroyed (env : Env) (k : State) : State :=
  let running := Watcher.observer (window k) in
  let p := clearedPage env (page k) in
  {| browser := browser k;
     page := p;
     window := if running then Watcher.stopWatching (window k) else window k;
     currentSelectors := if running then [] else currentSelectors k;
     watcherEndpoint := if running then None else watcherEndpoint k;
     sdkConfig := None;
     initialized := false;
     scannedElements := [];
     registeredSchemas := [];
     events := events k;
     contextProvided := negb (clears env p) && contextProvided k |}.

Lemma destroy_destroyed (env : Env) (k : State) :
  destroy env k = (Normal tt, destroyed env k).
Proof.
  pose proof (unregisterAllTools_page env (page k)) as Hall.
  run_instance. unfold isWatching, destroyed, clears.
  destruct (Watcher.observer (window k)) eqn:Hobs; run_instance;
    rewrite Hall; run_instance;
    destruct (Registrar.modelContext (clearedPage env (page k)));
    destruct (clearContext env); run_instance; cbn [negb andb];
    try same_instance.
  all: destruct k; cbn in *; subst; reflexivity.
Qed.

(** X25: [destroy] never throws and resets the instance: it is not
    initialised, has no config, no scanned elements and no descriptors, and
    the watcher is not watching.  When there is a host the registry is
    empty afterwards, whatever the host answered to the unregistrations.
    No event is emitted and the browser, with its cache, is left alone.  If
    the watcher was watching, a reconciliation that still fires afterwards
    does nothing.  An [init] that follows takes effect again. *)
Theorem destroy_resets (env : Env) (k : State) :
  exists k',
    destroy env k = (Normal tt, k')
    /\ (isInitialized k' = false /\ getConfig k' = None
        /\ getScannedElements k' = [] /\ getSchemas k' = []
        /\ isWatcherActive k' = false)
    /\ events k' = events k /\ browser k' = browser k
    /\ Registrar.telemetry (page k') = Registrar.telemetry (page k)
    /\ (is_Some (Registrar.modelContext (page k)) ->
        Registrar.registeredTools (page k') = ∅)
    /\ (Registrar.modelContext (page k) = None -> page k' = page k)
    /\ (isWatching k = true ->
        currentSelectors k' = []
        /\ forall env2 reason,
             handleDOMChange env2 reason k' = (Normal tt, k'))
    /\ (forall env2 config, siteId config <> EmptyString ->
          exists k'', init env2 config k' = (Normal tt, k'')
                      /\ isInitialized k'' = true
                      /\ getConfig k'' = Some config).
Proof.
  exists (destroyed env k). split; [apply destroy_destroyed|].
  split.
  { unfold isInitialized, getConfig, getScannedElements, getSchemas,
      isWatcherActive, isWatching, destroyed. cbn.
    repeat split.
    destruct (Watcher.observer (window k)) eqn:Hobs; [|exact Hobs].
    unfold Watcher.stopWatching. by destruct (Watcher.debounceTimer _). }
  split; [reflexivity|]. split; [reflexivity|].
  split.
  { unfold destroyed, clearedPage. cbn [page].
    destruct (Registrar.modelContext (page k)); [|reflexivity].
    by destruct (afterQuiets_rest (refuses env) (order env) (page k))
      as (H & _). }
  split.
  { intros [h Hh]. unfold destroyed, clearedPage. cbn [page].
    by rewrite Hh. }
  split.
  { intros Hnone. unfold destroyed, clearedPage. cbn [page].
    by rewrite Hnone. }
  split.
  { unfold isWatching. intros Hobs. unfold destroyed. rewrite Hobs.
    split; [reflexivity|]. intros env2 reason.
    apply handleDOMChange_without_config. cbn [window].
    unfold Watcher.stopWatching. by destruct (Watcher.debounceTimer _). }
  intros env2 config Hid.
  assert (Hinit : initialized (destroyed env k) = false) by reflexivity.
  exists (initOutcome env2 config (destroyed env k)).
  split; [by apply init_runs|].
  apply initOutcome_initialized.
Qed.

(** The state after a [scan] of an initialised instance whose scan
    returned; [registered] holds the descriptors when the synthesis
    returned. *)
Definition scanned (elements : list Emitted)
    (registered : option (list ToolSchema)) (b : Schema.Browser) (k : State)
  : State :=
  let held := set_browser b
                (set_events
                   (events k ++ [SCAN_COMPLETE (length elements)])%list
                   (set_scannedElements elements k)) in
  match registered with
  | Some schemas =>
      set_page (registeredPage schemas (page k))
        (set_registeredSchemas schemas held)
  | None => held
  end.

Definition scanOutcome (env : Env) (config : ThirdEyeConfig) (k : State)
  : State :=
  match Scanner.scanDOM (dom env) with
  | Throw _ => k
  | Normal elements =>
      match fetchSchemasOf elements (endpoint config) false (remote env)
              (browser k) with
      | (Normal schemas, b) => scanned elements (Some schemas) b k
      | (Throw _, b) => scanned elements None b k
      end
  end.

Lemma scan_runs (env : Env) (config : ThirdEyeConfig) (k : State) :
  initialized k = true -> sdkConfig k = Some config ->
  scan env k
  = (Normal (scannedElements (scanOutcome env config k)),
     scanOutcome env config k).
Proof.
  intros Hinit Hcfg. unfold scanOutcome.
  destruct (Scanner.scanDOM (dom env)) as [elements|e] eqn:Hscan.
  - destruct (fetchSchemasOf elements (endpoint config) false (remote env)
                (browser k)) as [[schemas|e] b] eqn:Hfetch.
    + pose proof (registerTools_afterAll schemas (page k)) as Hreg.
      fold (registeredPage schemas (page k)) in Hreg.
      run_instance. rewrite Hinit, Hcfg. run_instance. rewrite Hscan.
      run_instance. rewrite Hfetch. run_instance. rewrite Hreg.
      run_instance. unfold scanned. reflexivity.
    + run_instance. rewrite Hinit, Hcfg. run_instance. rewrite Hscan.
      run_instance. rewrite Hfetch. run_instance. unfold scanned.
      reflexivity.
  - run_instance. rewrite Hinit, Hcfg. run_instance. rewrite Hscan.
    run_instance. reflexivity.
Qed.

(** X26: [scan] never throws and returns the elements the instance holds
    afterwards.  On an instance that is not initialised it returns no
    element and changes nothing.  On an initialised instance it leaves the
    watcher and its selectors as they are and sends at most one request.
    When the scan of the document throws, nothing changes and the elements
    returned are those of the scan before.  When it returns, its elements
    are held and returned, also when there are none, and SCAN_COMPLETE is
    emitted; the descriptors are asked for with the cache enabled and, when
    the synthesis returns (as it does on typed records), kept and
    registered; when it throws, the descriptors and the registry stay as
    they were. *)
Theorem scan_outcomes (env : Env) (k : State) :
  exists elements k',
    scan env k = (Normal elements, k')
    /\ (initialized k = false \/ sdkConfig k = None ->
        elements = [] /\ k' = k)
    /\ (forall config, initialized k = true -> sdkConfig k = Some config ->
        elements = getScannedElements k'
        /\ window k' = window k
        /\ currentSelectors k' = currentSelectors k
        /\ initialized k' = true /\ sdkConfig k' = Some config
        /\ (Schema.requests (browser k') = Schema.requests (browser k)
            \/ Schema.requests (browser k')
               = S (Schema.requests (browser k)))
        /\ (consistent (page k) -> consistent (page k'))
        /\ match Scanner.scanDOM (dom env) with
           | Throw _ => k' = k
           | Normal found =>
               elements = found
               /\ events k'
                  = (events k ++ [SCAN_COMPLETE (length found)])%list
               /\ match fetchSchemasOf found (endpoint config) false
                          (remote env) (browser k) with
                  | (Normal schemas, b) =>
                      browser k' = b /\ getSchemas k' = schemas
                      /\ page k' = registeredPage schemas (page k)
                  | (Throw _, b) =>
                      browser k' = b /\ getSchemas k' = getSchemas k
                      /\ page k' = page k
                  end
               /\ (forallb isTyped found = true ->
                   Schema.fetchSchemas (map record found) (endpoint config)
                     false (remote env) (browser k)
                   = (Normal (getSchemas k'), browser k')
                   /\ page k' = registeredPage (getSchemas k') (page k))
           end).
Proof.
  destruct (initialized k) eqn:Hinit; [destruct (sdkConfig k) as [config|] eqn:Hcfg|].
  - exists (scannedElements (scanOutcome env config k)),
      (scanOutcome env config k).
    split; [by apply scan_runs|].
    split; [intros [H|H]; discriminate H|].
    intros config' _ Hcfg'. injection Hcfg' as <-.
    unfold getScannedElements, getSchemas, scanOutcome.
    destruct (Scanner.scanDOM (dom env)) as [found|e] eqn:Hscan.
    2: { split; [reflexivity|]. split; [reflexivity|].
         split; [reflexivity|]. split; [exact Hinit|]. split; [exact Hcfg|].
         split; [by left|]. split; [done|]. reflexivity. }
    pose proof (fetchSchemasOf_typed found (endpoint config) false
                  (remote env) (browser k)) as Htyped.
    destruct (fetchSchemas_requests (map record found) (endpoint config)
                false (remote env) (browser k))
      as (schemas' & b' & Hfetch' & _).
    destruct (fetchSchemasOf_requests found (endpoint config) false
                (remote env) (browser k)) as (c & b & Hfetch & Hreq & _).
    rewrite !Hfetch. rewrite Hfetch in Htyped.
    destruct c as [schemas|e]; unfold scanned;
      cbn [browser page window currentSelectors sdkConfig initialized
           scannedElements registeredSchemas events
           set_browser set_page set_scannedElements set_registeredSchemas
           set_events].
    + split; [reflexivity|]. split; [reflexivity|]. split; [reflexivity|].
      split; [exact Hinit|]. split; [exact Hcfg|]. split; [exact Hreq|].
      split; [intros Hcons; by apply registeredPage_consistent|].
      split; [reflexivity|]. split; [reflexivity|]. split; [done|].
      intros Ht. split; [by rewrite <- (Htyped Ht) | reflexivity].
    + split; [reflexivity|]. split; [reflexivity|]. split; [reflexivity|].
      split; [exact Hinit|]. split; [exact Hcfg|]. split; [exact Hreq|].
      split; [done|].
      split; [reflexivity|]. split; [reflexivity|]. split; [done|].
      intros Ht. rewrite Hfetch' in Htyped. discriminate (Htyped Ht).
  - exists [], k. split; [run_instance; by rewrite Hinit, Hcfg|].
    split; [done|]. intros config _ H. discriminate H.
  - exists [], k. split; [run_instance; by rewrite Hinit|].
    split; [done|]. intros config H. discriminate H.
Qed.

(** *** The kit on the demo page *)

Definition startState : State :=
  {| browser := shopBrowser; page := freshPage; window := initialWindow;
     currentSelectors := []; watcherEndpoint := None; sdkConfig := None;
     initialized := false; scannedElements := []; registeredSchemas := [];
     events := []; contextProvided := false |}.

Definition siteConfig : ThirdEyeConfig :=
  {| siteId := "site_abc123"; endpoint := None; ingestUrl := None;
     debug := None |}.

Definition visit (doc : Scanner.Document) : Env :=
  {| dom := doc; remote := unavailable; refuses := fun _ _ => false;
     order := ["search"; "unknown_form"; "delete_account";
               "open_support_chat"];
     href := "https://shop.example/";
     provideContext := Works; clearContext := Works |}.

(** The demo page after the delete button and the admin button went and a
    pay button came. *)
Definition laterDoc : Scanner.Document :=
  Scanner.plainDocument
      (el "html" []
         [ el "head" [] [];
           el "body" []
             [ el "form" [("id", "search"); ("method", "get");
                          ("action", "/search")]
                 [ el "label" [("for", "q")] [Scanner.Text "Query"];
                   el "input" [("id", "q"); ("name", "q"); ("type", "text");
                               ("required", EmptyString)] [];
                   el "input" [("type", "submit"); ("value", "Go")] [] ];
               el "div" [("id", "chat-widget");
                         ("data-tool-name", "open_support_chat");
                         ("data-tool-readonly", EmptyString)]
                 [Scanner.Text "Need help?"];
               el "button" [("id", "pay")] [Scanner.Text "Pay"];
               el "form" [] [] ] ])
      (fun a => "https://shop.example" +:+ (a ?? "/")).

Example init_then_reconcile :
  let k1 := (init (visit demoDoc) siteConfig startState).2 in
  let k2 := (handleDOMChange (visit laterDoc) Watcher.mutation k1).2 in
  hostNames (page k1)
  = ["search"; "unknown_form"; "delete_account"; "open_support_chat"]
  /\ isWatching k1 = true
  /\ events k2
     = [SDK_INIT None; SCAN_COMPLETE 4; DOM_MUTATION Watcher.mutation 1 1;
        TOOL_UNREGISTERED "delete_account"
          "html > body > button:nth-of-type(1)"]
  /\ hostNames (page k2)
     = ["search"; "unknown_form"; "open_support_chat"; "pay"]
  /\ currentSelectors k2
     = ["#search"; "html > body > form:nth-of-type(2)"; "#pay";
        "#chat-widget"]
  /\ (destroy (visit laterDoc) k2).2
     = (destroy (visit laterDoc) (destroy (visit laterDoc) k2).2).2.
Proof. vm_compute. by repeat split. Qed.

(** A callback that throws ends its loop. *)
Lemma forEach_throws {A B : Type} (callback : A -> completion (option B))
    (l : list A) (a : A) (e : Exn) :
  a ∈ l -> callback a = Throw e ->
  exists e', Scanner.forEach callback l = Throw e'.
Proof.
  induction l as [|a' l IH]; intros Ha Hcb; [by apply elem_of_nil in Ha|].
  simpl. apply elem_of_cons in Ha. destruct Ha as [->|Ha].
  - rewrite Hcb. by exists e.
  - destruct (callback a') as [pushed|e1]; [|by exists e1].
    destruct (IH Ha Hcb) as [e' ->]. by exists e'.
Qed.

(** X29: one field whose label cannot be looked up disables the kit on the
    whole page.  Let a form that is not ignored have, among its input,
    select and textarea descendants, a field that is kept (not an input
    of type hidden, submit, button, reset or image) and whose id is not
    empty and makes [document.querySelector] throw, as an id with a double
    quote does.  Then [scanForms] and [scanDOM] throw, whatever else the
    page holds, and an [init] that takes its config ends after SDK_INIT:
    no element is held, no request is sent, nothing is registered and the
    watcher is not started. *)
Theorem unreadable_label_disables_kit (doc : Scanner.Document)
    (f d : Scanner.Located) (e : Exn) :
  f ∈ Scanner.formCandidates doc ->
  Scanner.isIgnored f = false ->
  d ∈ Scanner.descendants f Scanner.isField ->
  (Scanner.hasTag "input" (Scanner.node d) = true ->
   Scanner.inputTypeOf (Scanner.node d) ∉ Scanner.skippedTypes) ->
  Scanner.id (Scanner.node d) <> EmptyString ->
  Scanner.labelFor doc (Scanner.id (Scanner.node d)) = Throw e ->
  (exists e1, Scanner.scanForms doc = Throw e1)
  /\ (exists e2, Scanner.scanDOM doc = Throw e2)
  /\ Scanner.tracedDOM doc = []
  /\ (forall env config k,
        dom env = doc -> initialized k = false ->
        siteId config <> EmptyString ->
        init env config k = (Normal tt, initAborted config k)
        /\ events (initAborted config k)
           = (events k ++ [SDK_INIT (endpoint config)])%list
        /\ scannedElements (initAborted config k) = scannedElements k
        /\ browser (initAborted config k) = browser k
        /\ page (initAborted config k) = page k
        /\ window (initAborted config k) = window k).
Proof.
  intros Hf Hign Hd Hkept Hid Hlabel.
  assert (Hinput : exists e0, Scanner.scanInput doc d = Throw e0).
  { unfold Scanner.scanInput.
    destruct (Scanner.hasTag "input" (Scanner.node d)) eqn:Htag; simpl.
    - rewrite bool_decide_eq_false_2 by (by apply Hkept).
      destruct (Scanner.id (Scanner.node d)) as [|c i] eqn:Heq; [done|].
      destruct (Scanner.reflected "name" (Scanner.node d)) as [|c' n'];
        simpl; unfold Scanner.findLabelText; rewrite Heq; simpl;
        rewrite Hlabel; by eexists.
    - destruct (Scanner.id (Scanner.node d)) as [|c i] eqn:Heq; [done|].
      destruct (Scanner.reflected "name" (Scanner.node d)) as [|c' n'];
        simpl; unfold Scanner.findLabelText; rewrite Heq; simpl;
        rewrite Hlabel; by eexists. }
  destruct Hinput as [e0 Hinput].
  destruct (forEach_throws (Scanner.scanInput doc) _ d e0 Hd Hinput)
    as [e0' Hfields].
  assert (Hform : exists e1, Scanner.scanForm doc f = Throw e1).
  { unfold Scanner.scanForm. rewrite Hign, Hfields.
    destruct (Scanner.exposes doc f "hasAttribute"); [by eexists|].
    destruct (Scanner.exposes doc f "getAttribute"); [by eexists|].
    destruct (Scanner.exposes doc f "querySelectorAll"); by eexists. }
  destruct Hform as [e1 Hform].
  assert (Hforms : exists e1', Scanner.scanForms doc = Throw e1').
  { unfold Scanner.scanForms, Scanner.pass.
    destruct (Scanner.clobbered doc "querySelectorAll"); [by eexists|].
    by apply (forEach_throws (Scanner.scanForm doc) _ f e1). }
  destruct Hforms as [e1' Hforms].
  assert (Hscan : Scanner.scanDOM doc = Throw e1')
    by (unfold Scanner.scanDOM; by rewrite Hforms).
  split; [by exists e1'|]. split; [by exists e1'|].
  split; [unfold Scanner.tracedDOM; by rewrite Hscan|].
  intros env config k Hdom Hinit Hsite.
  split; [|by repeat split].
  rewrite (init_runs env config k Hinit Hsite).
  unfold initOutcome. by rewrite Hdom, Hscan.
Qed.

Lemma unreadable_label_disables_kit_witness :
  (exists e2, Scanner.scanDOM quoteDoc = Throw e2)
  /\ init (visit quoteDoc) siteConfig startState
     = (Normal tt, initAborted siteConfig startState).
Proof.
  set (field := {| Scanner.node :=
                     el "input" [("id", quoteId); ("name", "x")] [];
                   Scanner.chain :=
                     [(el "form" [("id", "f")]
                         [el "input" [("id", quoteId); ("name", "x")] []],
                       0%nat);
                      (el "body" []
                         [ el "form" [("id", "f")]
                             [el "input" [("id", quoteId); ("name", "x")] []];
                           el "button" [("id", "go")] [Scanner.Text "Go"] ],
                       0%nat);
                      (quoteRoot, 0%nat)] |}).
  set (form := {| Scanner.node :=
                    el "form" [("id", "f")]
                      [el "input" [("id", quoteId); ("name", "x")] []];
                  Scanner.chain :=
                    [(el "body" []
                        [ el "form" [("id", "f")]
                            [el "input" [("id", quoteId); ("name", "x")] []];
                          el "button" [("id", "go")] [Scanner.Text "Go"] ],
                      0%nat);
                     (quoteRoot, 0%nat)] |}).
  assert (Hform : form ∈ Scanner.formCandidates quoteDoc)
    by (apply list_elem_of_In; vm_compute; left; reflexivity).
  assert (Hfield : field ∈ Scanner.descendants form Scanner.isField)
    by (apply list_elem_of_In; vm_compute; left; reflexivity).
  assert (Hkept : Scanner.hasTag "input" (Scanner.node field) = true ->
                  Scanner.inputTypeOf (Scanner.node field)
                  ∉ Scanner.skippedTypes).
  { intros _ Hin. apply list_elem_of_In in Hin. vm_compute in Hin.
    destruct Hin as [H|[H|[H|[H|[H|[]]]]]]; discriminate H. }
  assert (Hid : Scanner.id (Scanner.node field) <> EmptyString)
    by discriminate.
  destruct (unreadable_label_disables_kit quoteDoc form field _
              Hform eq_refl Hfield Hkept Hid eq_refl)
    as (_ & Hscan & _ & Hinit).
  split; [exact Hscan|].
  destruct (Hinit (visit quoteDoc) siteConfig startState eq_refl eq_refl)
    as (Hrun & _); [discriminate|exact Hrun].
Defined.

(** On the page whose field has a double quote in its id the scan throws:
    [init] takes the config and emits SDK_INIT, and that is all; the
    instance holds no element, nothing is registered, the watcher does not
    run, and a [scan] that follows changes nothing. *)
Example init_on_page_that_cannot_be_scanned :
  let k1 := (init (visit quoteDoc) siteConfig startState).2 in
  events k1 = [SDK_INIT None]
  /\ initialized k1 = true
  /\ scannedElements k1 = []
  /\ registeredSchemas k1 = []
  /\ hostNames (page k1) = []
  /\ isWatching k1 = false
  /\ scan (visit quoteDoc) k1 = (Normal [], k1).
Proof. vm_compute. by repeat split. Qed.

(** On the page whose form has a hidden field named id the scan returns
    one record that holds the field in the place of its id.  Without an
    endpoint the descriptors are generated locally, [toToolName] throws on
    the field, and [init] ends in its catch block: the element is held but
    nothing is registered and the watcher does not run. *)
Example init_on_form_with_field_named_id :
  let k1 := (init (visit orderDoc) siteConfig startState).2 in
  events k1 = [SDK_INIT None; SCAN_COMPLETE 1]
  /\ initialized k1 = true
  /\ map isTyped (scannedElements k1) = [false]
  /\ registeredSchemas k1 = []
  /\ hostNames (page k1) = []
  /\ isWatching k1 = false.
Proof. vm_compute. by repeat split. Qed.

End Instance.

(** * Selectors of siblings *)

Section Selectors.

Import Scanner.

Lemma append_cancel_l (p s1 s2 : string) : p +:+ s1 = p +:+ s2 -> s1 = s2.
Proof.
  induction p as [|c p IH]; simpl; [done|].
  intros H. injection H as H. by apply IH.
Qed.

Lemma length_append (s t : string) :
  String.length (s +:+ t) = (String.length s + String.length t)%nat.
Proof. induction s as [|c s IH]; simpl; [done|]. by rewrite IH. Qed.

Lemma append_cancel_r (s1 s2 t : string) : s1 +:+ t = s2 +:+ t -> s1 = s2.
Proof.
  revert s2. induction s1 as [|c s1 IH]; intros [|c2 s2] H; simpl in H.
  - reflexivity.
  - apply (f_equal String.length) in H.
    rewrite !length_append in H. simpl in H. lia.
  - apply (f_equal String.length) in H.
    rewrite !length_append in H. simpl in H. lia.
  - injection H as -> H. f_equal. by apply IH.
Qed.

(** A tag name without a colon. *)
Fixpoint no_colon (s : string) : bool :=
  match s with
  | EmptyString => true
  | String c s' => negb (Ascii.eqb c ":"%char) && no_colon s'
  end.

(** What [buildSelector] appends to the tag: nothing, or a position. *)
Definition isSuffix (s : string) : Prop :=
  s = EmptyString \/ exists r, s = String ":"%char r.

Lemma tags_differ (t1 t2 s1 s2 : string) :
  no_colon t1 = true -> no_colon t2 = true ->
  isSuffix s1 -> isSuffix s2 ->
  t1 +:+ s1 = t2 +:+ s2 -> t1 = t2.
Proof.
  revert t2. induction t1 as [|c t1 IH]; intros [|c2 t2] H1 H2 Hs1 Hs2 H;
    simpl in *.
  - reflexivity.
  - apply andb_true_iff in H2. destruct H2 as [Hc _].
    destruct Hs1 as [->|[r ->]]; [discriminate H|].
    injection H as <- _. discriminate Hc.
  - apply andb_true_iff in H1. destruct H1 as [Hc _].
    destruct Hs2 as [->|[r ->]]; [discriminate H|].
    injection H as -> _. discriminate Hc.
  - apply andb_true_iff in H1. destruct H1 as [_ H1].
    apply andb_true_iff in H2. destruct H2 as [_ H2].
    injection H as -> H. f_equal. by apply IH.
Qed.

(** The number of elements with a tag in a list of nodes. *)
Definition tagged (tag : string) (l : list Node) : nat :=
  length (filter (fun s => hasTag tag s = true)
            (filter (fun s => isElement s = true) l)).

Lemma tagged_app (tag : string) (l1 l2 : list Node) :
  tagged tag (l1 ++ l2) = (tagged tag l1 + tagged tag l2)%nat.
Proof. unfold tagged. by rewrite !filter_app, length_app. Qed.

Lemma tagged_cons (tag : string) (n : Node) (l : list Node) :
  isElement n = true -> tagName n = tag ->
  tagged tag (n :: l) = S (tagged tag l).
Proof.
  intros Hel Htag. unfold tagged.
  rewrite (filter_cons_True (fun s => isElement s = true)) by exact Hel.
  rewrite (filter_cons_True (fun s => hasTag tag s = true)).
  - reflexivity.
  - unfold hasTag. by apply String.eqb_eq.
Qed.

(** An element with the tag at [pos1] is counted before [pos2]. *)
Lemma sameTagBefore_lt (tag : string) (parent n1 : Node) (pos1 pos2 : nat) :
  childNodes parent !! pos1 = Some n1 ->
  isElement n1 = true -> tagName n1 = tag ->
  (pos1 < pos2)%nat ->
  (sameTagBefore tag pos1 parent < sameTagBefore tag pos2 parent)%nat.
Proof.
  intros Hat Hel Htag Hlt. unfold sameTagBefore.
  fold (tagged tag (take pos1 (childNodes parent))).
  fold (tagged tag (take pos2 (childNodes parent))).
  pose proof (take_drop_middle _ _ _ Hat) as Hsplit.
  assert (Hlen : length (take pos1 (childNodes parent)) = pos1).
  { apply length_take_le. apply lookup_lt_Some in Hat. lia. }
  rewrite <- Hsplit at 2.
  rewrite take_app_ge by lia. rewrite Hlen.
  replace (pos2 - pos1)%nat with (S (pos2 - pos1 - 1)) by lia.
  simpl take. rewrite tagged_app, (tagged_cons tag n1) by done. lia.
Qed.

(** Two elements with the tag make the count at least two. *)
Lemma sameTagCount_two (tag : string) (parent n1 n2 : Node)
    (pos1 pos2 : nat) :
  childNodes parent !! pos1 = Some n1 -> childNodes parent !! pos2 = Some n2 ->
  isElement n1 = true -> tagName n1 = tag ->
  isElement n2 = true -> tagName n2 = tag ->
  (pos1 < pos2)%nat ->
  (2 <= sameTagCount tag parent)%nat.
Proof.
  intros Hat1 Hat2 Hel1 Htag1 Hel2 Htag2 Hlt.
  pose proof (sameTagBefore_lt tag parent n1 pos1 pos2 Hat1 Hel1 Htag1 Hlt)
    as Hbefore.
  unfold sameTagBefore in Hbefore. unfold sameTagCount.
  fold (tagged tag (take pos1 (childNodes parent))) in Hbefore.
  fold (tagged tag (take pos2 (childNodes parent))) in Hbefore.
  fold (tagged tag (childNodes parent)).
  rewrite <- (take_drop_middle _ _ _ Hat2).
  rewrite tagged_app, (tagged_cons tag n2) by done. lia.
Qed.

Lemma append_empty_r (s : string) : s +:+ EmptyString = s.
Proof.
  induction s as [|c s IH]; [done|].
  change (String c (s +:+ EmptyString) = String c s). by f_equal.
Qed.

(** The selector of a child without id: the selector of the parent, the
    tag, and a position when the tag is not alone among the children. *)
Lemma buildSelector_child (n parent : Node) (pos : nat)
    (up : list (Node * nat)) :
  id n = EmptyString ->
  exists suffix,
    buildSelector n ((parent, pos) :: up)
    = buildSelector parent up +:+ " > " +:+ tagName n +:+ suffix
    /\ isSuffix suffix
    /\ (sameTagCount (tagName n) parent <> 1%nat ->
        suffix = ":nth-of-type("
                 +:+ pretty (S (sameTagBefore (tagName n) pos parent))
                 +:+ ")").
Proof.
  intros Hid. cbn [buildSelector]. rewrite Hid. cbn [Js.is_empty negb].
  destruct (Nat.eqb_spec (sameTagCount (tagName n) parent) 1) as [Hone|Hmany].
  - exists EmptyString. split; [by rewrite append_empty_r|].
    split; [by left | done].
  - eexists. split; [reflexivity|]. split; [right; by eexists | done].
Qed.

(** X27: among the children of one parent, [buildSelector] is injective
    on the elements without id.  Two element children at different
    positions, both without an id and with tag names that contain no colon,
    never get the same selector: with different tags the tags tell them
    apart, with the same tag the positions written by nth-of-type do. *)
Theorem sibling_selectors_differ (parent n1 n2 : Node) (pos1 pos2 : nat)
    (up : list (Node * nat)) :
  childNodes parent !! pos1 = Some n1 ->
  childNodes parent !! pos2 = Some n2 ->
  pos1 <> pos2 ->
  isElement n1 = true -> isElement n2 = true ->
  id n1 = EmptyString -> id n2 = EmptyString ->
  no_colon (tagName n1) = true -> no_colon (tagName n2) = true ->
  buildSelector n1 ((parent, pos1) :: up)
  <> buildSelector n2 ((parent, pos2) :: up).
Proof.
  intros Hat1 Hat2 Hpos Hel1 Hel2 Hid1 Hid2 Hc1 Hc2 Heq.
  destruct (buildSelector_child n1 parent pos1 up Hid1)
    as (s1 & Hsel1 & Hs1 & Hnth1).
  destruct (buildSelector_child n2 parent pos2 up Hid2)
    as (s2 & Hsel2 & Hs2 & Hnth2).
  rewrite Hsel1, Hsel2 in Heq.
  apply append_cancel_l, append_cancel_l in Heq.
  assert (Htag : tagName n1 = tagName n2)
    by (by apply (tags_differ _ _ s1 s2)).
  rewrite Htag in Heq. apply append_cancel_l in Heq.
  assert (Hmany : sameTagCount (tagName n2) parent <> 1%nat).
  { destruct (Nat.lt_total pos1 pos2) as [Hlt|[Heq'|Hlt]]; [|done|].
    - pose proof (sameTagCount_two (tagName n2) parent n1 n2 pos1 pos2
                    Hat1 Hat2 Hel1 Htag Hel2 eq_refl Hlt). lia.
    - pose proof (sameTagCount_two (tagName n2) parent n2 n1 pos2 pos1
                    Hat2 Hat1 Hel2 eq_refl Hel1 Htag Hlt). lia. }
  rewrite Htag in Hnth1.
  rewrite (Hnth1 Hmany), (Hnth2 Hmany) in Heq.
  apply append_cancel_l, append_cancel_r in Heq.
  apply (inj pretty) in Heq. injection Heq as Heq.
  destruct (Nat.lt_total pos1 pos2) as [Hlt|[Heq'|Hlt]]; [|done|].
  - pose proof (sameTagBefore_lt (tagName n2) parent n1 pos1 pos2
                  Hat1 Hel1 Htag Hlt). lia.
  - pose proof (sameTagBefore_lt (tagName n2) parent n2 pos2 pos1
                  Hat2 Hel2 eq_refl Hlt). lia.
Qed.

(** The two buttons without id of the demo page. *)
Lemma sibling_selectors_differ_witness :
  buildSelector (el "button" [] [Text " Delete Account "])
    [(demoBody, 1%nat); (demoRoot, 1%nat)]
  <> buildSelector (el "button" [] []) [(demoBody, 4%nat); (demoRoot, 1%nat)]
  /\ buildSelector (el "button" [] [])
       [(demoBody, 4%nat); (demoRoot, 1%nat)]
     = "html > body > button:nth-of-type(3)".
Proof.
  split; [|reflexivity].
  apply (sibling_selectors_differ demoBody _ _ 1 4 [(demoRoot, 1%nat)]);
    try reflexivity.
  lia.
Defined.

(** Two elements with the same id share their selector. *)
Example same_id_same_selector :
  buildSelector (el "button" [("id", "go")] [Text "Go"])
    [(demoBody, 0%nat); (demoRoot, 1%nat)]
  = buildSelector (el "form" [("id", "go")] []) [(demoRoot, 0%nat)].
Proof. reflexivity. Qed.

End Selectors.
